(** * The WhatsApp bridge of gerador-ofertas ([src/lib/whatsapp.ts])

    A shallow embedding of the connection singleton, the session state
    machine, the event broadcaster, the chat-identity resolver and the
    dispatch layer, followed by the properties of the specification that
    are settled against them. *)

From Equations Require Import Equations.
From Stdlib Require Import List Bool Arith NArith String Ascii Lia.
Import ListNotations.

Set Implicit Arguments.

(** ** JavaScript strings

    A JS string is a sequence of UTF-16 code units.  Literals are
    written with [js], which reads the UTF-8 bytes of a Rocq string. *)

Module JsString.

Definition t := list N.

(** Literals.  The bytes of a literal are UTF-8; one- and two-byte
    sequences (ASCII and the accented letters of the messages) are
    turned into their code units. *)
Fixpoint ofUtf8 (bs : list N) : t :=
  match bs with
  | b1 :: ((b2 :: rest) as tl) =>
      if (192 <=? b1)%N && (b1 <? 224)%N
      then ((b1 - 192) * 64 + (b2 - 128))%N :: ofUtf8 rest
      else b1 :: ofUtf8 tl
  | _ => bs
  end.

Definition js (s : string) : t :=
  ofUtf8 (map N_of_ascii (list_ascii_of_string s)).

(** The empty string. *)
Definition empty : t := [].

Fixpoint eqb (a b : t) : bool :=
  match a, b with
  | [], [] => true
  | x :: a', y :: b' => N.eqb x y && eqb a' b'
  | _, _ => false
  end.

(** Truthiness of a string: [!!s]. *)
Definition truthy (s : t) : bool :=
  match s with [] => false | _ :: _ => true end.

(** [s.startsWith(p)] *)
Fixpoint startsWith (p s : t) : bool :=
  match p, s with
  | [], _ => true
  | x :: p', y :: s' => N.eqb x y && startsWith p' s'
  | _ :: _, [] => false
  end.

(** [s.slice(n)] for a non-negative [n]. *)
Definition slice (n : nat) (s : t) : t := skipn n s.

(** [s.includes(p)] *)
Fixpoint includes (p s : t) : bool :=
  startsWith p s ||
  match s with
  | [] => false
  | _ :: s' => includes p s'
  end.

(** The class [\d] of a regular expression without the [u] flag. *)
Definition isDigit (c : N) : bool := (48 <=? c)%N && (c <=? 57)%N.

(** [s.replace(/\D/g, '')] *)
Definition stripNonDigits (s : t) : t := filter isDigit s.

(** WhiteSpace and LineTerminator code units, the ones [trim] removes. *)
Definition isWhiteSpace (c : N) : bool :=
  existsb (N.eqb c)
    [9; 10; 11; 12; 13; 32; 160; 5760; 8232; 8233; 8239; 8287; 12288; 65279]%N
  || ((8192 <=? c)%N && (c <=? 8202)%N).

Fixpoint trimStart (s : t) : t :=
  match s with
  | c :: s' => if isWhiteSpace c then trimStart s' else s
  | [] => []
  end.

Definition trimEnd (s : t) : t := rev (trimStart (rev s)).

(** [s.trim()] *)
Definition trim (s : t) : t := trimEnd (trimStart s).

(** Case folding of one code unit as far as the ASCII letters go.  The
    comparisons of the source are all against ASCII literals, and no
    code unit outside ASCII is folded onto an ASCII letter there. *)
Definition lowerUnit (c : N) : N :=
  if (65 <=? c)%N && (c <=? 90)%N then (c + 32)%N else c.

Definition toLowerCase (s : t) : t := map lowerUnit s.

(** [/p/i.test(s)] for a pattern [p] of lower-case ASCII letters and
    spaces: a case-insensitive search for [p] anywhere in [s].  Without
    the [u] flag a code unit outside ASCII never matches an ASCII
    letter, so folding the ASCII letters of [s] is all there is to it. *)
Definition testIgnoreCase (p s : t) : bool := includes p (toLowerCase s).

End JsString.

Definition jsstring : Type := JsString.t.
Definition js : string -> jsstring := JsString.js.

(** ** Chat identity resolver: digit normalisation *)

Definition domesticPrefix : jsstring := js "55".

(** The [while] loop of [normalizeDigits]: strip the prefix as long as
    the string starts with it and is longer than 13 code units. *)
Equations? stripDuplicatedPrefix (digits : jsstring) : jsstring
  by wf (List.length digits) lt :=
  stripDuplicatedPrefix digits
    with Equations.Prop.Logic.inspect (JsString.startsWith domesticPrefix digits
                  && (13 <? List.length digits)) => {
    | exist _ true _ := stripDuplicatedPrefix (JsString.slice 2 digits);
    | exist _ false _ := digits }.
Proof.
  destruct digits as [|a [|b rest]]; simpl in *; try discriminate; lia.
Qed.

Definition normalizeDigits (raw : jsstring) : jsstring :=
  let digits := stripDuplicatedPrefix (JsString.stripNonDigits raw) in
  if negb (JsString.startsWith domesticPrefix digits)
     && (Nat.eqb (List.length digits) 10 || Nat.eqb (List.length digits) 11)
  then domesticPrefix ++ digits
  else digits.

(** ** Data model *)

Module Status.
Inductive t := idle | initializing | qr | ready | disconnected | error.

Definition eqb (a b : t) : bool :=
  match a, b with
  | idle, idle | initializing, initializing | qr, qr
  | ready, ready | disconnected, disconnected | error, error => true
  | _, _ => false
  end.
End Status.

Definition WhatsAppConnectionStatus : Type := Status.t.

(** The object [{ status, qr, lastError }]: the payload of a [state]
    event and the value [getWhatsAppStatus] returns.  [None] is [null]. *)
Record StatusData := {
  data_status : WhatsAppConnectionStatus;
  data_qr : option jsstring;
  data_lastError : option jsstring;
}.

Module Event.
Inductive t :=
| state (data : StatusData)
| qr (qr : jsstring)
| ready
| disconnected (reason : jsstring)
| auth_failure (message : jsstring)
| message (from body id : jsstring)
| error (message : jsstring).

Definition isState (ev : t) : bool :=
  match ev with state _ => true | _ => false end.
End Event.

Definition WhatsAppEvent : Type := Event.t.

Record WhatsAppState := {
  status : WhatsAppConnectionStatus;
  qr : option jsstring;
  lastError : option jsstring;
  initialized : bool;
  listenersAttached : bool;
  injectedPatched : bool;
}.

(** A value caught by [catch (e)]: an [Error] with its message, or
    anything else. *)
Inductive Thrown :=
| JsError (message : jsstring)
| NotAnError.

(** What [client.sendMessage] is given. *)
Inductive Content :=
| Text (text : jsstring)
| Media (mimeType base64 : jsstring) (filename : option jsstring).

Record SendOptions := {
  sendSeen : bool;
  caption : option jsstring;
  sendMediaAsDocument : option bool;
}.

(** Subscribers are compared by reference; a number stands for the
    identity of the callback. *)
Definition Listener : Type := nat.

(** The identity of a [Client] instance. *)
Definition ClientId : Type := nat.

(** Calls into the underlying client and deliveries to subscribers, in
    the order they happen. *)
Inductive Effect :=
| ClientOn (c : ClientId)
| ClientRemoveAllListeners (c : ClientId)
| ClientDestroy (c : ClientId)
| ClientInitialize (c : ClientId)
| ClientGetNumberId (c : ClientId) (digits : jsstring)
| PageEvaluate (c : ClientId)
| ClientSendMessage (c : ClientId) (chatId : jsstring)
    (content : Content) (options : SendOptions)
| Emit (ev : WhatsAppEvent)
| Deliver (l : Listener) (ev : WhatsAppEvent).

(** The singleton [{ client, state, emitter }] together with what the
    model keeps about its surroundings: the clients that carry the
    handlers of [attachListenersIfNeeded] (one entry per registration),
    the number of [page.evaluate] calls started by the [ready] handler
    that have not settled yet, and the trace of effects. *)
Record World := {
  client : ClientId;
  state : WhatsAppState;
  emitter : list Listener;
  clientListeners : list ClientId;
  pendingPatches : nat;
  trace : list Effect;
}.

(** ** A monad for the code: a state, and completions that may throw *)

Inductive Completion (A : Type) :=
| Normal (a : A)
| Throw (e : Thrown).
Arguments Throw {A} e.

Definition Js (A : Type) : Type := World -> Completion A * World.

Definition ret {A} (a : A) : Js A := fun w => (Normal a, w).

Definition bind {A B} (m : Js A) (k : A -> Js B) : Js B :=
  fun w =>
    match m w with
    | (Normal a, w') => k a w'
    | (Throw e, w') => (Throw e, w')
    end.

Definition throw {A} (e : Thrown) : Js A := fun w => (Throw e, w).

(** [try { m } catch (e) { h e }] *)
Definition tryCatch {A} (m : Js A) (h : Thrown -> Js A) : Js A :=
  fun w =>
    match m w with
    | (Normal a, w') => (Normal a, w')
    | (Throw e, w') => h e w'
    end.

Definition gets {A} (f : World -> A) : Js A := fun w => (Normal (f w), w).

Definition modify (f : World -> World) : Js unit := fun w => (Normal tt, f w).

Declare Scope js_scope.
Delimit Scope js_scope with js.
Notation "x <- m ;; k" := (bind m (fun x => k))
  (at level 61, m at next level, right associativity) : js_scope.
Notation "m ;; k" := (bind m (fun _ => k))
  (at level 61, right associativity) : js_scope.
Open Scope js_scope.

(** [throw new Error(message)] *)
Definition throwError {A} (message : jsstring) : Js A := throw (JsError message).

(** State after a computation, and its completion. *)
Definition exec {A} (m : Js A) (w : World) : World := snd (m w).
Definition eval {A} (m : Js A) (w : World) : Completion A := fst (m w).

(** *** Writes to the fields of [state] and of the world *)

Definition withState (f : WhatsAppState -> WhatsAppState) (w : World) : World :=
  {| client := client w; state := f (state w); emitter := emitter w;
     clientListeners := clientListeners w;
     pendingPatches := pendingPatches w; trace := trace w |}.

Definition set_status (v : WhatsAppConnectionStatus) : Js unit :=
  modify (withState (fun s =>
    {| status := v; qr := qr s; lastError := lastError s;
       initialized := initialized s; listenersAttached := listenersAttached s;
       injectedPatched := injectedPatched s |})).

Definition set_qr (v : option jsstring) : Js unit :=
  modify (withState (fun s =>
    {| status := status s; qr := v; lastError := lastError s;
       initialized := initialized s; listenersAttached := listenersAttached s;
       injectedPatched := injectedPatched s |})).

Definition set_lastError (v : option jsstring) : Js unit :=
  modify (withState (fun s =>
    {| status := status s; qr := qr s; lastError := v;
       initialized := initialized s; listenersAttached := listenersAttached s;
       injectedPatched := injectedPatched s |})).

Definition set_initialized (v : bool) : Js unit :=
  modify (withState (fun s =>
    {| status := status s; qr := qr s; lastError := lastError s;
       initialized := v; listenersAttached := listenersAttached s;
       injectedPatched := injectedPatched s |})).

Definition set_listenersAttached (v : bool) : Js unit :=
  modify (withState (fun s =>
    {| status := status s; qr := qr s; lastError := lastError s;
       initialized := initialized s; listenersAttached := v;
       injectedPatched := injectedPatched s |})).

Definition set_injectedPatched (v : bool) : Js unit :=
  modify (withState (fun s =>
    {| status := status s; qr := qr s; lastError := lastError s;
       initialized := initialized s; listenersAttached := listenersAttached s;
       injectedPatched := v |})).

Definition set_client (c : ClientId) : Js unit :=
  modify (fun w =>
    {| client := c; state := state w; emitter := emitter w;
       clientListeners := clientListeners w;
     pendingPatches := pendingPatches w; trace := trace w |}).

Definition set_emitter (ls : list Listener) : Js unit :=
  modify (fun w =>
    {| client := client w; state := state w; emitter := ls;
       clientListeners := clientListeners w;
     pendingPatches := pendingPatches w; trace := trace w |}).

Definition set_clientListeners (cs : list ClientId) : Js unit :=
  modify (fun w =>
    {| client := client w; state := state w; emitter := emitter w;
       clientListeners := cs;
       pendingPatches := pendingPatches w; trace := trace w |}).

Definition set_pendingPatches (n : nat) : Js unit :=
  modify (fun w =>
    {| client := client w; state := state w; emitter := emitter w;
       clientListeners := clientListeners w;
       pendingPatches := n; trace := trace w |}).

(** Append effects to the trace. *)
Definition record (es : list Effect) : Js unit :=
  modify (fun w =>
    {| client := client w; state := state w; emitter := emitter w;
       clientListeners := clientListeners w;
       pendingPatches := pendingPatches w; trace := trace w ++ es |}).

(** ** The underlying client

    [whatsapp-web.js] is outside the repository.  Each call into it is
    given its result from outside: what an awaited call settles with,
    and what happens while the caller is suspended. *)

(** The events of the client the module listens to.  [pagePresent]
    says whether [client.pupPage.evaluate] exists when the [ready]
    handler runs. *)
Inductive ClientEvent :=
| OnQr (qr : jsstring)
| OnReady (pagePresent : bool)
| OnAuthFailure (message : jsstring)
| OnDisconnected (reason : jsstring)
| OnMessage (from body id : jsstring).

(** What can happen while no code of the module runs: a client emits
    an event, or a [page.evaluate] call that the [ready] handler
    started, without waiting for it, settles. *)
Inductive Occurrence :=
| Emits (c : ClientId) (ev : ClientEvent)
| EvaluateSettles (outcome : Completion unit).

Record Await (A : Type) := {
  during : list Occurrence;
  settles : Completion A;
}.

Definition resolved {A} (a : A) : Await A := {| during := []; settles := Normal a |}.
Definition rejected {A} (e : Thrown) : Await A := {| during := []; settles := Throw e |}.

(** ** The event broadcaster: the [EventEmitter] of the singleton

    Node's emitter keeps, for the one event name used, an array of
    listeners. *)

(** [emitter.emit('event', ev)]: every registered listener is called,
    in registration order. *)
Definition emit (ev : WhatsAppEvent) : Js unit :=
  ls <- gets emitter ;;
  record (Emit ev :: map (fun l => Deliver l ev) ls).

(** [emitter.on('event', listener)] appends, duplicates included. *)
Definition emitter_on (listener : Listener) : Js unit :=
  ls <- gets emitter ;;
  set_emitter (ls ++ [listener]).

Fixpoint removeFirst (l : Listener) (ls : list Listener) : list Listener :=
  match ls with
  | [] => []
  | x :: ls' => if Nat.eqb x l then ls' else x :: removeFirst l ls'
  end.

(** [emitter.off('event', listener)] removes at most one registration,
    the most recently added one. *)
Definition emitter_off (listener : Listener) : Js unit :=
  ls <- gets emitter ;;
  set_emitter (rev (removeFirst listener (rev ls))).

(** ** Session state machine *)

(** [createSingleton()]: a new emitter, a new client, the initial state.
    [setMaxListeners(50)] only moves the threshold of a warning and has
    no counterpart here. *)
Definition createSingleton : World :=
  {| client := 0;
     state := {| status := Status.idle; qr := None; lastError := None;
                 initialized := false; listenersAttached := false;
                 injectedPatched := false |};
     emitter := [];
     clientListeners := [];
     pendingPatches := 0;
     trace := [] |}.

(** [globalThis.__adcproWhatsapp] is created on first use.  Every
    function below starts with [getSingleton()], so they are written
    over the world in which the singleton exists. *)
Definition getSingleton (global : option World) : World :=
  match global with
  | Some w => w
  | None => createSingleton
  end.

(** [createClient()]: a client that did not exist before.  Clients are
    numbered in the order they are made. *)
Definition createClient : Js ClientId :=
  c <- gets client ;;
  ret (S c).

Definition getWhatsAppStatus : Js StatusData :=
  gets (fun w => {| data_status := status (state w);
                    data_qr := qr (state w);
                    data_lastError := lastError (state w) |}).

Definition emitState : Js unit :=
  data <- getWhatsAppStatus ;;
  emit (Event.state data).

(** An awaited call on the client: the call is made, what occurs
    during the suspension is handled, then the call settles. *)
Section Awaiting.
Variable occur : Occurrence -> Js unit.

Fixpoint deliverAll (evs : list Occurrence) : Js unit :=
  match evs with
  | [] => ret tt
  | o :: evs' => occur o ;; deliverAll evs'
  end.

Definition await {A} (call : Effect) (a : Await A) : Js A :=
  record [call] ;;
  deliverAll (during a) ;;
  fun w => (settles a, w).
End Awaiting.

(** [await patchInjectedWWebJSIfNeeded()], as the two send functions
    call it.  The page-side function of the patch runs in the browser
    and is not part of the model; [evaluate] says how [page.evaluate]
    settles. *)
Definition patchInjectedWWebJSIfNeeded
    (occur : Occurrence -> Js unit)
    (pagePresent : bool) (evaluate : Await unit) : Js unit :=
  c <- gets client ;;
  patched <- gets (fun w => injectedPatched (state w)) ;;
  if patched then ret tt else
  if negb pagePresent then ret tt else
  tryCatch
    (await occur (PageEvaluate c) evaluate ;;
     set_injectedPatched true)
    (fun _ => ret tt).

(** [void patchInjectedWWebJSIfNeeded()], as the [ready] handler calls
    it: the function runs up to its [await], that is through the two
    guards and the call of [page.evaluate], and the handler goes on
    without waiting.  What follows the [await] runs when the call
    settles, whatever has happened to the singleton in between. *)
Definition startPatch (pagePresent : bool) : Js unit :=
  c <- gets client ;;
  patched <- gets (fun w => injectedPatched (state w)) ;;
  if patched then ret tt else
  if negb pagePresent then ret tt else
  record [PageEvaluate c] ;;
  n <- gets pendingPatches ;;
  set_pendingPatches (S n).

(** The rest of a [patchInjectedWWebJSIfNeeded()] that was started
    without waiting: [state.injectedPatched = true] when [page.evaluate]
    resolved, nothing when it rejected.  Without a pending call
    nothing settles. *)
Definition patchSettled (outcome : Completion unit) : Js unit :=
  n <- gets pendingPatches ;;
  match n with
  | O => ret tt
  | S n' =>
      set_pendingPatches n' ;;
      match outcome with
      | Normal _ => set_injectedPatched true
      | Throw _ => ret tt
      end
  end.

(** The five handlers [attachListenersIfNeeded] registers.  A falsy
    argument ([undefined] or the empty string) is the empty string. *)
Definition orElse (s fallback : jsstring) : jsstring :=
  if JsString.truthy s then s else fallback.

Definition handle (ev : ClientEvent) : Js unit :=
  match ev with
  | OnQr q =>
      set_status Status.qr ;;
      set_qr (Some q) ;;
      set_lastError None ;;
      emit (Event.qr q) ;;
      emitState
  | OnReady pagePresent =>
      set_status Status.ready ;;
      set_qr None ;;
      set_lastError None ;;
      emit Event.ready ;;
      emitState ;;
      startPatch pagePresent
  | OnAuthFailure message =>
      set_status Status.error ;;
      set_lastError (Some (orElse message (js "auth_failure"))) ;;
      emit (Event.auth_failure (orElse message (js "auth_failure"))) ;;
      emitState
  | OnDisconnected reason =>
      set_status Status.disconnected ;;
      set_lastError (if JsString.truthy reason then Some reason else None) ;;
      emit (Event.disconnected (orElse reason JsString.empty)) ;;
      emitState
  | OnMessage from body id =>
      emit (Event.message from body id)
  end.

Fixpoint times (n : nat) (m : Js unit) : Js unit :=
  match n with
  | O => ret tt
  | S n' => m ;; times n' m
  end.

(** Client [c] emits [ev]: the handlers run once per registration on [c]. *)
Definition clientEmit (c : ClientId) (ev : ClientEvent) : Js unit :=
  n <- gets (fun w => count_occ Nat.eq_dec (clientListeners w) c) ;;
  times n (handle ev).

(** What occurs while the module is suspended or idle. *)
Definition occur (o : Occurrence) : Js unit :=
  match o with
  | Emits c ev => clientEmit c ev
  | EvaluateSettles outcome => patchSettled outcome
  end.

(** [client.on(...)] for the five handlers, as one registration. *)
Definition client_on (c : ClientId) : Js unit :=
  record [ClientOn c] ;;
  cs <- gets clientListeners ;;
  set_clientListeners (cs ++ [c]).

Definition attachListenersIfNeeded : Js unit :=
  c <- gets client ;;
  attached <- gets (fun w => listenersAttached (state w)) ;;
  if attached then ret tt else
  set_listenersAttached true ;;
  client_on c.

(** [client.removeAllListeners()]; when it throws, nothing is taken to
    have been removed. *)
Definition client_removeAllListeners (c : ClientId) (outcome : Completion unit)
  : Js unit :=
  record [ClientRemoveAllListeners c] ;;
  match outcome with
  | Normal _ =>
      cs <- gets clientListeners ;;
      set_clientListeners (filter (fun x => negb (Nat.eqb x c)) cs)
  | Throw e => throw e
  end.

Record Teardown := {
  removeAll : Completion unit;
  destroy : Await unit;
}.

Definition resetWhatsApp (run : Teardown) : Js StatusData :=
  old <- gets client ;;
  tryCatch
    (tryCatch (client_removeAllListeners old (removeAll run)) (fun _ => ret tt) ;;
     await occur (ClientDestroy old) (destroy run))
    (fun _ => ret tt) ;;
  fresh <- createClient ;;
  set_client fresh ;;
  set_status Status.idle ;;
  set_qr None ;;
  set_lastError None ;;
  set_initialized false ;;
  set_listenersAttached false ;;
  set_injectedPatched false ;;
  attachListenersIfNeeded ;;
  emitState ;;
  getWhatsAppStatus.

Definition initFailureMessage (e : Thrown) : jsstring :=
  match e with
  | JsError message => message
  | NotAnError => js "Falha ao inicializar WhatsApp."
  end.

Definition startWhatsApp (initialize : Await unit) : Js StatusData :=
  c <- gets client ;;
  attachListenersIfNeeded ;;
  st <- gets (fun w => status (state w)) ;;
  if Status.eqb st Status.ready || Status.eqb st Status.initializing
     || Status.eqb st Status.qr
  then getWhatsAppStatus
  else
    set_status Status.initializing ;;
    set_lastError None ;;
    data <- getWhatsAppStatus ;;
    emit (Event.state data) ;;
    inited <- gets (fun w => initialized (state w)) ;;
    (if negb inited then
       set_initialized true ;;
       tryCatch
         (await occur (ClientInitialize c) initialize)
         (fun e =>
            let message := initFailureMessage e in
            set_status Status.error ;;
            set_lastError (Some message) ;;
            set_initialized false ;;
            emit (Event.error message) ;;
            emitState)
     else ret tt) ;;
    getWhatsAppStatus.

(** ** Chat identity resolver and dispatch layer *)

(** What the client answers during one send. *)
Record SendRun := {
  run_initialize : Await unit;
  (** [String(wid?._serialized || wid || '')] of [client.info.wid] *)
  run_selfWid : jsstring;
  (** [numberId?._serialized] of the awaited [getNumberId(digits)] *)
  run_getNumberId : Await (option jsstring);
  (** whether [client.pupPage.evaluate] exists *)
  run_pagePresent : bool;
  run_evaluate : Await unit;
  run_sendMessage : Await unit;
}.

Definition msgInvalidNumber : jsstring := js "Número inválido.".
Definition msgSelfUnavailable : jsstring :=
  js "Não foi possível resolver o número do WhatsApp conectado.".
Definition msgNotOnNetwork : jsstring := js "Este número não está no WhatsApp.".
Definition msgNotConnected : jsstring := js "WhatsApp não está conectado.".
Definition msgEmptyMessage : jsstring := js "Mensagem vazia.".
Definition msgInvalidMedia : jsstring := js "Mídia inválida.".

Definition resolveWhatsAppChatId (run : SendRun) (c : ClientId)
    (numberOrChatId : jsstring) : Js jsstring :=
  let input := JsString.trim numberOrChatId in
  if negb (JsString.truthy input) then throwError msgInvalidNumber else
  let resolveSelfChatId :=
    let serialized := JsString.trim (run_selfWid run) in
    if JsString.includes (js "@") serialized then serialized
    else JsString.empty in
  let inputLower := JsString.toLowerCase input in
  if JsString.eqb inputLower (js "me") || JsString.eqb inputLower (js "self")
  then
    let chatId := resolveSelfChatId in
    if negb (JsString.truthy chatId) then throwError msgSelfUnavailable
    else ret chatId
  else
  if JsString.includes (js "@") input then ret input else
  let digits := normalizeDigits input in
  if negb (JsString.truthy digits) then throwError msgInvalidNumber else
  found <- tryCatch
    (numberId <- await occur (ClientGetNumberId c digits)
                   (run_getNumberId run) ;;
     let chatId := match numberId with Some s => s | None => JsString.empty end in
     if JsString.truthy chatId then ret (Some chatId) else ret None)
    (fun _ => ret None) ;;
  match found with
  | Some chatId => ret chatId
  | None => throwError msgNotOnNetwork
  end.

(** The unroutable-identity signature, [/no lid for user/i]. *)
Definition noLidForUser (msg : jsstring) : bool :=
  JsString.testIgnoreCase (js "no lid for user") msg.

Definition messageOf (e : Thrown) : jsstring :=
  match e with
  | JsError message => message
  | NotAnError => JsString.empty
  end.

Definition sendWhatsAppMessage (run : SendRun)
    (numberOrChatId message : jsstring) : Js unit :=
  c <- gets client ;;
  st <- startWhatsApp (run_initialize run) ;;
  if negb (Status.eqb (data_status st) Status.ready)
  then throwError msgNotConnected else
  let text := message in
  if negb (JsString.truthy (JsString.trim text))
  then throwError msgEmptyMessage else
  chatId <- resolveWhatsAppChatId run c numberOrChatId ;;
  patchInjectedWWebJSIfNeeded occur (run_pagePresent run) (run_evaluate run) ;;
  tryCatch
    (await occur
       (ClientSendMessage c chatId (Text text)
          {| sendSeen := false; caption := None; sendMediaAsDocument := None |})
       (run_sendMessage run))
    (fun e =>
       let msg := messageOf e in
       if noLidForUser msg then throwError msgNotOnNetwork else
       if JsString.truthy msg then throwError msg else
       throw (match e with
              | JsError _ => e
              | NotAnError => JsError (js "Falha ao enviar mensagem.")
              end)).

Record MediaData := {
  mimeType : jsstring;
  base64 : jsstring;
  filename : option jsstring;
}.

Definition orEmpty (s : option jsstring) : jsstring :=
  match s with Some v => v | None => JsString.empty end.

Definition orUndefined (s : jsstring) : option jsstring :=
  if JsString.truthy s then Some s else None.

Definition sendWhatsAppMedia (run : SendRun) (numberOrChatId : jsstring)
    (data : MediaData) (captionArg : option jsstring)
    (sendAsDocumentArg : option bool) : Js unit :=
  c <- gets client ;;
  st <- startWhatsApp (run_initialize run) ;;
  if negb (Status.eqb (data_status st) Status.ready)
  then throwError msgNotConnected else
  let mime := JsString.trim (mimeType data) in
  let b64 := JsString.trim (base64 data) in
  let fname := orUndefined (JsString.trim (orEmpty (filename data))) in
  if negb (JsString.truthy mime) || negb (JsString.truthy b64)
  then throwError msgInvalidMedia else
  chatId <- resolveWhatsAppChatId run c numberOrChatId ;;
  patchInjectedWWebJSIfNeeded occur (run_pagePresent run) (run_evaluate run) ;;
  let media := Media mime b64 fname in
  let captionText := JsString.trim (orEmpty captionArg) in
  let sendAsDocument :=
    match sendAsDocumentArg with Some true => true | _ => false end in
  tryCatch
    (await occur
       (ClientSendMessage c chatId media
          {| sendSeen := false;
             caption := orUndefined captionText;
             sendMediaAsDocument := if sendAsDocument then Some true else None |})
       (run_sendMessage run))
    (fun e =>
       let msg := messageOf e in
       if noLidForUser msg then throwError msgNotOnNetwork else
       if JsString.truthy msg then throwError msg else
       throw (match e with
              | JsError _ => e
              | NotAnError => JsError (js "Falha ao enviar mídia.")
              end)).

(** The returned closure is [() => emitter.off('event', listener)]. *)
Definition subscribeWhatsAppEvents (listener : Listener) : Js (Js unit) :=
  emitter_on listener ;;
  ret (emitter_off listener).

(** ** Sequences of calls

    Calls of the exported functions are taken one after the other; what
    may happen inside a call while it is suspended is the delivery of
    client events and the settling of [page.evaluate] calls that the
    [ready] handler left pending, given by the [during] field of each
    awaited call.  Between two calls the same can happen.  Subscribers
    only observe: a callback neither throws nor calls back into the
    module. *)

(** What the session state machine is driven by. *)
Inductive Op :=
| OpStart (initialize : Await unit)
| OpReset (run : Teardown)
| OpClientEmit (c : ClientId) (ev : ClientEvent)
| OpEvaluateSettles (outcome : Completion unit).

Definition runOp (o : Op) (w : World) : World :=
  match o with
  | OpStart initialize => exec (startWhatsApp initialize) w
  | OpReset run => exec (resetWhatsApp run) w
  | OpClientEmit c ev => exec (clientEmit c ev) w
  | OpEvaluateSettles outcome => exec (patchSettled outcome) w
  end.

Definition runOps (ops : list Op) (w : World) : World :=
  fold_left (fun w o => runOp o w) ops w.

(** The states the singleton can be in: those a sequence of [start()],
    [reset()], client events and settlements of pending [page.evaluate]
    calls leads to from its creation. *)
Definition reachable (w : World) : Prop :=
  exists ops, w = runOps ops createSingleton.

(** The exported calls other than [reset()]; [CallUnsubscribe] is a call
    of the function [subscribe] returned. *)
Inductive Call :=
| CallStart (initialize : Await unit)
| CallGetStatus
| CallSendText (run : SendRun) (numberOrChatId message : jsstring)
| CallSendMedia (run : SendRun) (numberOrChatId : jsstring) (data : MediaData)
    (captionArg : option jsstring) (sendAsDocumentArg : option bool)
| CallSubscribe (listener : Listener)
| CallUnsubscribe (listener : Listener).

Definition runCall (k : Call) (w : World) : World :=
  match k with
  | CallStart initialize => exec (startWhatsApp initialize) w
  | CallGetStatus => exec getWhatsAppStatus w
  | CallSendText run n m => exec (sendWhatsAppMessage run n m) w
  | CallSendMedia run n d c o => exec (sendWhatsAppMedia run n d c o) w
  | CallSubscribe l => exec (subscribeWhatsAppEvents l) w
  | CallUnsubscribe l => exec (emitter_off l) w
  end.

Definition runCalls (ks : list Call) (w : World) : World :=
  fold_left (fun w k => runCall k w) ks w.

(** Any mix of the two. *)
Inductive Action :=
| Do (o : Op)
| Invoke (k : Call).

Definition runAction (a : Action) (w : World) : World :=
  match a with
  | Do o => runOp o w
  | Invoke k => runCall k w
  end.

Definition runActions (acts : list Action) (w : World) : World :=
  fold_left (fun w a => runAction a w) acts w.

Definition startAll (inits : list (Await unit)) (w : World) : World :=
  fold_left (fun w i => exec (startWhatsApp i) w) inits w.

(** ** Reading the world and its trace *)

Definition statusData (w : World) : StatusData :=
  {| data_status := status (state w);
     data_qr := qr (state w);
     data_lastError := lastError (state w) |}.

Definition idleData : StatusData :=
  {| data_status := Status.idle; data_qr := None; data_lastError := None |}.

Definition isInitialize (e : Effect) : bool :=
  match e with ClientInitialize _ => true | _ => false end.

Definition isSendMessage (e : Effect) : bool :=
  match e with ClientSendMessage _ _ _ _ => true | _ => false end.

Definition isClientCall (e : Effect) : bool :=
  match e with
  | Emit _ | Deliver _ _ => false
  | _ => true
  end.

(** How many effects of a kind the trace holds. *)
Definition calls (kind : Effect -> bool) (w : World) : nat :=
  List.length (filter kind (trace w)).

(** The events passed to [emitter.emit], in order. *)
Fixpoint emitted (tr : list Effect) : list WhatsAppEvent :=
  match tr with
  | [] => []
  | Emit ev :: tr' => ev :: emitted tr'
  | _ :: tr' => emitted tr'
  end.

(** The events one listener was called with, in order. *)
Fixpoint deliveredTo (l : Listener) (tr : list Effect) : list WhatsAppEvent :=
  match tr with
  | [] => []
  | Deliver l' ev :: tr' =>
      if Nat.eqb l' l then ev :: deliveredTo l tr' else deliveredTo l tr'
  | _ :: tr' => deliveredTo l tr'
  end.

(** What one [emit] appends to the trace. *)
Definition broadcast (ls : list Listener) (ev : WhatsAppEvent) : list Effect :=
  Emit ev :: map (fun l => Deliver l ev) ls.

(** [k] copies of each event, as a listener registered [k] times
    receives them. *)
Definition copies (k : nat) (evs : list WhatsAppEvent) : list WhatsAppEvent :=
  flat_map (fun ev => repeat ev k) evs.

(** ** Vocabulary of the properties *)

(** The length the loop of [normalizeDigits] stops at: the domestic
    prefix followed by an eleven-digit national number. *)
Definition standardPrefixedLength : nat := 13.

(** The statuses in which [start()] returns at once. *)
Definition started (w : World) : Prop :=
  status (state w) = Status.ready
  \/ status (state w) = Status.initializing
  \/ status (state w) = Status.qr.

(** A run of [start()] calls, client events and settlements of pending
    [page.evaluate] calls in which every [start()] finds the status
    [ready], [initializing] or [qr]. *)
Fixpoint startsWhileStarted (ops : list Op) (w : World) : Prop :=
  match ops with
  | [] => True
  | OpStart initialize :: ops' =>
      started w /\ startsWhileStarted ops' (runOp (OpStart initialize) w)
  | OpClientEmit c ev :: ops' =>
      startsWhileStarted ops' (runOp (OpClientEmit c ev) w)
  | OpEvaluateSettles outcome :: ops' =>
      startsWhileStarted ops' (runOp (OpEvaluateSettles outcome) w)
  | OpReset _ :: _ => False
  end.

(** In [idle] and in [ready] there is no pairing token. *)
Definition qrClearedWhenSettled (w : World) : Prop :=
  status (state w) = Status.idle \/ status (state w) = Status.ready ->
  qr (state w) = None.

(** The state [reset()] leaves behind: the fields are cleared, then
    [attachListenersIfNeeded] sets [listenersAttached] again. *)
Definition stateAfterReset : WhatsAppState :=
  {| status := Status.idle; qr := None; lastError := None;
     initialized := false; listenersAttached := true;
     injectedPatched := false |}.

(** The typed event a client event is relayed as.  An inbound message is
    relayed too, but it is no transition of the session. *)
Definition typedEventOf (ev : ClientEvent) : option WhatsAppEvent :=
  match ev with
  | OnQr q => Some (Event.qr q)
  | OnReady _ => Some Event.ready
  | OnAuthFailure message =>
      Some (Event.auth_failure (orElse message (js "auth_failure")))
  | OnDisconnected reason =>
      Some (Event.disconnected (orElse reason JsString.empty))
  | OnMessage _ _ _ => None
  end.

(** A typed event followed by a [state] event, and nothing else. *)
Definition typedThenState (evs : list WhatsAppEvent) : Prop :=
  exists typed data,
    Event.isState typed = false /\ evs = [typed; Event.state data].

(** The action subscribes or unsubscribes listener [l]. *)
Definition concerns (l : Listener) (a : Action) : bool :=
  match a with
  | Invoke (CallSubscribe l') | Invoke (CallUnsubscribe l') => Nat.eqb l' l
  | _ => false
  end.

(** Listener [l] is registered [k] times and has been called with every
    event emitted since the trace read [e0] and [d0]. *)
Definition hears (l : Listener) (k : nat) (e0 d0 : list WhatsAppEvent)
    (w : World) : Prop :=
  count_occ Nat.eq_dec (emitter w) l = k
  /\ exists new,
       emitted (trace w) = e0 ++ new
       /\ deliveredTo l (trace w) = d0 ++ copies k new.

(** Registrations are on clients made so far, and the current client
    carries the handlers once exactly when the guard is set. *)
Definition attachedOnce (w : World) : Prop :=
  (forall c, In c (clientListeners w) -> c <= client w)
  /\ count_occ Nat.eq_dec (clientListeners w) (client w)
     = if listenersAttached (state w) then 1 else 0.

(** *** What a computation keeps *)

(** A property of the world that a computation keeps, however it
    completes. *)
Definition preserves {A} (P : World -> Prop) (m : Js A) : Prop :=
  forall w, P w -> P (exec m w).

(** A property indifferent to the fields of [state] and to the pending
    [page.evaluate] calls, kept by every broadcast, and by the client
    calls that are [allowed]. *)
Record Framed (P : World -> Prop) (allowed : Effect -> bool) : Prop := {
  framed_state : forall f w, P w -> P (withState f w);
  framed_emit : forall ev, preserves P (emit ev);
  framed_call : forall e, allowed e = true -> preserves P (record [e]);
  framed_listeners : forall cs, preserves P (set_clientListeners cs);
  framed_pending : forall n, preserves P (set_pendingPatches n);
}.

(** A computation that never throws. *)
Definition total {A} (m : Js A) : Prop :=
  forall w, exists a, eval m w = Normal a.

(** What a computation returns when it returns. *)
Definition yields {A} (m : Js A) (R : A -> World -> Prop) : Prop :=
  forall w,
    match m w with
    | (Normal a, w') => R a w'
    | (Throw _, _) => True
    end.

(** The trace holds [n] effects of a kind; [others] are the effects that
    are not of that kind. *)
Definition keepsCalls (kind : Effect -> bool) (n : nat) (w : World) : Prop :=
  calls kind w = n.

Definition others (kind : Effect -> bool) (e : Effect) : bool := negb (kind e).

(** What occurs while the module is suspended changes neither the
    client nor the subscribers, and it only adds to the trace. *)
Definition extends (w w' : World) : Prop :=
  client w' = client w
  /\ emitter w' = emitter w
  /\ exists es, trace w' = trace w ++ es.

(** The teardown at the start of [reset()] leaves the singleton's client
    and subscribers as they are. *)
Definition sameHandle (w w' : World) : Prop :=
  client w' = client w /\ emitter w' = emitter w.

(** The handlers touch neither the client, nor the registrations on
    clients, nor the [listenersAttached] guard. *)
Definition sameRegistry (w w' : World) : Prop :=
  client w' = client w
  /\ clientListeners w' = clientListeners w
  /\ listenersAttached (state w') = listenersAttached (state w).

(** ** Scenarios *)

(** A pairing token read, then the connection lost. *)
Definition staleQrOps : list Op :=
  [ OpStart (resolved tt);
    OpClientEmit 0 (OnQr (js "2@pairing-token"));
    OpClientEmit 0 (OnDisconnected (js "NAVIGATION")) ].

(** A first [start()] whose [initialize()] resolved. *)
Definition afterFirstStart : World :=
  exec (startWhatsApp (resolved tt)) createSingleton.

(** A session that is connected. *)
Definition readyWorld : World :=
  runOps [ OpStart (resolved tt);
           OpClientEmit 0 (OnReady false) ] createSingleton.

(** A session that was connected and then lost its connection. *)
Definition afterDisconnect : World :=
  runOps [ OpStart (resolved tt);
           OpClientEmit 0 (OnReady false);
           OpClientEmit 0 (OnDisconnected (js "LOGOUT")) ] createSingleton.

(** A subscriber watching a session that waits for its pairing. *)
Definition watchedWorld : World :=
  exec (startWhatsApp (resolved tt))
    (exec (subscribeWhatsAppEvents 7) createSingleton).

(** A teardown in which both the detachment and [destroy()] throw. *)
Definition failingTeardown : Teardown :=
  {| removeAll := Throw (JsError (js "Protocol error"));
     destroy := rejected (JsError (js "Target closed")) |}.

(** A send in which every call on the client succeeds. *)
Definition plainRun : SendRun :=
  {| run_initialize := resolved tt;
     run_selfWid := js "5511988887777@c.us";
     run_getNumberId := resolved (Some (js "5511999998888@c.us"));
     run_pagePresent := true;
     run_evaluate := resolved tt;
     run_sendMessage := resolved tt |}.

(** A send in which [sendMessage] fails for want of a routable identity. *)
Definition noLidRun : SendRun :=
  {| run_initialize := resolved tt;
     run_selfWid := js "5511988887777@c.us";
     run_getNumberId := resolved (Some (js "5511999998888@c.us"));
     run_pagePresent := true;
     run_evaluate := resolved tt;
     run_sendMessage :=
       rejected (JsError (js "Evaluation failed: Error: No LID for user")) |}.

(** ** The HTTP routes

    The routes of [app/api/whatsapp] are the callers of the module.
    What the platform answers about a request (its headers, the URLs
    it parses, the JSON of its body) is given with the request. *)

(** The bodies the routes answer with. *)
Inductive Payload :=
| StatusBody (data : StatusData)
| OkBody
| ErrorBody (error : jsstring).

Record Response := {
  httpStatus : nat;
  payload : Payload;
}.

(** [NextResponse.json(body, { status })]; the status is 200 when none
    is given. *)
Definition json (body : Payload) (status : nat) : Response :=
  {| httpStatus := status; payload := body |}.

(** An awaited call on the platform: client events may arrive and
    pending [page.evaluate] calls may settle during the suspension, and
    no call is made on the client. *)
Definition awaitPlatform {A} (a : Await A) : Js A :=
  deliverAll occur (during a) ;;
  fun w => (settles a, w).

(** *** [start/route.ts] *)

Module StartRoute.

Record Request := {
  (** [new URL(request.url).searchParams.get('force')]: [Throw] when
      the constructor throws, [None] for [null] *)
  forceParam : Completion (option jsstring);
}.

Definition shouldForce (request : Request) : bool :=
  match forceParam request with
  | Normal (Some v) => JsString.eqb v (js "1")
  | Normal None => false
  | Throw _ => false
  end.

Definition GET (request : Request) (teardown : Teardown)
    (initialize : Await unit) : Js Response :=
  (if shouldForce request then resetWhatsApp teardown ;; ret tt else ret tt) ;;
  status <- startWhatsApp initialize ;;
  ret (json (StatusBody status) 200).

Definition POST (request : Request) (teardown : Teardown)
    (initialize : Await unit) : Js Response :=
  (if shouldForce request then resetWhatsApp teardown ;; ret tt else ret tt) ;;
  status <- startWhatsApp initialize ;;
  ret (json (StatusBody status) 200).

End StartRoute.

(** *** The send route *)

(** [s.indexOf(c)] for a single code unit [c]; [None] is [-1]. *)
Fixpoint indexOf (c : N) (s : jsstring) : option nat :=
  match s with
  | [] => None
  | x :: s' => if N.eqb x c then Some 0 else option_map S (indexOf c s')
  end.

(** [s.slice(a, b)] for non-negative [a] and [b]. *)
Definition sliceBetween (a b : nat) (s : jsstring) : jsstring :=
  firstn (b - a) (skipn a s).

(** [s.split(c)] for a single code unit [c]. *)
Fixpoint split (c : N) (s : jsstring) : list jsstring :=
  match s with
  | [] => [[]]
  | x :: s' =>
      if N.eqb x c then [] :: split c s'
      else match split c s' with
           | p :: ps => (x :: p) :: ps
           | [] => [[x]]
           end
  end.

Definition comma : N := 44.
Definition semicolon : N := 59.

Module SendRoute.

(** A member of the JSON body, as far as the schema tells values
    apart: missing, a string, or anything else. *)
Inductive Field :=
| Absent
| StringField (s : jsstring)
| OtherField.

Record JsonObject := {
  field_number : Field;
  field_message : Field;
  field_mediaDataUrl : Field;
  field_filename : Field;
}.

Inductive Body :=
| NotAnObject
| Object (members : JsonObject).

Record Request := {
  (** [request.headers.get(name)], [None] for [null] *)
  header_adminRequest : option jsstring;
  header_origin : option jsstring;
  header_referer : option jsstring;
  (** [new URL(origin).origin === new URL(request.url).origin] for the
      trimmed [origin] header; [Throw] when a constructor throws *)
  sameOrigin : Completion bool;
  (** [new URL(referer).pathname] for the lower-cased [referer]
      header; [Throw] when the constructor throws *)
  refererPathname : Completion jsstring;
  (** [await request.json()] *)
  body : Await Body;
}.

(** [parsed.data] of a successful [safeParse]. *)
Record Parsed := {
  parsed_number : jsstring;
  parsed_message : jsstring;
  parsed_mediaDataUrl : option jsstring;
  parsed_filename : option jsstring;
}.

(** [z.string().optional()]: [undefined] or a string. *)
Definition optionalString (f : Field) : option (option jsstring) :=
  match f with
  | Absent => Some None
  | StringField s => Some (Some s)
  | OtherField => None
  end.

(** [requestSchema.safeParse(body)]: [None] when [success] is false. *)
Definition requestSchema (b : Body) : option Parsed :=
  match b with
  | NotAnObject => None
  | Object o =>
      match field_number o, optionalString (field_message o),
            optionalString (field_mediaDataUrl o),
            optionalString (field_filename o) with
      | StringField number, Some message, Some mediaDataUrl, Some filename =>
          if negb (1 <=? List.length number) then None else
          let val :=
            {| parsed_number := number;
               parsed_message := orEmpty message;
               parsed_mediaDataUrl := mediaDataUrl;
               parsed_filename := filename |} in
          let hasMedia :=
            JsString.truthy (JsString.trim (orEmpty (parsed_mediaDataUrl val))) in
          let hasMessage :=
            JsString.truthy (JsString.trim (parsed_message val)) in
          if negb hasMedia && negb hasMessage then None else Some val
      | _, _, _, _ => None
      end
  end.

Record DataUrl := {
  dataUrl_mimeType : jsstring;
  dataUrl_base64 : jsstring;
}.

Definition parseDataUrl (input : jsstring) : option DataUrl :=
  let trimmed := JsString.trim input in
  if negb (JsString.startsWith (js "data:") trimmed) then None else
  match indexOf comma trimmed with
  | None => None
  | Some comma =>
      let meta :=
        JsString.trim (sliceBetween (List.length (js "data:")) comma trimmed) in
      let base64 := JsString.trim (JsString.slice (comma + 1) trimmed) in
      let parts :=
        filter JsString.truthy (map JsString.trim (split semicolon meta)) in
      let mimeType := JsString.trim (hd JsString.empty parts) in
      let hasBase64 :=
        existsb (fun p => JsString.eqb (JsString.toLowerCase p) (js "base64"))
          parts in
      if negb hasBase64 then None else
      if negb (JsString.truthy mimeType) || negb (JsString.truthy base64)
      then None
      else Some {| dataUrl_mimeType := mimeType; dataUrl_base64 := base64 |}
  end.

Definition isSameOrigin (request : Request) : bool :=
  let origin := JsString.trim (orEmpty (header_origin request)) in
  if negb (JsString.truthy origin) then false else
  match sameOrigin request with
  | Normal same => same
  | Throw _ => false
  end.

Definition isAdminRequest (request : Request) : bool :=
  let adminHint := JsString.trim (orEmpty (header_adminRequest request)) in
  if JsString.eqb adminHint (js "1") && isSameOrigin request then true else
  let referer := JsString.toLowerCase (orEmpty (header_referer request)) in
  if negb (JsString.truthy referer) then false else
  match refererPathname request with
  | Normal pathname =>
      JsString.eqb pathname (js "/admin")
      || JsString.startsWith (js "/admin/") pathname
  | Throw _ => false
  end.

Definition POST (request : Request) (initialize : Await unit)
    (run : SendRun) : Js Response :=
  if negb (isAdminRequest request)
  then ret (json (ErrorBody (js "Unauthorized")) 401) else
  read <- tryCatch (b <- awaitPlatform (body request) ;; ret (Some b))
            (fun _ => ret None) ;;
  match read with
  | None => ret (json (ErrorBody (js "Body inválido.")) 400)
  | Some b =>
  match requestSchema b with
  | None => ret (json (ErrorBody (js "Parâmetros inválidos.")) 400)
  | Some parsed =>
      tryCatch
        (status <- startWhatsApp initialize ;;
         if negb (Status.eqb (data_status status) Status.ready)
         then ret (json (ErrorBody (js "WhatsApp não está conectado.")) 409)
         else
         let mediaDataUrl :=
           JsString.trim (orEmpty (parsed_mediaDataUrl parsed)) in
         if JsString.truthy mediaDataUrl then
           match parseDataUrl mediaDataUrl with
           | None => ret (json (ErrorBody (js "mediaDataUrl inválido.")) 400)
           | Some parsedUrl =>
               let sendAsDocument :=
                 JsString.eqb
                   (JsString.toLowerCase (dataUrl_mimeType parsedUrl))
                   (js "application/pdf") in
               sendWhatsAppMedia run (parsed_number parsed)
                 {| mimeType := dataUrl_mimeType parsedUrl;
                    base64 := dataUrl_base64 parsedUrl;
                    filename :=
                      orUndefined
                        (JsString.trim (orEmpty (parsed_filename parsed))) |}
                 (Some (parsed_message parsed)) (Some sendAsDocument) ;;
               ret (json OkBody 200)
           end
         else
           sendWhatsAppMessage run (parsed_number parsed)
             (parsed_message parsed) ;;
           ret (json OkBody 200))
        (fun e =>
           ret (json (ErrorBody (match e with
                                 | JsError message => message
                                 | NotAnError => js "Erro inesperado."
                                 end)) 500))
  end
  end.

End SendRoute.

(** ** Vocabulary of the further properties *)

(** A string of decimal digits. *)
Definition allDigits (s : jsstring) : bool := forallb JsString.isDigit s.

Definition isLookup (e : Effect) : bool :=
  match e with ClientGetNumberId _ _ => true | _ => false end.

(** What the [catch] clause around [sendMessage] throws for a caught
    value, [fallback] being the message used for a value that is not an
    [Error]. *)
Definition sendFailure (fallback : jsstring) (e : Thrown) : Thrown :=
  let msg := messageOf e in
  if noLidForUser msg then JsError msgNotOnNetwork else
  if JsString.truthy msg then JsError msg else
  match e with
  | JsError _ => e
  | NotAnError => JsError fallback
  end.

(** The [sendMessage] calls of the trace, in order. *)
Definition sendCalls (w : World) : list Effect := filter isSendMessage (trace w).

Definition keepsSends (sent : list Effect) (w : World) : Prop :=
  sendCalls w = sent.

Definition textOptions : SendOptions :=
  {| sendSeen := false; caption := None; sendMediaAsDocument := None |}.

(** The options [sendWhatsAppMedia] passes. *)
Definition mediaOptions (captionArg : option jsstring)
    (sendAsDocumentArg : option bool) : SendOptions :=
  {| sendSeen := false;
     caption := orUndefined (JsString.trim (orEmpty captionArg));
     sendMediaAsDocument :=
       match sendAsDocumentArg with Some true => Some true | _ => None end |}.

(** The payload [sendWhatsAppMedia] builds. *)
Definition mediaContent (data : MediaData) : Content :=
  Media (JsString.trim (mimeType data)) (JsString.trim (base64 data))
    (orUndefined (JsString.trim (orEmpty (filename data)))).

(** A PDF with blanks around its fields. *)
Definition pdfData : MediaData :=
  {| mimeType := js " application/pdf";
     base64 := js "JVBERi0xLjcK ";
     filename := Some (js "  ") |}.

(** A send in which [sendMessage] rejects with a value that is not an
    [Error]. *)
Definition oddRejectionRun : SendRun :=
  {| run_initialize := resolved tt;
     run_selfWid := js "5511988887777@c.us";
     run_getNumberId := resolved (Some (js "5511999998888@c.us"));
     run_pagePresent := false;
     run_evaluate := resolved tt;
     run_sendMessage := rejected NotAnError |}.

(** What the status says about the other two fields: with [qr] there is
    a token; with [error] there is a diagnostic; only with [error] and
    [disconnected] can there be one. *)
Definition statusConsistent (w : World) : Prop :=
  match status (state w) with
  | Status.qr => qr (state w) <> None /\ lastError (state w) = None
  | Status.error => lastError (state w) <> None
  | Status.disconnected => True
  | _ => lastError (state w) = None
  end.

(** The action subscribes or unsubscribes a listener. *)
Definition isSubscription (a : Action) : bool :=
  match a with
  | Invoke (CallSubscribe _) | Invoke (CallUnsubscribe _) => true
  | _ => false
  end.

Definition isReset (a : Action) : bool :=
  match a with
  | Do (OpReset _) => true
  | _ => false
  end.

Definition isEvaluate (e : Effect) : bool :=
  match e with PageEvaluate _ => true | _ => false end.

(** The subscribers are those of [w]. *)
Definition sameSubscribers (w w' : World) : Prop := emitter w' = emitter w.

(** The [injectedPatched] flag is set, and [page.evaluate] was called
    [n] times. *)
Definition patchedWith (n : nat) (w : World) : Prop :=
  injectedPatched (state w) = true /\ calls isEvaluate w = n.

(** A session that is connected, with the page patch applied: the
    [page.evaluate] call of the [ready] handler has resolved. *)
Definition patchedWorld : World :=
  runOps [ OpStart (resolved tt);
           OpClientEmit 0 (OnReady true);
           OpEvaluateSettles (Normal tt) ] createSingleton.

(** The states of the singleton in use: those a sequence of calls of
    the exported functions, client events and settlements of pending
    [page.evaluate] calls, in any order, leads to from its creation. *)
Definition inSession (w : World) : Prop :=
  exists acts, w = runActions acts createSingleton.

(** *** Vocabulary of the routes *)

(** A string that does not start with white space. *)
Definition startsClean (s : jsstring) : bool :=
  match s with
  | [] => true
  | c :: _ => negb (JsString.isWhiteSpace c)
  end.

(** No code unit of the string is white space. *)
Definition noWhiteSpace (s : jsstring) : bool :=
  forallb (fun x => negb (JsString.isWhiteSpace x)) s.

(** No code unit of the string is [c]. *)
Definition without (c : N) (s : jsstring) : bool :=
  forallb (fun x => negb (N.eqb x c)) s.

(** The data URL of a base64 payload, as browsers build it. *)
Definition base64DataUrl (mime b64 : jsstring) : jsstring :=
  js "data:" ++ mime ++ js ";base64," ++ b64.

(** The [initialize()] calls of the trace, in order. *)
Definition initializeCalls (w : World) : list Effect :=
  filter isInitialize (trace w).

Definition keepsInits (made : list Effect) (w : World) : Prop :=
  initializeCalls w = made.

(** A request of the start route with [?force=1]. *)
Definition forcedRequest : StartRoute.Request :=
  {| StartRoute.forceParam := Normal (Some (js "1")) |}.

(** The response of the send route for how the send ended. *)
Definition answered (c : Completion unit) : Response :=
  match c with
  | Normal _ => json OkBody 200
  | Throw e =>
      json (ErrorBody (match e with
                       | JsError message => message
                       | NotAnError => js "Erro inesperado."
                       end)) 500
  end.

(** The parameters of a request whose body could be read and passed
    the schema. *)
Definition validated (request : SendRoute.Request) : option SendRoute.Parsed :=
  match settles (SendRoute.body request) with
  | Normal b => SendRoute.requestSchema b
  | Throw _ => None
  end.

(** The world after what occurred while the body of the request was
    read. *)
Definition afterBody (request : SendRoute.Request) (w : World) : World :=
  exec (deliverAll occur (during (SendRoute.body request))) w.

Definition isPdf (u : SendRoute.DataUrl) : bool :=
  JsString.eqb (JsString.toLowerCase (SendRoute.dataUrl_mimeType u))
    (js "application/pdf").

(** The data the send route hands to [sendWhatsAppMedia]. *)
Definition routeMedia (parsed : SendRoute.Parsed) (u : SendRoute.DataUrl)
  : MediaData :=
  {| mimeType := SendRoute.dataUrl_mimeType u;
     base64 := SendRoute.dataUrl_base64 u;
     filename :=
       orUndefined
         (JsString.trim (orEmpty (SendRoute.parsed_filename parsed))) |}.

(** What a request with these parameters is to have sent: the media of
    its data URL, captioned with the message, as a document when it is
    a PDF; or, without media, the message as text.  [None] when the
    data URL cannot be parsed. *)
Definition routePayload (parsed : SendRoute.Parsed)
  : option (Content * SendOptions) :=
  let mediaDataUrl :=
    JsString.trim (orEmpty (SendRoute.parsed_mediaDataUrl parsed)) in
  if JsString.truthy mediaDataUrl then
    match SendRoute.parseDataUrl mediaDataUrl with
    | None => None
    | Some u =>
        Some (Media (SendRoute.dataUrl_mimeType u) (SendRoute.dataUrl_base64 u)
                (orUndefined
                   (JsString.trim
                      (orEmpty (SendRoute.parsed_filename parsed)))),
              {| sendSeen := false;
                 caption :=
                   orUndefined
                     (JsString.trim (SendRoute.parsed_message parsed));
                 sendMediaAsDocument :=
                   if isPdf u then Some true else None |})
    end
  else Some (Text (SendRoute.parsed_message parsed), textOptions).

(** A request from the admin pages with a PDF and a caption. *)
Definition pdfRequest : SendRoute.Request :=
  {| SendRoute.header_adminRequest := Some (js "1");
     SendRoute.header_origin := Some (js "https://loja.example");
     SendRoute.header_referer := None;
     SendRoute.sameOrigin := Normal true;
     SendRoute.refererPathname := Throw (JsError (js "Invalid URL"));
     SendRoute.body :=
       resolved
         (SendRoute.Object
            {| SendRoute.field_number := SendRoute.StringField (js "(11) 99999-8888");
               SendRoute.field_message := SendRoute.StringField (js " Oferta da semana ");
               SendRoute.field_mediaDataUrl :=
                 SendRoute.StringField
                   (js "data:Application/PDF;base64,JVBERi0xLjcK");
               SendRoute.field_filename := SendRoute.StringField (js "oferta.pdf") |}) |}.

(** A request that carries the admin hint and nothing else. *)
Definition bareRequest : SendRoute.Request :=
  {| SendRoute.header_adminRequest := Some (js "1");
     SendRoute.header_origin := None;
     SendRoute.header_referer := None;
     SendRoute.sameOrigin := Normal true;
     SendRoute.refererPathname := Normal (js "/admin");
     SendRoute.body := resolved SendRoute.NotAnObject |}.

(** A request from the admin pages whose body has no number. *)
Definition incompleteRequest : SendRoute.Request :=
  {| SendRoute.header_adminRequest := None;
     SendRoute.header_origin := None;
     SendRoute.header_referer := Some (js "https://loja.example/Admin/ofertas");
     SendRoute.sameOrigin := Throw (JsError (js "Invalid URL"));
     SendRoute.refererPathname := Normal (js "/admin/ofertas");
     SendRoute.body :=
       resolved
         (SendRoute.Object
            {| SendRoute.field_number := SendRoute.Absent;
               SendRoute.field_message := SendRoute.StringField (js "Oferta!");
               SendRoute.field_mediaDataUrl := SendRoute.Absent;
               SendRoute.field_filename := SendRoute.Absent |}) |}.

(** A request from the admin pages with a text message. *)
Definition textRequest (number : jsstring) : SendRoute.Request :=
  {| SendRoute.header_adminRequest := None;
     SendRoute.header_origin := None;
     SendRoute.header_referer := Some (js "https://loja.example/admin");
     SendRoute.sameOrigin := Throw (JsError (js "Invalid URL"));
     SendRoute.refererPathname := Normal (js "/admin");
     SendRoute.body :=
       resolved
         (SendRoute.Object
            {| SendRoute.field_number := SendRoute.StringField number;
               SendRoute.field_message := SendRoute.StringField (js "Oferta!");
               SendRoute.field_mediaDataUrl := SendRoute.Absent;
               SendRoute.field_filename := SendRoute.Absent |}) |}.

(** The message each send function uses when [sendMessage] rejects
    with a value that is not an [Error]. *)
Definition fallbackFor (content : Content) : jsstring :=
  match content with
  | Text _ => js "Falha ao enviar mensagem."
  | Media _ _ _ => js "Falha ao enviar mídia."
  end.

(** How a send ends that the route asked for: the session is [ready]
    and the arguments have been checked.  Either the resolver fails
    and nothing is sent, or [sendMessage] is called once and the send
    ends as that call does. *)
Definition sendEnds (run : SendRun) (w0 : World) (content : Content)
    (options : SendOptions) (s : Completion unit * World) : Prop :=
  (exists e,
      fst s = Throw e
      /\ (e = JsError msgInvalidNumber
          \/ e = JsError msgSelfUnavailable
          \/ e = JsError msgNotOnNetwork)
      /\ sendCalls (snd s) = sendCalls w0)
  \/ (exists chatId,
        JsString.truthy chatId = true
        /\ sendCalls (snd s)
           = sendCalls w0
             ++ [ClientSendMessage (client w0) chatId content options]
        /\ fst s = match settles (run_sendMessage run) with
                   | Normal _ => Normal tt
                   | Throw e => Throw (sendFailure (fallbackFor content) e)
                   end).

(** * Properties *)

(** ** The model on concrete inputs, and the trace readers *)

Example normalizeDigits_ex1 :
  normalizeDigits (js "5511999998888") = js "5511999998888".
Proof. reflexivity. Qed.

Example normalizeDigits_ex3 :
  normalizeDigits (js "5555511999998888") = js "511999998888".
Proof. reflexivity. Qed.

Example js_accents : js "não está" = [110; 227; 111; 32; 101; 115; 116; 225]%N.
Proof. reflexivity. Qed.

Example normalizeDigits_formatted :
  normalizeDigits (js "(11) 99999-8888") = js "5511999998888".
Proof. reflexivity. Qed.

Example noLidForUser_any_case :
  noLidForUser (js "Evaluation failed: Error: No LID for user") = true
  /\ noLidForUser msgNotOnNetwork = false.
Proof. split; reflexivity. Qed.

Example resolve_self_unavailable :
  eval (resolveWhatsAppChatId
          {| run_initialize := resolved tt;
             run_selfWid := JsString.empty;
             run_getNumberId := resolved None;
             run_pagePresent := false;
             run_evaluate := resolved tt;
             run_sendMessage := resolved tt |}
          0 (js " Me "))
    readyWorld
  = Throw (JsError msgSelfUnavailable).
Proof. reflexivity. Qed.

Example resolve_qualified_unchanged :
  eval (resolveWhatsAppChatId plainRun 0 (js "120363041234567890@g.us"))
    readyWorld
  = Normal (js "120363041234567890@g.us").
Proof. reflexivity. Qed.

Example sendText_delivers :
  eval (sendWhatsAppMessage plainRun (js "(11) 99999-8888") (js "Oferta!"))
    readyWorld
  = Normal tt
  /\ calls isSendMessage
       (exec (sendWhatsAppMessage plainRun (js "(11) 99999-8888") (js "Oferta!"))
          readyWorld)
     = 1.
Proof. split; reflexivity. Qed.

Example sendText_empty_message :
  eval (sendWhatsAppMessage plainRun (js "11999998888") (js "   ")) readyWorld
  = Throw (JsError msgEmptyMessage).
Proof. reflexivity. Qed.

Example sendMedia_invalid_media :
  eval (sendWhatsAppMedia plainRun (js "11999998888")
          {| mimeType := js "application/pdf"; base64 := js " ";
             filename := None |}
          None (Some true))
    readyWorld
  = Throw (JsError msgInvalidMedia).
Proof. reflexivity. Qed.

Lemma emitted_app tr1 tr2 : emitted (tr1 ++ tr2) = emitted tr1 ++ emitted tr2.
Proof.
  induction tr1 as [|e tr1 IH]; simpl.
  - reflexivity.
  - destruct e; simpl; rewrite ?IH; reflexivity.
Qed.

Lemma deliveredTo_app l tr1 tr2 :
  deliveredTo l (tr1 ++ tr2) = deliveredTo l tr1 ++ deliveredTo l tr2.
Proof.
  induction tr1 as [|e tr1 IH]; simpl.
  - reflexivity.
  - destruct e; simpl; rewrite ?IH; try reflexivity.
    destruct (Nat.eqb l0 l); simpl; rewrite ?IH; reflexivity.
Qed.

Lemma emitted_broadcast ls ev : emitted (broadcast ls ev) = [ev].
Proof.
  unfold broadcast. simpl. f_equal.
  induction ls as [|l ls IH]; simpl; [reflexivity | exact IH].
Qed.

(** A listener is called once for each of its registrations. *)
Lemma deliveredTo_broadcast l ls ev :
  deliveredTo l (broadcast ls ev) = repeat ev (count_occ Nat.eq_dec ls l).
Proof.
  unfold broadcast. simpl.
  induction ls as [|x ls IH]; simpl.
  - reflexivity.
  - destruct (Nat.eq_dec x l) as [E|E].
    + subst x. rewrite Nat.eqb_refl. simpl. rewrite IH. reflexivity.
    + apply Nat.eqb_neq in E. rewrite E. exact IH.
Qed.

(** ** Running the monad *)

Lemma bind_run {A B} (m : Js A) (k : A -> Js B) w :
  bind m k w =
  match m w with
  | (Normal a, w') => k a w'
  | (Throw e, w') => (Throw e, w')
  end.
Proof. reflexivity. Qed.

Lemma bind_gets {A B} (f : World -> A) (k : A -> Js B) w :
  bind (gets f) k w = k (f w) w.
Proof. reflexivity. Qed.

Lemma bind_modify {B} f (k : unit -> Js B) w :
  bind (modify f) k w = k tt (f w).
Proof. reflexivity. Qed.

Section Preservation.
Variable P : World -> Prop.

Lemma preserves_ret {A} (a : A) : preserves P (ret a).
Proof. intros w H. exact H. Qed.

Lemma preserves_throw {A} e : preserves P (@throw A e).
Proof. intros w H. exact H. Qed.

Lemma preserves_gets {A} (f : World -> A) : preserves P (gets f).
Proof. intros w H. exact H. Qed.

Lemma preserves_bind {A B} (m : Js A) (k : A -> Js B) :
  preserves P m -> (forall a, preserves P (k a)) -> preserves P (bind m k).
Proof.
  intros Hm Hk w H. unfold exec. rewrite bind_run.
  specialize (Hm w H). unfold exec in Hm.
  destruct (m w) as [[a|e] w']; simpl in *.
  - apply Hk. exact Hm.
  - exact Hm.
Qed.

Lemma preserves_tryCatch {A} (m : Js A) h :
  preserves P m -> (forall e, preserves P (h e)) -> preserves P (tryCatch m h).
Proof.
  intros Hm Hh w H. unfold exec, tryCatch.
  specialize (Hm w H). unfold exec in Hm.
  destruct (m w) as [[a|e] w']; simpl in *.
  - exact Hm.
  - apply Hh. exact Hm.
Qed.

Lemma preserves_modify f :
  (forall w, P w -> P (f w)) -> preserves P (modify f).
Proof. intros Hf w H. apply Hf. exact H. Qed.

Lemma preserves_settle {A} (c : Completion A) :
  preserves P (fun w => (c, w)).
Proof. intros w H. exact H. Qed.

Lemma preserves_times n m : preserves P m -> preserves P (times n m).
Proof.
  intro Hm. induction n as [|n IH]; simpl.
  - apply preserves_ret.
  - apply preserves_bind; [exact Hm | intros _; exact IH].
Qed.

Lemma preserves_deliverAll emitOne evs :
  (forall o, preserves P (emitOne o)) ->
  preserves P (deliverAll emitOne evs).
Proof.
  intro H. induction evs as [|o evs IH]; simpl.
  - apply preserves_ret.
  - apply preserves_bind; [apply H | intros _; exact IH].
Qed.
End Preservation.

(** Most properties of the world are indifferent to the fields of
    [state] and to all but a few of the effects.  The frame lemmas
    below are proved once, for any such property. *)
Ltac frame_step :=
  first
    [ apply preserves_ret
    | apply preserves_throw
    | apply preserves_gets
    | apply preserves_settle
    | apply preserves_bind; [|intro]
    | apply preserves_tryCatch; [|intro]
    | match goal with
      | |- preserves _ (if ?b then _ else _) => destruct b
      | |- preserves _ (match ?x with _ => _ end) => destruct x
      | |- preserves _ (let _ := _ in _) => cbv zeta
      end ].

Section Frames.
Variable P : World -> Prop.
Variable allowed : Effect -> bool.
Hypothesis framed : Framed P allowed.

Let P_state := framed_state framed.
Let P_emit := framed_emit framed.
Let P_call := framed_call framed.
Let P_listeners := framed_listeners framed.
Let P_pending := framed_pending framed.

Lemma preserves_withState f : preserves P (modify (withState f)).
Proof. apply preserves_modify. apply P_state. Qed.

Ltac frame_prim :=
  idtac;
  match goal with
  | |- preserves _ (emit _) => apply P_emit
  | |- preserves _ (set_clientListeners _) => apply P_listeners
  | |- preserves _ (set_pendingPatches _) => apply P_pending
  | |- preserves _ (record [_]) => apply P_call; solve [auto]
  | |- preserves _ (modify (withState _)) => apply preserves_withState
  end.

Ltac frame_with known := repeat first [ known | frame_prim | frame_step ].
Ltac frame := frame_with fail.

Lemma emitState_preserves : preserves P emitState.
Proof. unfold emitState, getWhatsAppStatus. frame. Qed.

Lemma await_preserves {A} emitOne call (a : Await A) :
  allowed call = true ->
  (forall o, preserves P (emitOne o)) ->
  preserves P (await emitOne call a).
Proof.
  intros Hcall Hemit. unfold await.
  frame_with ltac:(apply preserves_deliverAll; exact Hemit).
Qed.

Hypothesis allowed_evaluate : forall c, allowed (PageEvaluate c) = true.

Lemma patch_preserves emitOne pagePresent evaluate :
  (forall o, preserves P (emitOne o)) ->
  preserves P (patchInjectedWWebJSIfNeeded emitOne pagePresent evaluate).
Proof.
  intro Hemit. unfold patchInjectedWWebJSIfNeeded, set_injectedPatched.
  frame_with ltac:(apply await_preserves; solve [auto]).
Qed.

Lemma startPatch_preserves pagePresent : preserves P (startPatch pagePresent).
Proof. unfold startPatch. frame. Qed.

Lemma patchSettled_preserves outcome : preserves P (patchSettled outcome).
Proof. unfold patchSettled, set_injectedPatched. frame. Qed.

Ltac frame_handlers :=
  idtac;
  match goal with
  | |- preserves _ emitState => apply emitState_preserves
  | |- preserves _ (startPatch _) => apply startPatch_preserves
  end.

Lemma handle_preserves ev : preserves P (handle ev).
Proof.
  destruct ev; unfold handle, set_status, set_qr, set_lastError;
    frame_with frame_handlers.
Qed.

Lemma clientEmit_preserves c ev : preserves P (clientEmit c ev).
Proof.
  unfold clientEmit.
  frame_with ltac:(apply preserves_times; apply handle_preserves).
Qed.

Lemma occur_preserves o : preserves P (occur o).
Proof.
  destruct o; simpl;
    [apply clientEmit_preserves | apply patchSettled_preserves].
Qed.

Lemma deliverAll_preserves evs : preserves P (deliverAll occur evs).
Proof. apply preserves_deliverAll. apply occur_preserves. Qed.

Ltac frame_calls :=
  idtac;
  match goal with
  | |- preserves _ emitState => apply emitState_preserves
  | |- preserves _ (await _ _ _) =>
      apply await_preserves; [solve [auto] | apply occur_preserves]
  | |- preserves _ (patchInjectedWWebJSIfNeeded _ _ _) =>
      apply patch_preserves; apply occur_preserves
  end.

Lemma resolve_preserves run c n :
  (forall d, allowed (ClientGetNumberId c d) = true) ->
  preserves P (resolveWhatsAppChatId run c n).
Proof.
  intro Hok. unfold resolveWhatsAppChatId, throwError.
  frame_with frame_calls.
Qed.

Hypothesis allowed_on : forall c, allowed (ClientOn c) = true.

Lemma attach_preserves : preserves P attachListenersIfNeeded.
Proof.
  unfold attachListenersIfNeeded, client_on, set_listenersAttached. frame.
Qed.

Hypothesis allowed_initialize : forall c, allowed (ClientInitialize c) = true.

Lemma start_preserves initialize : preserves P (startWhatsApp initialize).
Proof.
  unfold startWhatsApp, getWhatsAppStatus, set_status, set_lastError,
    set_initialized.
  frame_with ltac:(first [ frame_calls | apply attach_preserves ]).
Qed.

Ltac frame_exported :=
  first
    [ frame_calls
    | match goal with
      | |- preserves _ attachListenersIfNeeded => apply attach_preserves
      | |- preserves _ (startWhatsApp _) => apply start_preserves
      | |- preserves _ (resolveWhatsAppChatId _ _ _) =>
          apply resolve_preserves; solve [auto]
      end ].

Section Sends.
Hypothesis allowed_lookup : forall c d, allowed (ClientGetNumberId c d) = true.
Hypothesis allowed_send :
  forall c chat content o, allowed (ClientSendMessage c chat content o) = true.

Lemma sendText_preserves run n m : preserves P (sendWhatsAppMessage run n m).
Proof.
  unfold sendWhatsAppMessage, throwError. frame_with frame_exported.
Qed.

Lemma sendMedia_preserves run n d c o :
  preserves P (sendWhatsAppMedia run n d c o).
Proof.
  unfold sendWhatsAppMedia, throwError. frame_with frame_exported.
Qed.
End Sends.

Hypothesis allowed_remove : forall c, allowed (ClientRemoveAllListeners c) = true.
Hypothesis allowed_destroy : forall c, allowed (ClientDestroy c) = true.

Lemma teardown_preserves old run :
  preserves P
    (tryCatch
       (tryCatch (client_removeAllListeners old (removeAll run))
          (fun _ => ret tt) ;;
        await occur (ClientDestroy old) (destroy run))
       (fun _ => ret tt)).
Proof.
  unfold client_removeAllListeners. frame_with frame_exported.
Qed.

Hypothesis P_client : forall c, preserves P (set_client c).

Lemma reset_preserves run : preserves P (resetWhatsApp run).
Proof.
  unfold resetWhatsApp, client_removeAllListeners, createClient,
    getWhatsAppStatus, set_status, set_qr, set_lastError, set_initialized,
    set_listenersAttached, set_injectedPatched.
  frame_with ltac:(first [ frame_exported | apply P_client ]).
Qed.

Lemma runOp_preserves o w : P w -> P (runOp o w).
Proof.
  intro H. destruct o; simpl.
  - apply start_preserves; auto.
  - apply reset_preserves; auto.
  - apply clientEmit_preserves; auto.
  - apply patchSettled_preserves; auto.
Qed.

Lemma runOps_preserves ops w : P w -> P (runOps ops w).
Proof.
  unfold runOps. revert w.
  induction ops as [|o ops IH]; intros w H; simpl.
  - exact H.
  - apply IH. apply runOp_preserves. exact H.
Qed.
End Frames.

(** ** Computations that never throw *)

Lemma total_ret {A} (a : A) : total (ret a).
Proof. intro w. exists a. reflexivity. Qed.

Lemma total_gets {A} (f : World -> A) : total (gets f).
Proof. intro w. exists (f w). reflexivity. Qed.

Lemma total_modify f : total (modify f).
Proof. intro w. exists tt. reflexivity. Qed.

Lemma total_bind {A B} (m : Js A) (k : A -> Js B) :
  total m -> (forall a, total (k a)) -> total (bind m k).
Proof.
  intros Hm Hk w. unfold eval. rewrite bind_run.
  destruct (Hm w) as [a Ha]. unfold eval in Ha.
  destruct (m w) as [r w']. simpl in Ha. subst r. apply Hk.
Qed.

Lemma total_tryCatch {A} (m : Js A) h :
  (forall e, total (h e)) -> total (tryCatch m h).
Proof.
  intros Hh w. unfold eval, tryCatch.
  destruct (m w) as [[a|e] w'].
  - exists a. reflexivity.
  - apply Hh.
Qed.

Lemma total_times n m : total m -> total (times n m).
Proof.
  intro Hm. induction n as [|n IH]; simpl.
  - apply total_ret.
  - apply total_bind; [exact Hm | intros _; exact IH].
Qed.

Lemma total_deliverAll emitOne evs :
  (forall o, total (emitOne o)) -> total (deliverAll emitOne evs).
Proof.
  intro H. induction evs as [|o evs IH]; simpl.
  - apply total_ret.
  - apply total_bind; [apply H | intros _; exact IH].
Qed.

Ltac total_step :=
  first
    [ apply total_ret
    | apply total_gets
    | apply total_modify
    | apply total_tryCatch; intro
    | apply total_bind; [|intro]
    | match goal with
      | |- total (if ?b then _ else _) => destruct b
      | |- total (match ?x with _ => _ end) => destruct x
      end ].

Ltac total_with known := repeat first [ known | total_step ].

Lemma emit_total ev : total (emit ev).
Proof. unfold emit, record. total_with fail. Qed.

Lemma emitState_total : total emitState.
Proof. unfold emitState, getWhatsAppStatus, emit, record. total_with fail. Qed.

Lemma patch_total emitOne pagePresent evaluate :
  total (patchInjectedWWebJSIfNeeded emitOne pagePresent evaluate).
Proof. unfold patchInjectedWWebJSIfNeeded. total_with fail. Qed.

Lemma startPatch_total pagePresent : total (startPatch pagePresent).
Proof. unfold startPatch, record, set_pendingPatches. total_with fail. Qed.

Lemma patchSettled_total outcome : total (patchSettled outcome).
Proof.
  unfold patchSettled, set_pendingPatches, set_injectedPatched.
  total_with fail.
Qed.

Lemma handle_total ev : total (handle ev).
Proof.
  destruct ev; unfold handle, set_status, set_qr, set_lastError;
    total_with ltac:(first [ apply emit_total | apply emitState_total
                           | apply startPatch_total ]).
Qed.

Lemma clientEmit_total c ev : total (clientEmit c ev).
Proof.
  unfold clientEmit.
  total_with ltac:(apply total_times; apply handle_total).
Qed.

Lemma occur_total o : total (occur o).
Proof.
  destruct o; simpl; [apply clientEmit_total | apply patchSettled_total].
Qed.

Lemma attach_total : total attachListenersIfNeeded.
Proof.
  unfold attachListenersIfNeeded, client_on, set_listenersAttached,
    set_clientListeners, record.
  total_with fail.
Qed.

Lemma start_total initialize : total (startWhatsApp initialize).
Proof.
  unfold startWhatsApp, getWhatsAppStatus, set_status, set_lastError,
    set_initialized.
  total_with ltac:(first [ apply emit_total | apply emitState_total
                         | apply attach_total ]).
Qed.

Lemma reset_total run : total (resetWhatsApp run).
Proof.
  unfold resetWhatsApp, createClient, getWhatsAppStatus, set_client,
    set_status, set_qr, set_lastError, set_initialized, set_listenersAttached,
    set_injectedPatched.
  total_with ltac:(first [ apply emitState_total | apply attach_total ]).
Qed.

Lemma yields_bind {A B} (m : Js A) (k : A -> Js B) R :
  (forall a, yields (k a) R) -> yields (bind m k) R.
Proof.
  intros Hk w. rewrite bind_run.
  destruct (m w) as [[a|e] w']; [apply Hk | exact I].
Qed.

Lemma getWhatsAppStatus_yields :
  yields getWhatsAppStatus (fun a w => a = statusData w).
Proof. intro w. reflexivity. Qed.

Lemma start_yields initialize :
  yields (startWhatsApp initialize) (fun a w => a = statusData w).
Proof.
  unfold startWhatsApp.
  repeat first
    [ apply getWhatsAppStatus_yields
    | apply yields_bind; intro
    | match goal with |- yields (if ?b then _ else _) _ => destruct b end ].
Qed.

Lemma reset_yields run :
  yields (resetWhatsApp run) (fun a w => a = statusData w).
Proof.
  unfold resetWhatsApp.
  repeat first
    [ apply getWhatsAppStatus_yields | apply yields_bind; intro ].
Qed.

(** [start()] and [reset()] return, and what they return is the status
    they leave behind. *)
Lemma start_returns initialize w :
  startWhatsApp initialize w =
  (Normal (statusData (exec (startWhatsApp initialize) w)),
   exec (startWhatsApp initialize) w).
Proof.
  pose proof (start_yields initialize w) as Hy.
  destruct (start_total initialize w) as [a Ha].
  unfold exec, eval in *.
  destruct (startWhatsApp initialize w) as [r w']. simpl in *.
  subst r. subst a. reflexivity.
Qed.

Lemma reset_returns run w :
  resetWhatsApp run w =
  (Normal (statusData (exec (resetWhatsApp run) w)),
   exec (resetWhatsApp run) w).
Proof.
  pose proof (reset_yields run w) as Hy.
  destruct (reset_total run w) as [a Ha].
  unfold exec, eval in *.
  destruct (resetWhatsApp run w) as [r w']. simpl in *.
  subst r. subst a. reflexivity.
Qed.

(** ** Digit normalisation *)

(** Where the loop of [normalizeDigits] stops: at a string that does not
    both start with the prefix and exceed 13 code units. *)
Lemma stripDuplicatedPrefix_stops digits :
  JsString.startsWith domesticPrefix (stripDuplicatedPrefix digits)
  && (13 <? List.length (stripDuplicatedPrefix digits)) = false.
Proof.
  funelim (stripDuplicatedPrefix digits).
  - match goal with IH : _ && _ = false |- _ => exact IH end.
  - assumption.
Qed.

(** The loop only drops characters from the front, two at a time. *)
Lemma stripDuplicatedPrefix_suffix digits :
  exists n, stripDuplicatedPrefix digits = JsString.slice (2 * n) digits.
Proof.
  funelim (stripDuplicatedPrefix digits).
  - match goal with IH : exists n, _ |- _ => destruct IH as [n Hn] end.
    exists (S n).
    change (stripDuplicatedPrefix (JsString.slice 2 digits)
            = JsString.slice (2 * n) (JsString.slice 2 digits)) in Hn.
    rewrite Hn. unfold JsString.slice. rewrite skipn_skipn. f_equal. lia.
  - exists 0. reflexivity.
Qed.

(** C2, as stated, fails on its third input: the result has twelve
    digits, not the standard prefixed length. *)
Lemma C2_duplicated_prefix_not_standard_length :
  ~ (List.length (normalizeDigits (js "5555511999998888")) = standardPrefixedLength).
Proof. vm_compute. discriminate. Qed.

(** C2 (amended): [normalizeDigits] leaves "5511999998888" as it is,
    turns "11999998888" into "5511999998888", and strips the prefix
    from "5555511999998888" twice, which leaves "511999998888": twelve
    digits that no longer start with the prefix.  The stripping always
    stops at a string that does not both start with the prefix and
    exceed 13 characters. *)
Theorem C2_normalizeDigits_examples :
  normalizeDigits (js "5511999998888") = js "5511999998888"
  /\ normalizeDigits (js "11999998888") = js "5511999998888"
  /\ normalizeDigits (js "5555511999998888") = js "511999998888"
  /\ List.length (normalizeDigits (js "5555511999998888")) = 12
  /\ JsString.startsWith domesticPrefix
       (normalizeDigits (js "5555511999998888")) = false
  /\ (forall digits,
        JsString.startsWith domesticPrefix (stripDuplicatedPrefix digits)
        && (13 <? List.length (stripDuplicatedPrefix digits)) = false).
Proof.
  repeat split; try reflexivity.
  apply stripDuplicatedPrefix_stops.
Qed.

(** ** Invariant of the connection state *)

Lemma handle_qrCleared ev : preserves qrClearedWhenSettled (handle ev).
Proof.
  intros [c [st q le ini la ip] em cl pd tr] H.
  unfold qrClearedWhenSettled in *.
  destruct ev as [q'|page|m|r|f b i]; simpl in *.
  - intros [E|E]; discriminate.
  - destruct ip, page; simpl; intros _; reflexivity.
  - intros [E|E]; discriminate.
  - intros [E|E]; discriminate.
  - exact H.
Qed.

Lemma clientEmit_qrCleared c ev : preserves qrClearedWhenSettled (clientEmit c ev).
Proof.
  unfold clientEmit. apply preserves_bind; [apply preserves_gets | intro n].
  apply preserves_times. apply handle_qrCleared.
Qed.

Lemma patchSettled_qrCleared outcome :
  preserves qrClearedWhenSettled (patchSettled outcome).
Proof.
  intros [c [st q le ini la ip] em cl pd tr] H.
  destruct pd, outcome; exact H.
Qed.

Lemma occur_qrCleared o : preserves qrClearedWhenSettled (occur o).
Proof.
  destruct o; simpl;
    [apply clientEmit_qrCleared | apply patchSettled_qrCleared].
Qed.

Lemma await_qrCleared {A} call (a : Await A) :
  preserves qrClearedWhenSettled (await occur call a).
Proof.
  unfold await. repeat frame_step.
  - intros w H. exact H.
  - apply preserves_deliverAll. apply occur_qrCleared.
Qed.

(** Writes that keep the invariant wherever they happen. *)
Lemma set_unsettled_qrCleared v :
  v <> Status.idle -> v <> Status.ready ->
  preserves qrClearedWhenSettled (set_status v).
Proof.
  intros Hi Hr [c [st q le ini la ip] em cl pd tr] _.
  unfold qrClearedWhenSettled. simpl. intros [E|E]; congruence.
Qed.

Lemma withState_qrCleared f :
  (forall s, status (f s) = status s /\ qr (f s) = qr s) ->
  preserves qrClearedWhenSettled (modify (withState f)).
Proof.
  intros Hf w H. unfold qrClearedWhenSettled in *. simpl.
  destruct (Hf (state w)) as [Es Eq]. rewrite Es, Eq. exact H.
Qed.

Lemma record_qrCleared es : preserves qrClearedWhenSettled (record es).
Proof. intros w H. exact H. Qed.

Lemma set_clientListeners_qrCleared cs :
  preserves qrClearedWhenSettled (set_clientListeners cs).
Proof. intros w H. exact H. Qed.

Ltac qrCleared_step :=
  idtac;
  match goal with
  | |- preserves _ (set_status _) =>
      apply set_unsettled_qrCleared; discriminate
  | |- preserves _ (modify (withState _)) =>
      apply withState_qrCleared; intro; split; reflexivity
  | |- preserves _ (record _) => apply record_qrCleared
  | |- preserves _ (set_clientListeners _) => apply set_clientListeners_qrCleared
  | |- preserves _ (await _ _ _) => apply await_qrCleared
  end.

Lemma attach_qrCleared : preserves qrClearedWhenSettled attachListenersIfNeeded.
Proof.
  unfold attachListenersIfNeeded, client_on, set_listenersAttached.
  repeat first [ qrCleared_step | frame_step ].
Qed.

Lemma start_qrCleared initialize :
  preserves qrClearedWhenSettled (startWhatsApp initialize).
Proof.
  unfold startWhatsApp, getWhatsAppStatus, emitState, emit, set_lastError,
    set_initialized.
  repeat first [ apply attach_qrCleared | qrCleared_step | frame_step ].
Qed.

Lemma reset_state run w :
  state (exec (resetWhatsApp run) w) = stateAfterReset.
Proof.
  unfold resetWhatsApp, exec. rewrite bind_gets, bind_run.
  match goal with
  | |- context [tryCatch ?m ?h w] =>
      destruct (@total_tryCatch _ m h (fun _ => total_ret tt) w) as [[] Hp];
      unfold eval in Hp;
      destruct (tryCatch m h w) as [r [c1 [st q le ini la ip] em cl pd tr]]
  end.
  simpl in Hp. subst r. reflexivity.
Qed.

Lemma reset_qrCleared run : preserves qrClearedWhenSettled (resetWhatsApp run).
Proof.
  intros w _. unfold qrClearedWhenSettled. rewrite reset_state.
  intros _. reflexivity.
Qed.

Lemma runOp_qrCleared o w :
  qrClearedWhenSettled w -> qrClearedWhenSettled (runOp o w).
Proof.
  intro H. destruct o; simpl.
  - apply start_qrCleared. exact H.
  - apply reset_qrCleared. exact H.
  - apply clientEmit_qrCleared. exact H.
  - apply patchSettled_qrCleared. exact H.
Qed.

Lemma runOps_app ops1 ops2 w :
  runOps (ops1 ++ ops2) w = runOps ops2 (runOps ops1 w).
Proof. unfold runOps. apply fold_left_app. Qed.

Lemma reachable_ind_ops (P : World -> Prop) :
  P createSingleton ->
  (forall o w, P w -> P (runOp o w)) ->
  forall w, reachable w -> P w.
Proof.
  intros H0 Hstep w [ops ->].
  induction ops as [|o ops IH] using rev_ind.
  - exact H0.
  - rewrite runOps_app. simpl. apply Hstep. exact IH.
Qed.

(** The token also outlives an authentication failure, and a [start()]
    after the connection was lost. *)
Example stale_qr_with_error :
  let w := runOps [ OpStart (resolved tt);
                    OpClientEmit 0 (OnQr (js "2@pairing-token"));
                    OpClientEmit 0 (OnAuthFailure JsString.empty) ]
             createSingleton in
  statusData w = {| data_status := Status.error;
                    data_qr := Some (js "2@pairing-token");
                    data_lastError := Some (js "auth_failure") |}.
Proof. reflexivity. Qed.

Example stale_qr_with_initializing :
  let w := runOps (staleQrOps ++ [OpStart (resolved tt)]) createSingleton in
  statusData w = {| data_status := Status.initializing;
                    data_qr := Some (js "2@pairing-token");
                    data_lastError := None |}
  /\ calls isInitialize w = 1.
Proof. split; reflexivity. Qed.

(** C1, as stated, fails: after a [qr] event and a [disconnected]
    event the token is still there and the status is [disconnected]. *)
Lemma C1_stale_qr_after_disconnect :
  ~ (forall w, reachable w ->
       qr (state w) <> None -> status (state w) = Status.qr).
Proof.
  intro H. specialize (H (runOps staleQrOps createSingleton)).
  assert (E : status (state (runOps staleQrOps createSingleton)) = Status.qr).
  { apply H.
    - exists staleQrOps. reflexivity.
    - vm_compute. discriminate. }
  vm_compute in E. discriminate.
Qed.

(** C1 (amended): in every state reached by a sequence of [start()],
    [reset()] and client events, a non-null [qr] excludes the statuses
    [idle] and [ready]; the token is null in both. *)
Theorem C1_qr_null_when_idle_or_ready w :
  reachable w ->
  qr (state w) <> None ->
  status (state w) <> Status.idle /\ status (state w) <> Status.ready.
Proof.
  intros Hr Hq.
  assert (Hinv : qrClearedWhenSettled w).
  { revert w Hr Hq. intros w Hr _. revert w Hr.
    apply reachable_ind_ops.
    - intros _. reflexivity.
    - apply runOp_qrCleared. }
  unfold qrClearedWhenSettled in Hinv.
  split; intro E; apply Hq; apply Hinv; [left | right]; exact E.
Qed.

Lemma C1_qr_null_when_idle_or_ready_witness :
  status (state (runOps staleQrOps createSingleton)) <> Status.idle
  /\ status (state (runOps staleQrOps createSingleton)) <> Status.ready.
Proof.
  apply C1_qr_null_when_idle_or_ready.
  - exists staleQrOps. reflexivity.
  - vm_compute. discriminate.
Defined.

(** ** Counting calls in the trace *)

Lemma calls_record kind es w :
  calls kind (exec (record es) w) = calls kind w + List.length (filter kind es).
Proof. unfold calls. simpl. rewrite filter_app, length_app. reflexivity. Qed.

Section CallCounts.
Variable kind : Effect -> bool.
Hypothesis kind_emit : forall ev, kind (Emit ev) = false.
Hypothesis kind_deliver : forall l ev, kind (Deliver l ev) = false.

Lemma filter_broadcast ls ev : filter kind (broadcast ls ev) = [].
Proof.
  unfold broadcast. simpl. rewrite kind_emit.
  induction ls as [|l ls IH]; simpl.
  - reflexivity.
  - rewrite kind_deliver. exact IH.
Qed.

Lemma keepsCalls_framed n : Framed (keepsCalls kind n) (others kind).
Proof.
  split.
  - intros f w H. exact H.
  - intros ev w H. unfold keepsCalls, emit in *. unfold exec.
    rewrite bind_gets. fold (broadcast (emitter w) ev).
    change (snd (record (broadcast (emitter w) ev) w))
      with (exec (record (broadcast (emitter w) ev)) w).
    rewrite calls_record, filter_broadcast. simpl. lia.
  - intros e He w H. unfold keepsCalls in *. rewrite calls_record. simpl.
    unfold others in He. destruct (kind e); [discriminate | simpl; lia].
  - intros cs w H. exact H.
  - intros k0 w0 H0. exact H0.
Qed.

Lemma keepsCalls_client n c : preserves (keepsCalls kind n) (set_client c).
Proof. intros w H. exact H. Qed.

Lemma others_of e : kind e = false -> others kind e = true.
Proof. unfold others. intros ->. reflexivity. Qed.

Lemma patchSettled_calls outcome w :
  calls kind (exec (patchSettled outcome) w) = calls kind w.
Proof.
  apply (patchSettled_preserves (keepsCalls_framed (calls kind w))).
  reflexivity.
Qed.

Hypothesis kind_evaluate : forall c, kind (PageEvaluate c) = false.

Lemma clientEmit_calls c ev w :
  calls kind (exec (clientEmit c ev) w) = calls kind w.
Proof.
  apply (clientEmit_preserves (keepsCalls_framed (calls kind w))).
  - intro c'. apply others_of. apply kind_evaluate.
  - reflexivity.
Qed.

Lemma deliverAll_calls evs w :
  calls kind (exec (deliverAll occur evs) w) = calls kind w.
Proof.
  apply (deliverAll_preserves (keepsCalls_framed (calls kind w))).
  - intro c'. apply others_of. apply kind_evaluate.
  - reflexivity.
Qed.
End CallCounts.

(** ** What the handlers leave alone *)

Lemma extends_refl w : extends w w.
Proof. repeat split. exists []. rewrite app_nil_r. reflexivity. Qed.

Lemma extends_framed w : Framed (extends w) (fun _ => true).
Proof.
  split.
  - intros f w' H. exact H.
  - intros ev w' (Hc & He & es & Ht). repeat split; auto.
    unfold emit, exec. rewrite bind_gets. simpl. rewrite Ht.
    eexists. rewrite <- app_assoc. reflexivity.
  - intros e _ w' (Hc & He & es & Ht). repeat split; auto.
    simpl. rewrite Ht. eexists. rewrite <- app_assoc. reflexivity.
  - intros cs w' H. exact H.
  - intros k0 w0 H0. exact H0.
Qed.

Lemma deliverAll_extends evs w :
  extends w (exec (deliverAll occur evs) w).
Proof.
  apply (deliverAll_preserves (extends_framed w)).
  - reflexivity.
  - apply extends_refl.
Qed.

Lemma deliverAll_run evs w :
  deliverAll occur evs w = (Normal tt, exec (deliverAll occur evs) w).
Proof.
  destruct (total_deliverAll occur evs occur_total w) as [[] H].
  unfold eval, exec in *.
  destruct (deliverAll occur evs w) as [r w']. simpl in *.
  subst r. reflexivity.
Qed.

(** ** [start()] *)

Lemma isInitialize_emit ev : isInitialize (Emit ev) = false.
Proof. reflexivity. Qed.

Lemma isInitialize_deliver l ev : isInitialize (Deliver l ev) = false.
Proof. reflexivity. Qed.

Lemma isInitialize_evaluate c : isInitialize (PageEvaluate c) = false.
Proof. reflexivity. Qed.

Lemma start_when_started initialize w :
  started w ->
  startWhatsApp initialize w
  = (Normal (statusData w), exec attachListenersIfNeeded w).
Proof.
  destruct w as [c [st q le ini la ip] em cl pd tr].
  unfold started. simpl. intros [E|[E|E]]; subst st;
    destruct la; reflexivity.
Qed.

Lemma attach_statusData w :
  statusData (exec attachListenersIfNeeded w) = statusData w.
Proof.
  destruct w as [c [st q le ini la ip] em cl pd tr]. destruct la; reflexivity.
Qed.

Lemma attach_calls_initialize w :
  calls isInitialize (exec attachListenersIfNeeded w) = calls isInitialize w.
Proof.
  destruct w as [c [st q le ini la ip] em cl pd tr]. destruct la.
  - reflexivity.
  - unfold calls. simpl. rewrite filter_app, length_app. simpl. lia.
Qed.

Lemma attach_started w : started w -> started (exec attachListenersIfNeeded w).
Proof.
  destruct w as [c [st q le ini la ip] em cl pd tr]. destruct la; auto.
Qed.

Lemma startAll_when_started inits w :
  started w ->
  statusData (startAll inits w) = statusData w
  /\ calls isInitialize (startAll inits w) = calls isInitialize w.
Proof.
  revert w. induction inits as [|i inits IH]; intros w H.
  - split; reflexivity.
  - change (startAll (i :: inits) w)
      with (startAll inits (exec (startWhatsApp i) w)).
    assert (E : exec (startWhatsApp i) w = exec attachListenersIfNeeded w).
    { unfold exec at 1. rewrite (start_when_started i H). reflexivity. }
    rewrite E.
    destruct (IH _ (attach_started H)) as [Es Ec].
    rewrite Es, Ec, attach_statusData, attach_calls_initialize.
    split; reflexivity.
Qed.

(** Symbolic execution of a computation on a world given by its
    fields; it stops where events are delivered during an await. *)
Ltac js_run := unfold exec, eval; unfold await, bind, tryCatch; cbn.

Lemma filter_deliveries kind ls ev :
  (forall l, kind (Deliver l ev) = false) ->
  filter kind (map (fun l => Deliver l ev) ls) = [].
Proof.
  intro H. induction ls as [|l ls IH]; simpl.
  - reflexivity.
  - rewrite H. exact IH.
Qed.

Ltac count_calls :=
  unfold calls in *; cbn in *;
  repeat (rewrite ?filter_app, ?length_app in *; cbn in * );
  rewrite ?filter_deliveries in * by (intro; reflexivity); cbn in *; try lia.

(** One [start()] makes at most one call of [initialize()]. *)
Lemma start_calls_initialize initialize w :
  calls isInitialize (exec (startWhatsApp initialize) w)
  <= S (calls isInitialize w).
Proof.
  destruct w as [c [st q le ini la ip] em cl pd tr].
  unfold startWhatsApp.
  destruct st, la, ini; js_run; try solve [count_calls].
  all: match goal with
       | |- context [deliverAll occur ?evs ?W] =>
           pose proof (deliverAll_calls isInitialize isInitialize_emit
                         isInitialize_deliver isInitialize_evaluate evs W) as Hk;
           rewrite (deliverAll_run evs W);
           destruct (exec (deliverAll occur evs) W)
             as [c1 [st1 q1 le1 ini1 la1 ip1] em1 cl1 pd1 tr1]
       end.
  all: destruct (settles initialize); cbn; count_calls.
Qed.

Lemma runOps_while_started ops w :
  startsWhileStarted ops w ->
  calls isInitialize (runOps ops w) = calls isInitialize w.
Proof.
  revert w. induction ops as [|o ops IH]; intros w H.
  - reflexivity.
  - change (runOps (o :: ops) w) with (runOps ops (runOp o w)).
    destruct o as [i | run | c ev | out]; cbn [startsWhileStarted] in H.
    + destruct H as [Hs H]. rewrite (IH _ H). cbn [runOp]. unfold exec.
      rewrite (start_when_started i Hs). apply attach_calls_initialize.
    + contradiction.
    + rewrite (IH _ H). cbn [runOp].
      apply (clientEmit_calls isInitialize isInitialize_emit
               isInitialize_deliver isInitialize_evaluate).
    + rewrite (IH _ H). cbn [runOp].
      apply (patchSettled_calls isInitialize isInitialize_emit
               isInitialize_deliver).
Qed.

(** C3: while the status is [ready], [initializing] or [qr], [start()]
    returns the current status data, leaves it as it was, does nothing
    beyond making sure the handlers are attached, and does not call
    [initialize()]; the same holds for any sequence of such calls, also
    with client events in between as long as each call finds one of
    these statuses, and together with the call that led to this state
    there is at most one call of [initialize()]. *)
Theorem C3_start_idempotent
    (initialize : Await unit) (more : list (Await unit)) (w : World) :
  started w ->
  eval (startWhatsApp initialize) w = Normal (statusData w)
  /\ statusData (exec (startWhatsApp initialize) w) = statusData w
  /\ exec (startWhatsApp initialize) w = exec attachListenersIfNeeded w
  /\ calls isInitialize (exec (startWhatsApp initialize) w)
     = calls isInitialize w
  /\ statusData (startAll more w) = statusData w
  /\ calls isInitialize (startAll more w) = calls isInitialize w
  /\ (forall first w0,
        w = exec (startWhatsApp first) w0 ->
        calls isInitialize (startAll more w) <= S (calls isInitialize w0))
  /\ (forall ops,
        startsWhileStarted ops w ->
        calls isInitialize (runOps ops w) = calls isInitialize w).
Proof.
  intro H.
  assert (E : exec (startWhatsApp initialize) w = exec attachListenersIfNeeded w).
  { unfold exec at 1. rewrite (start_when_started initialize H). reflexivity. }
  destruct (startAll_when_started more H) as [Es Ec].
  repeat split.
  - unfold eval. rewrite (start_when_started initialize H). reflexivity.
  - rewrite E. apply attach_statusData.
  - exact E.
  - rewrite E. apply attach_calls_initialize.
  - exact Es.
  - exact Ec.
  - intros first w0 ->. rewrite Ec. apply start_calls_initialize.
  - intros ops. apply runOps_while_started.
Qed.

Lemma C3_start_idempotent_witness :
  eval (startWhatsApp (rejected NotAnError)) afterFirstStart
  = Normal (statusData afterFirstStart)
  /\ calls isInitialize
       (startAll [resolved tt; rejected NotAnError] afterFirstStart) = 1.
Proof.
  assert (H : started afterFirstStart) by (right; left; reflexivity).
  destruct (C3_start_idempotent (rejected NotAnError)
              [resolved tt; rejected NotAnError] H)
    as (Hr & _ & _ & _ & _ & Hc & _).
  split; [exact Hr | rewrite Hc; reflexivity].
Defined.

(** ** After a lost connection *)

Lemma runCall_while_initializing k w :
  status (state w) = Status.initializing ->
  status (state (runCall k w)) = Status.initializing
  /\ calls isInitialize (runCall k w) = calls isInitialize w
  /\ emitted (trace (runCall k w)) = emitted (trace w).
Proof.
  destruct w as [c [st q le ini la ip] em cl pd tr]. simpl. intros ->.
  assert (Hemitted : emitted (tr ++ [ClientOn c]) = emitted tr).
  { rewrite emitted_app. apply app_nil_r. }
  destruct k; simpl; unfold startWhatsApp, sendWhatsAppMessage,
    sendWhatsAppMedia, subscribeWhatsAppEvents, emitter_on, emitter_off;
    destruct la; js_run; repeat split; try exact Hemitted; count_calls.
Qed.

Lemma runCalls_while_initializing ks w :
  status (state w) = Status.initializing ->
  status (state (runCalls ks w)) = Status.initializing
  /\ calls isInitialize (runCalls ks w) = calls isInitialize w
  /\ emitted (trace (runCalls ks w)) = emitted (trace w).
Proof.
  revert w. induction ks as [|k ks IH]; intros w H.
  - repeat split; [exact H].
  - change (runCalls (k :: ks) w) with (runCalls ks (runCall k w)).
    destruct (@runCall_while_initializing k w H) as (Hs & Hc & He).
    destruct (IH _ Hs) as (Hs' & Hc' & He').
    rewrite Hc', He', Hc, He. repeat split. exact Hs'.
Qed.

(** C4: when the status is [disconnected] or [error] and [initialized]
    is still true, [start()] sets the status to [initializing], clears
    [lastError], broadcasts one [state] event and returns that status
    without calling [initialize()]; no later call of the exported
    functions other than [reset()] changes the status, calls
    [initialize()] or broadcasts anything. *)
Theorem C4_restart_without_initialize
    (initialize : Await unit) (later : list Call) (w : World) :
  status (state w) = Status.disconnected \/ status (state w) = Status.error ->
  initialized (state w) = true ->
  let w' := exec (startWhatsApp initialize) w in
  let data := {| data_status := Status.initializing;
                 data_qr := qr (state w);
                 data_lastError := None |} in
  eval (startWhatsApp initialize) w = Normal data
  /\ statusData w' = data
  /\ initialized (state w') = true
  /\ trace w' = trace (exec attachListenersIfNeeded w)
                ++ broadcast (emitter w) (Event.state data)
  /\ calls isInitialize w' = calls isInitialize w
  /\ status (state (runCalls later w')) = Status.initializing
  /\ calls isInitialize (runCalls later w') = calls isInitialize w
  /\ emitted (trace (runCalls later w')) = emitted (trace w').
Proof.
  intros Hs Hi w' data.
  assert (Hw' : status (state w') = Status.initializing
                /\ calls isInitialize w' = calls isInitialize w).
  { subst w'. destruct w as [c [st q le ini la ip] em cl pd tr].
    simpl in Hs, Hi. subst ini. unfold startWhatsApp.
    destruct Hs as [-> | ->]; destruct la; js_run; split;
      try reflexivity; count_calls. }
  destruct Hw' as [Hst Hc].
  destruct (@runCalls_while_initializing later w' Hst) as (Hs' & Hc' & He').
  repeat split; try assumption; try congruence.
  all: subst w' data; destruct w as [c [st q le ini la ip] em cl pd tr];
    simpl in Hs, Hi; subst ini; unfold startWhatsApp;
    destruct Hs as [-> | ->]; destruct la; js_run; reflexivity.
Qed.

Lemma C4_restart_without_initialize_witness :
  status (state (exec (startWhatsApp (resolved tt)) afterDisconnect))
  = Status.initializing
  /\ calls isInitialize (exec (startWhatsApp (resolved tt)) afterDisconnect) = 1.
Proof.
  assert (Hs : status (state afterDisconnect) = Status.disconnected
               \/ status (state afterDisconnect) = Status.error)
    by (left; reflexivity).
  assert (Hi : initialized (state afterDisconnect) = true) by reflexivity.
  destruct (@C4_restart_without_initialize (resolved tt) [] afterDisconnect Hs Hi)
    as (_ & Hd & _ & _ & Hc & _).
  split.
  - exact (f_equal data_status Hd).
  - rewrite Hc. reflexivity.
Defined.

(** ** [reset()] *)

Lemma sameHandle_framed w : Framed (sameHandle w) (fun _ => true).
Proof.
  split.
  - intros f w' H. exact H.
  - intros ev w' H. exact H.
  - intros e _ w' H. exact H.
  - intros cs w' H. exact H.
  - intros k0 w0 H0. exact H0.
Qed.

Lemma teardown_keeps old run w :
  sameHandle w
    (exec (tryCatch
             (tryCatch (client_removeAllListeners old (removeAll run))
                (fun _ => ret tt) ;;
              await occur (ClientDestroy old) (destroy run))
             (fun _ => ret tt)) w).
Proof.
  apply (teardown_preserves (sameHandle_framed w)); try reflexivity.
  split; reflexivity.
Qed.

(** C5, as stated, fails for [listenersAttached]: [reset()] clears it
    and then attaches the handlers to the new client, which sets it. *)
Lemma C5_listenersAttached_set_after_reset :
  ~ (listenersAttached (state (exec (resetWhatsApp failingTeardown) createSingleton))
     = false).
Proof. vm_compute. discriminate. Qed.

(** C5 (amended): whatever the detachment and [destroy()] do, [reset()]
    returns; it returns [{status: idle, qr: null, lastError: null}],
    which is also what [getStatus()] yields next; [initialized] and the
    patch guard are cleared; [listenersAttached] is set, the handlers
    having been attached to the new client; the subscribers are kept. *)
Theorem C5_reset_restores_idle (run : Teardown) (w : World) :
  let w' := exec (resetWhatsApp run) w in
  eval (resetWhatsApp run) w = Normal idleData
  /\ eval getWhatsAppStatus w' = Normal idleData
  /\ initialized (state w') = false
  /\ injectedPatched (state w') = false
  /\ listenersAttached (state w') = true
  /\ client w' = S (client w)
  /\ emitter w' = emitter w.
Proof.
  intro w'.
  assert (Hst : state w' = stateAfterReset) by apply reset_state.
  assert (Hd : statusData w' = idleData).
  { unfold statusData. rewrite Hst. reflexivity. }
  repeat split.
  - unfold eval. rewrite reset_returns. fold w'. simpl. rewrite Hd. reflexivity.
  - unfold eval. simpl. fold (statusData w'). rewrite Hd. reflexivity.
  - rewrite Hst. reflexivity.
  - rewrite Hst. reflexivity.
  - rewrite Hst. reflexivity.
  - subst w'. unfold resetWhatsApp, exec. rewrite bind_gets, bind_run.
    match goal with
    | |- context [tryCatch ?m ?h w] =>
        destruct (teardown_keeps (client w) run w) as [Hc _];
        destruct (@total_tryCatch _ m h (fun _ => total_ret tt) w) as [[] Hp];
        unfold eval, exec in Hp, Hc;
        destruct (tryCatch m h w) as [r [c1 [st q le ini la ip] em cl pd tr]]
    end.
    simpl in Hp, Hc. subst r c1. reflexivity.
  - subst w'. unfold resetWhatsApp, exec. rewrite bind_gets, bind_run.
    match goal with
    | |- context [tryCatch ?m ?h w] =>
        destruct (teardown_keeps (client w) run w) as [_ He];
        destruct (@total_tryCatch _ m h (fun _ => total_ret tt) w) as [[] Hp];
        unfold eval, exec in Hp, He;
        destruct (tryCatch m h w) as [r [c1 [st q le ini la ip] em cl pd tr]]
    end.
    simpl in Hp, He. subst r em. reflexivity.
Qed.

(** ** Failure of [initialize()] *)

(** When [start()] gets as far as [initialize()], it calls it once. *)
Lemma start_calls_initialize_once initialize w :
  ~ started w ->
  initialized (state w) = false ->
  calls isInitialize (exec (startWhatsApp initialize) w)
  = S (calls isInitialize w).
Proof.
  destruct w as [c [st q le ini la ip] em cl pd tr].
  unfold started. simpl. intros Hs ->.
  unfold startWhatsApp.
  destruct st; try (exfalso; apply Hs; auto; fail);
    destruct la; js_run.
  all: match goal with
       | |- context [deliverAll occur ?evs ?W] =>
           pose proof (deliverAll_calls isInitialize isInitialize_emit
                         isInitialize_deliver isInitialize_evaluate evs W) as Hk;
           rewrite (deliverAll_run evs W);
           destruct (exec (deliverAll occur evs) W)
             as [c1 [st1 q1 le1 ini1 la1 ip1] em1 cl1 pd1 tr1]
       end.
  all: destruct (settles initialize); cbn; count_calls.
Qed.

(** The state and the trace a failed [initialize()] leaves. *)
Lemma start_failure (initialize : Await unit) (e : Thrown) (w : World) :
  ~ started w ->
  initialized (state w) = false ->
  settles initialize = Throw e ->
  let message := initFailureMessage e in
  let w' := exec (startWhatsApp initialize) w in
  status (state w') = Status.error
  /\ lastError (state w') = Some message
  /\ initialized (state w') = false
  /\ (exists before,
        trace w' = before
                   ++ broadcast (emitter w) (Event.error message)
                   ++ broadcast (emitter w) (Event.state (statusData w'))
        /\ In (ClientInitialize (client w)) before).
Proof.
  intros Hs Hi He message w'. subst w' message.
  destruct w as [c [st q le ini la ip] em cl pd tr].
  unfold started in Hs. simpl in Hs, Hi. subst ini.
  unfold startWhatsApp.
  destruct st; try (exfalso; apply Hs; auto; fail);
    destruct la; js_run.
  all: match goal with
       | |- context [deliverAll occur ?evs ?W] =>
           destruct (deliverAll_extends evs W) as (Hc & Hem & es & Ht);
           rewrite (deliverAll_run evs W);
           destruct (exec (deliverAll occur evs) W)
             as [c1 [st1 q1 le1 ini1 la1 ip1] em1 cl1 pd1 tr1]
       end.
  all: cbn in Hc, Hem, Ht; subst c1 em1 tr1; rewrite He; cbn.
  all: repeat split.
  all: eexists; split;
    [ unfold broadcast; rewrite <- app_assoc; cbn; reflexivity
    | rewrite !in_app_iff; cbn; auto ].
Qed.

(** C6: when [initialize()] throws during [start()], the call returns
    and does not throw; the status it returns and leaves is [error],
    [lastError] holds the message of the thrown [Error] (the fixed
    message [Falha ao inicializar WhatsApp.] when what was thrown is
    not an [Error]), [initialized] is cleared, the last two broadcasts
    are an [error] event with that message and then a [state] event,
    and the next [start()] calls [initialize()] again. *)
Theorem C6_initialize_failure
    (initialize again : Await unit) (e : Thrown) (w : World) :
  ~ started w ->
  initialized (state w) = false ->
  settles initialize = Throw e ->
  let message := match e with
                 | JsError thrown => thrown
                 | NotAnError => js "Falha ao inicializar WhatsApp."
                 end in
  let w' := exec (startWhatsApp initialize) w in
  eval (startWhatsApp initialize) w = Normal (statusData w')
  /\ status (state w') = Status.error
  /\ lastError (state w') = Some message
  /\ initialized (state w') = false
  /\ (exists before,
        trace w' = before
                   ++ broadcast (emitter w) (Event.error message)
                   ++ broadcast (emitter w) (Event.state (statusData w'))
        /\ In (ClientInitialize (client w)) before)
  /\ calls isInitialize (exec (startWhatsApp again) w')
     = S (calls isInitialize w').
Proof.
  intros Hs Hi He message w'.
  destruct (@start_failure initialize e w Hs Hi He) as (H1 & H2 & H3 & H4).
  repeat split; try assumption.
  - unfold eval. rewrite start_returns. reflexivity.
  - apply start_calls_initialize_once.
    + unfold started. fold w' in H1. rewrite H1. intros [E|[E|E]]; discriminate.
    + exact H3.
Qed.

Lemma C6_initialize_failure_witness :
  lastError
    (state (exec (startWhatsApp
                    (rejected (JsError (js "Failed to launch the browser process"))))
              createSingleton))
  = Some (js "Failed to launch the browser process")
  /\ initialized
       (state (exec (startWhatsApp
                       (rejected (JsError (js "Failed to launch the browser process"))))
                 createSingleton))
     = false.
Proof.
  assert (Hs : ~ started createSingleton).
  { intros [E|[E|E]]; discriminate. }
  destruct (@C6_initialize_failure
              (rejected (JsError (js "Failed to launch the browser process")))
              (resolved tt)
              (JsError (js "Failed to launch the browser process"))
              createSingleton Hs eq_refl eq_refl)
    as (_ & _ & Hl & Hi & _).
  split; [exact Hl | exact Hi].
Defined.

(** ** Dispatch *)

Lemma total_run {A} (m : Js A) :
  total m -> forall w, exists a, m w = (Normal a, exec m w).
Proof.
  intros Hm w. destruct (Hm w) as [a Ha]. exists a.
  unfold eval, exec in *. destruct (m w) as [r w']. simpl in *.
  subst r. reflexivity.
Qed.

Lemma await_run {A} call (a : Await A) w :
  await occur call a w
  = (settles a, exec (deliverAll occur (during a)) (exec (record [call]) w)).
Proof.
  unfold await, record. rewrite bind_modify, bind_run, deliverAll_run.
  reflexivity.
Qed.

Lemma isSendMessage_emit ev : isSendMessage (Emit ev) = false.
Proof. reflexivity. Qed.

Lemma isSendMessage_deliver l ev : isSendMessage (Deliver l ev) = false.
Proof. reflexivity. Qed.

Lemma sendsFramed (n : nat) :
  Framed (keepsCalls isSendMessage n) (others isSendMessage).
Proof.
  exact (keepsCalls_framed isSendMessage isSendMessage_emit
           isSendMessage_deliver n).
Qed.

Lemma start_keeps_sends initialize w :
  calls isSendMessage (exec (startWhatsApp initialize) w) = calls isSendMessage w.
Proof.
  apply (start_preserves (sendsFramed (calls isSendMessage w)));
    reflexivity.
Qed.

Lemma resolve_keeps_sends run c n w :
  calls isSendMessage (exec (resolveWhatsAppChatId run c n) w)
  = calls isSendMessage w.
Proof.
  apply (resolve_preserves (sendsFramed (calls isSendMessage w)));
    reflexivity.
Qed.

Lemma patch_keeps_sends page evaluate w :
  calls isSendMessage (exec (patchInjectedWWebJSIfNeeded occur page evaluate) w)
  = calls isSendMessage w.
Proof.
  apply (patch_preserves (sendsFramed (calls isSendMessage w)));
    try reflexivity.
  intros o. apply (occur_preserves (sendsFramed (calls isSendMessage w))).
  reflexivity.
Qed.

Lemma deliverAll_keeps_sends evs w :
  calls isSendMessage (exec (deliverAll occur evs) w) = calls isSendMessage w.
Proof.
  apply (deliverAll_preserves (sendsFramed (calls isSendMessage w)));
    reflexivity.
Qed.

(** C7: when the status [start()] reports is not [ready], [sendText]
    and [sendMedia] throw the NotConnected error right after [start()],
    and [sendMessage] is not called. *)
Theorem C7_send_requires_ready
    (run : SendRun) (dest text : jsstring) (data : MediaData)
    (captionArg : option jsstring) (sendAsDocumentArg : option bool)
    (st : StatusData) (w : World) :
  eval (startWhatsApp (run_initialize run)) w = Normal st ->
  data_status st <> Status.ready ->
  let w' := exec (startWhatsApp (run_initialize run)) w in
  sendWhatsAppMessage run dest text w = (Throw (JsError msgNotConnected), w')
  /\ sendWhatsAppMedia run dest data captionArg sendAsDocumentArg w
     = (Throw (JsError msgNotConnected), w')
  /\ calls isSendMessage w' = calls isSendMessage w.
Proof.
  intros Hst Hnr w'.
  unfold eval in Hst. rewrite start_returns in Hst. simpl in Hst.
  injection Hst as Hst. fold w' in Hst.
  assert (Hb : Status.eqb (data_status (statusData w')) Status.ready = false).
  { rewrite Hst. destruct (data_status st); try reflexivity.
    exfalso. apply Hnr. reflexivity. }
  repeat split.
  - unfold sendWhatsAppMessage. rewrite bind_gets, bind_run, start_returns.
    fold w'. rewrite Hb. reflexivity.
  - unfold sendWhatsAppMedia. rewrite bind_gets, bind_run, start_returns.
    fold w'. rewrite Hb. reflexivity.
  - apply start_keeps_sends.
Qed.

Lemma C7_send_requires_ready_witness :
  eval (sendWhatsAppMessage plainRun (js "11999998888") (js "Oferta!"))
    createSingleton
  = Throw (JsError msgNotConnected).
Proof.
  assert (Hnr : data_status
                  {| data_status := Status.initializing; data_qr := None;
                     data_lastError := None |} <> Status.ready)
    by discriminate.
  destruct (@C7_send_requires_ready plainRun (js "11999998888") (js "Oferta!")
              {| mimeType := js "image/png"; base64 := js "iVBORw0KGgo=";
                 filename := None |}
              None None _ createSingleton eq_refl Hnr)
    as (Ht & _).
  unfold eval. rewrite Ht. reflexivity.
Defined.

(** ** Handlers are attached once per client *)

Lemma handle_sameRegistry w0 ev : preserves (sameRegistry w0) (handle ev).
Proof.
  intros [c [st q le ini la ip] em cl pd tr] H.
  destruct ev as [q'|page|m|r|f b i];
    [ | destruct ip, page | | | ];
    unfold handle, startPatch; js_run; exact H.
Qed.

Lemma patchSettled_sameRegistry w0 outcome :
  preserves (sameRegistry w0) (patchSettled outcome).
Proof.
  intros [c [st q le ini la ip] em cl pd tr] H.
  destruct pd, outcome; exact H.
Qed.

Lemma occur_sameRegistry w0 o : preserves (sameRegistry w0) (occur o).
Proof.
  destruct o as [c ev | outcome]; simpl.
  - unfold clientEmit.
    apply preserves_bind; [apply preserves_gets | intro n].
    apply preserves_times. apply handle_sameRegistry.
  - apply patchSettled_sameRegistry.
Qed.

Lemma deliverAll_sameRegistry evs w :
  sameRegistry w (exec (deliverAll occur evs) w).
Proof.
  apply (@preserves_deliverAll (sameRegistry w)).
  - apply occur_sameRegistry.
  - repeat split.
Qed.

Lemma attachedOnce_registry w w' :
  sameRegistry w w' -> attachedOnce w -> attachedOnce w'.
Proof.
  intros (Hc & Hl & Ha) [H1 H2]. unfold attachedOnce.
  rewrite Hc, Hl, Ha. split; assumption.
Qed.

Lemma clientEmit_attachedOnce c ev w :
  attachedOnce w -> attachedOnce (exec (clientEmit c ev) w).
Proof.
  apply attachedOnce_registry.
  assert (H : preserves (sameRegistry w) (clientEmit c ev)).
  { unfold clientEmit.
    apply preserves_bind; [apply preserves_gets | intro n].
    apply preserves_times. apply handle_sameRegistry. }
  apply H. repeat split.
Qed.

Lemma attachedOnce_attach c s em cl pd tr :
  attachedOnce {| client := c; state := s; emitter := em;
                  clientListeners := cl; pendingPatches := pd;
                  trace := tr |} ->
  listenersAttached s = false ->
  (forall x, In x (cl ++ [c]) -> x <= c)
  /\ count_occ Nat.eq_dec (cl ++ [c]) c = 1.
Proof.
  unfold attachedOnce, ClientId. simpl. intros [H1 H2] Hla.
  rewrite Hla in H2. split.
  - intros x Hx. apply in_app_iff in Hx. destruct Hx as [Hx | [<- | []]].
    + apply H1. exact Hx.
    + apply Nat.le_refl.
  - rewrite count_occ_app, H2. simpl.
    destruct (Nat.eq_dec c c); [reflexivity | congruence].
Qed.

Lemma start_attachedOnce initialize w :
  attachedOnce w -> attachedOnce (exec (startWhatsApp initialize) w).
Proof.
  destruct w as [c [st q le ini la ip] em cl pd tr]. intro H.
  assert (Hatt : la = false ->
            (forall x, In x (cl ++ [c]) -> x <= c)
            /\ count_occ Nat.eq_dec (cl ++ [c]) c = 1)
    by (intro E; apply (attachedOnce_attach H); exact E).
  unfold startWhatsApp.
  destruct st, la, ini; js_run;
    try exact H; try (apply Hatt; reflexivity).
  all: match goal with
       | |- context [deliverAll occur ?evs ?W] =>
           destruct (deliverAll_sameRegistry evs W) as (Hc & Hl & Ha);
           rewrite (deliverAll_run evs W);
           destruct (exec (deliverAll occur evs) W)
             as [c1 [st1 q1 le1 ini1 la1 ip1] em1 cl1 pd1 tr1]
       end.
  all: cbn in Hc, Hl, Ha; subst c1 cl1 la1.
  all: destruct (settles initialize); cbn;
    try exact H; apply Hatt; reflexivity.
Qed.

Lemma reset_attachedOnce run w :
  attachedOnce w -> attachedOnce (exec (resetWhatsApp run) w).
Proof.
  destruct w as [c [st q le ini la ip] em cl pd tr]. intros [H1 _].
  simpl in H1. unfold ClientId in *.
  assert (Hfresh : forall cl', (forall x, In x cl' -> In x cl) ->
            (forall x, In x (cl' ++ [S c]) -> x <= S c)
            /\ count_occ Nat.eq_dec (cl' ++ [S c]) (S c) = 1).
  { intros cl' Hsub. split.
    - intros x Hx. apply in_app_iff in Hx. destruct Hx as [Hx | [<- | []]].
      + apply Nat.le_trans with c; [apply H1; apply Hsub; exact Hx | lia].
      + apply Nat.le_refl.
    - rewrite count_occ_app.
      replace (count_occ Nat.eq_dec cl' (S c)) with 0.
      + rewrite count_occ_cons_eq by reflexivity. reflexivity.
      + symmetry. apply count_occ_not_In. intro Hin.
        specialize (H1 _ (Hsub _ Hin)). lia. }
  unfold resetWhatsApp, client_removeAllListeners.
  destruct run as [[[]|e] d]; js_run.
  all: match goal with
       | |- context [deliverAll occur ?evs ?W] =>
           destruct (deliverAll_sameRegistry evs W) as (Hc & Hl & Ha);
           rewrite (deliverAll_run evs W);
           destruct (exec (deliverAll occur evs) W)
             as [c1 [st1 q1 le1 ini1 la1 ip1] em1 cl1 pd1 tr1]
       end.
  all: cbn in Hc, Hl, Ha; subst c1 cl1 la1.
  all: destruct (settles d); cbn; apply Hfresh.
  all: intros x Hx; try exact Hx.
  all: apply filter_In in Hx; destruct Hx as [Hx _]; exact Hx.
Qed.

(** In every state the session reaches, the handlers are registered on
    the current client once if [listenersAttached] is set, and not at
    all otherwise. *)
Lemma reachable_attachedOnce w : reachable w -> attachedOnce w.
Proof.
  revert w. apply reachable_ind_ops.
  - split; [intros c [] | reflexivity].
  - intros o w H. destruct o; simpl.
    + apply start_attachedOnce. exact H.
    + apply reset_attachedOnce. exact H.
    + apply clientEmit_attachedOnce. exact H.
    + apply (attachedOnce_registry (w := w)); [| exact H].
      apply patchSettled_sameRegistry. repeat split.
Qed.

(** ** Order of the broadcasts *)

Ltac fold_broadcast :=
  repeat match goal with
         | |- context [Emit ?e :: map (fun l => Deliver l ?e) ?ls] =>
             change (Emit e :: map (fun l => Deliver l e) ls)
               with (broadcast ls e)
         end.

Ltac read_trace :=
  fold_broadcast;
  rewrite ?emitted_app, ?deliveredTo_app, ?emitted_broadcast,
    ?deliveredTo_broadcast;
  cbn [emitted deliveredTo app];
  rewrite <- ?app_assoc, ?app_nil_r; cbn [app].

Lemma handle_broadcasts ev typed l w :
  typedEventOf ev = Some typed ->
  let w' := exec (handle ev) w in
  let k := count_occ Nat.eq_dec (emitter w) l in
  emitted (trace w') = emitted (trace w) ++ [typed; Event.state (statusData w')]
  /\ deliveredTo l (trace w')
     = deliveredTo l (trace w)
       ++ repeat typed k ++ repeat (Event.state (statusData w')) k.
Proof.
  intro Ht.
  destruct w as [c [st q le ini la ip] em cl pd tr].
  destruct ev as [q'|page|m|r|f b i]; simpl in Ht;
    try discriminate; injection Ht as <-.
  2: destruct ip, page.
  all: unfold handle, startPatch; js_run.
  all: split; read_trace; reflexivity.
Qed.

(** With the handlers registered once on a client, an event of that
    client runs them once. *)
Lemma clientEmit_once c ev w :
  count_occ Nat.eq_dec (clientListeners w) c = 1 ->
  exec (clientEmit c ev) w = exec (handle ev) w.
Proof.
  intro H. unfold clientEmit, exec. rewrite bind_gets, H.
  cbn [times]. rewrite bind_run.
  destruct (total_run (handle_total ev) w) as [[] ->]. reflexivity.
Qed.

(** What [start()] broadcasts when it leaves [idle], [disconnected] or
    [error]: first the [state] event of [initializing], and nothing
    more when [initialize()] is not called or resolves quietly. *)
Lemma start_broadcasts initialize l w :
  ~ started w ->
  let w' := exec (startWhatsApp initialize) w in
  let data := {| data_status := Status.initializing;
                 data_qr := qr (state w);
                 data_lastError := None |} in
  let k := count_occ Nat.eq_dec (emitter w) l in
  exists rest restTo,
    emitted (trace w') = emitted (trace w) ++ Event.state data :: rest
    /\ deliveredTo l (trace w')
       = deliveredTo l (trace w) ++ repeat (Event.state data) k ++ restTo
    /\ (initialized (state w) = true \/ initialize = resolved tt ->
        rest = [] /\ restTo = []).
Proof.
  destruct w as [c [st q le ini la ip] em cl pd tr].
  unfold started. simpl. intro Hs.
  unfold startWhatsApp.
  destruct st; try (exfalso; apply Hs; auto; fail);
    destruct la, ini; js_run.
  all: try (exists [], []; repeat split; read_trace; reflexivity).
  all: match goal with
       | |- context [deliverAll occur ?evs ?W] =>
           destruct (deliverAll_extends evs W) as (Hc & Hem & es & Ht);
           rewrite (deliverAll_run evs W);
           pose proof (fun E : evs = [] =>
                         f_equal (fun x => exec (deliverAll occur x) W) E)
             as Hnil;
           destruct (exec (deliverAll occur evs) W)
             as [c1 [st1 q1 le1 ini1 la1 ip1] em1 cl1 pd1 tr1]
       end.
  all: cbn in Hc, Hem, Ht, Hnil; subst c1 em1.
  all: destruct initialize as [evs [[]|e]]; cbn in *.
  all: try (exists (emitted es
                    ++ [Event.error (initFailureMessage e);
                        Event.state
                          {| data_status := Status.error; data_qr := q1;
                             data_lastError := Some (initFailureMessage e) |}]),
                   (deliveredTo l es
                    ++ repeat (Event.error (initFailureMessage e))
                         (count_occ Nat.eq_dec em l)
                    ++ repeat
                         (Event.state
                            {| data_status := Status.error; data_qr := q1;
                               data_lastError := Some (initFailureMessage e) |})
                         (count_occ Nat.eq_dec em l));
            split; [| split];
            [ rewrite Ht; read_trace; reflexivity
            | rewrite Ht; read_trace; reflexivity
            | intros [E|E]; discriminate ]).
  all: exists (emitted es), (deliveredTo l es); split; [| split];
    [ rewrite Ht; read_trace; reflexivity
    | rewrite Ht; read_trace; reflexivity
    | intros [E|E]; [discriminate |];
      injection E as E; specialize (Hnil E);
      pose proof (f_equal trace Hnil) as Htr; cbn in Htr;
      rewrite Ht in Htr;
      match type of Htr with
      | ?a ++ ?x = ?a =>
          assert (Hes : x = [])
            by (apply (app_inv_head a); rewrite app_nil_r; exact Htr)
      end;
      rewrite Hes; split; reflexivity ].
Qed.

(** C9, as stated, fails for [start()]: leaving [idle] it broadcasts a
    [state] event and no typed event before it. *)
Lemma C9_start_broadcasts_state_only :
  ~ typedThenState
      (emitted (trace (exec (startWhatsApp (resolved tt)) createSingleton))).
Proof.
  intros (typed & data & _ & E). vm_compute in E. discriminate E.
Qed.

(** C9 (amended): when a client on which the handlers are registered
    emits [qr], [ready], [auth_failure] or [disconnected], the typed
    event is broadcast and then a [state] event with the status data
    just set, and a subscriber is called with them in that order; when
    [initialize()] throws, the last two broadcasts are the [error] event
    and then such a [state] event.  When [start()] leaves [idle],
    [disconnected] or [error] it broadcasts the [state] event of
    [initializing] with no typed event before it, and nothing else when
    [initialize()] is not called or resolves quietly.  In a state the
    session reaches with [listenersAttached] set, the handlers are
    registered on the current client once. *)
Theorem C9_typed_event_then_state (l : Listener) (w : World) :
  let k := count_occ Nat.eq_dec (emitter w) l in
  (forall c ev typed,
      typedEventOf ev = Some typed ->
      count_occ Nat.eq_dec (clientListeners w) c = 1 ->
      let w' := exec (clientEmit c ev) w in
      Event.isState typed = false
      /\ emitted (trace w')
         = emitted (trace w) ++ [typed; Event.state (statusData w')]
      /\ deliveredTo l (trace w')
         = deliveredTo l (trace w)
           ++ repeat typed k ++ repeat (Event.state (statusData w')) k)
  /\ (forall initialize e,
        ~ started w ->
        initialized (state w) = false ->
        settles initialize = Throw e ->
        let w' := exec (startWhatsApp initialize) w in
        exists before beforeTo,
          emitted (trace w')
          = before ++ [Event.error (initFailureMessage e);
                       Event.state (statusData w')]
          /\ deliveredTo l (trace w')
             = beforeTo ++ repeat (Event.error (initFailureMessage e)) k
                 ++ repeat (Event.state (statusData w')) k)
  /\ (forall initialize,
        ~ started w ->
        let w' := exec (startWhatsApp initialize) w in
        let data := {| data_status := Status.initializing;
                       data_qr := qr (state w);
                       data_lastError := None |} in
        exists rest restTo,
          emitted (trace w') = emitted (trace w) ++ Event.state data :: rest
          /\ deliveredTo l (trace w')
             = deliveredTo l (trace w) ++ repeat (Event.state data) k ++ restTo
          /\ (initialized (state w) = true \/ initialize = resolved tt ->
              rest = [] /\ restTo = []))
  /\ (reachable w ->
      listenersAttached (state w) = true ->
      count_occ Nat.eq_dec (clientListeners w) (client w) = 1).
Proof.
  intro k. split; [| split; [| split]].
  4:{ intros Hr Hla. destruct (reachable_attachedOnce Hr) as [_ H].
      rewrite Hla in H. exact H. }
  - intros c ev typed Ht Hc w'. subst w'. rewrite (@clientEmit_once c ev w Hc).
    split.
    + destruct ev; simpl in Ht; try discriminate; injection Ht as <-;
        reflexivity.
    + apply (@handle_broadcasts ev typed l w Ht).
  - intros initialize e Hs Hi He w'.
    destruct (@start_failure initialize e w Hs Hi He) as (_ & _ & _ & before & Ht & _).
    fold w' in Ht.
    exists (emitted before), (deliveredTo l before).
    rewrite Ht. split; read_trace; reflexivity.
  - intros initialize Hs. apply start_broadcasts. exact Hs.
Qed.

Lemma C9_typed_event_then_state_witness :
  deliveredTo 7
    (trace (exec (clientEmit 0 (OnQr (js "2@pairing-token"))) watchedWorld))
  = deliveredTo 7 (trace watchedWorld)
    ++ [ Event.qr (js "2@pairing-token");
         Event.state {| data_status := Status.qr;
                        data_qr := Some (js "2@pairing-token");
                        data_lastError := None |} ].
Proof.
  destruct (C9_typed_event_then_state 7 watchedWorld) as (Hq & _ & _ & _).
  destruct (Hq 0 (OnQr (js "2@pairing-token")) _ eq_refl eq_refl)
    as (_ & _ & Hd).
  rewrite Hd. reflexivity.
Defined.

(** ** Subscribing and unsubscribing *)

Lemma removeFirst_count l xs l' :
  count_occ Nat.eq_dec (removeFirst l xs) l'
  = if Nat.eqb l' l then pred (count_occ Nat.eq_dec xs l')
    else count_occ Nat.eq_dec xs l'.
Proof.
  induction xs as [|x xs IH]; simpl.
  - destruct (Nat.eqb l' l); reflexivity.
  - destruct (Nat.eqb x l) eqn:Exl.
    + apply Nat.eqb_eq in Exl. subst x.
      destruct (Nat.eq_dec l l') as [E|E].
      * subst l'. rewrite Nat.eqb_refl. reflexivity.
      * assert (El : Nat.eqb l' l = false)
          by (apply Nat.eqb_neq; congruence).
        rewrite El. reflexivity.
    + simpl. rewrite IH.
      destruct (Nat.eq_dec x l') as [E|E].
      * subst l'. rewrite Exl. reflexivity.
      * reflexivity.
Qed.

Lemma removeFirst_absent l xs :
  count_occ Nat.eq_dec xs l = 0 -> removeFirst l xs = xs.
Proof.
  induction xs as [|x xs IH]; simpl; intro H.
  - reflexivity.
  - destruct (Nat.eq_dec x l) as [E|E]; [discriminate |].
    apply Nat.eqb_neq in E. rewrite E. f_equal. apply IH. exact H.
Qed.

(** What [emitter.off] leaves: one registration of the listener fewer,
    the other listeners as before. *)
Lemma emitter_off_count l w l' :
  count_occ Nat.eq_dec (emitter (exec (emitter_off l) w)) l'
  = if Nat.eqb l' l then pred (count_occ Nat.eq_dec (emitter w) l')
    else count_occ Nat.eq_dec (emitter w) l'.
Proof.
  unfold emitter_off, exec. rewrite bind_gets. simpl.
  rewrite count_occ_rev, removeFirst_count, count_occ_rev. reflexivity.
Qed.

Lemma emitter_off_absent l w :
  count_occ Nat.eq_dec (emitter w) l = 0 -> exec (emitter_off l) w = w.
Proof.
  intro H. destruct w as [c s em cl pd tr]. simpl in H.
  unfold emitter_off, exec. rewrite bind_gets. simpl.
  rewrite removeFirst_absent by (rewrite count_occ_rev; exact H).
  rewrite rev_involutive. reflexivity.
Qed.

Lemma hears_framed l k e0 d0 : Framed (hears l k e0 d0) isClientCall.
Proof.
  split.
  - intros f w H. exact H.
  - intros ev w (Hk & new & He & Hd). split; [exact Hk |].
    exists (new ++ [ev]). unfold emit, exec. rewrite bind_gets. simpl.
    fold (broadcast (emitter w) ev).
    rewrite emitted_app, deliveredTo_app, emitted_broadcast,
      deliveredTo_broadcast, He, Hd, Hk.
    unfold copies. rewrite flat_map_app. simpl.
    rewrite app_nil_r, <- !app_assoc. split; reflexivity.
  - intros e Ha w (Hk & new & He & Hd). split; [exact Hk |].
    exists new. simpl. rewrite emitted_app, deliveredTo_app, He, Hd.
    destruct e; try discriminate; simpl; rewrite !app_nil_r;
      split; reflexivity.
  - intros cs w H. exact H.
  - intros k0 w0 H0. exact H0.
Qed.

Lemma hears_set_emitter l k e0 d0 ls w :
  count_occ Nat.eq_dec ls l = k ->
  hears l k e0 d0 w -> hears l k e0 d0 (exec (set_emitter ls) w).
Proof. intros Hls (_ & Hn). split; [exact Hls | exact Hn]. Qed.

Lemma runAction_hears l k e0 d0 a w :
  concerns l a = false ->
  hears l k e0 d0 w -> hears l k e0 d0 (runAction a w).
Proof.
  intros Ha H. pose proof (hears_framed l k e0 d0) as F.
  destruct a as [o | call]; simpl.
  - apply (runOp_preserves F); try reflexivity.
    + intros c w' H'. exact H'.
    + exact H.
  - destruct call; simpl in *.
    + apply (start_preserves F); try reflexivity. exact H.
    + exact H.
    + apply (sendText_preserves F); try reflexivity. exact H.
    + apply (sendMedia_preserves F); try reflexivity. exact H.
    + unfold subscribeWhatsAppEvents, emitter_on, exec.
      rewrite bind_run, bind_gets. simpl.
      destruct H as (Hk & Hn). split; [| exact Hn]. simpl.
      rewrite count_occ_app. simpl.
      destruct (Nat.eq_dec listener l) as [E|E].
      * subst listener. rewrite Nat.eqb_refl in Ha. discriminate.
      * rewrite Nat.add_0_r. exact Hk.
    + destruct H as (Hk & Hn). split; [| exact Hn].
      rewrite emitter_off_count.
      rewrite Nat.eqb_sym in Ha. rewrite Ha. exact Hk.
Qed.

Lemma runActions_hears l k e0 d0 acts w :
  forallb (fun a => negb (concerns l a)) acts = true ->
  hears l k e0 d0 w -> hears l k e0 d0 (runActions acts w).
Proof.
  unfold runActions. revert w.
  induction acts as [|a acts IH]; intros w Ha H; simpl in *.
  - exact H.
  - apply andb_prop in Ha. destruct Ha as [Ha Hacts].
    apply IH; [exact Hacts |].
    apply runAction_hears; [| exact H].
    destruct (concerns l a); [discriminate | reflexivity].
Qed.

Lemma copies_one evs : copies 1 evs = evs.
Proof.
  unfold copies. induction evs as [|ev evs IH]; simpl.
  - reflexivity.
  - f_equal. exact IH.
Qed.

Lemma copies_none evs : copies 0 evs = [].
Proof.
  unfold copies. induction evs as [|ev evs IH]; simpl.
  - reflexivity.
  - exact IH.
Qed.

Lemma hears_now l w :
  hears l (count_occ Nat.eq_dec (emitter w) l)
    (emitted (trace w)) (deliveredTo l (trace w)) w.
Proof.
  split; [reflexivity |]. exists []. simpl. rewrite !app_nil_r.
  split; reflexivity.
Qed.

(** The function [subscribe] returned takes off the registration that
    a later [subscribe] of the same listener made. *)
Lemma emitter_off_undoes_on l w :
  exec (emitter_off l) (exec (subscribeWhatsAppEvents l) w) = w.
Proof.
  destruct w as [c [st q le ini la ip] em cl pd tr].
  unfold subscribeWhatsAppEvents, emitter_on, emitter_off, exec.
  cbn [bind gets ret set_emitter modify snd fst emitter].
  rewrite rev_app_distr. cbn [rev app removeFirst].
  rewrite Nat.eqb_refl, rev_involutive. reflexivity.
Qed.

(** C10, as stated, fails for a listener that is already subscribed:
    after one [unsubscribe()] it is still called, because
    [emitter.off] removes a single registration. *)
Lemma C10_duplicate_subscription_survives :
  ~ (forall l w,
       let w1 := exec (subscribeWhatsAppEvents l) w in
       let w2 := exec (emitter_off l) w1 in
       forall ev,
         deliveredTo l (trace (exec (emit ev) w2)) = deliveredTo l (trace w2)).
Proof.
  intro H.
  specialize (H 7 (exec (subscribeWhatsAppEvents 7) createSingleton) Event.ready).
  vm_compute in H. discriminate H.
Qed.

(** C10 (amended): for a listener that is not yet subscribed,
    [subscribe] appends it to the listeners and returns the function
    that takes it off; while subscribed it is called once with every
    event that is broadcast; calling the returned function removes it
    and leaves every other listener registered as before; afterwards it
    is called with nothing, and calling the function again changes
    nothing, as long as the listener has not been subscribed again.
    Once it has, the old function takes the new registration off: in
    general the function takes off one registration of the listener,
    if there is one. *)
Theorem C10_subscribe_unsubscribe
    (l : Listener) (w : World) (acts1 acts2 : list Action) :
  ~ In l (emitter w) ->
  forallb (fun a => negb (concerns l a)) acts1 = true ->
  forallb (fun a => negb (concerns l a)) acts2 = true ->
  let w1 := exec (subscribeWhatsAppEvents l) w in
  let w2 := runActions acts1 w1 in
  let w3 := exec (emitter_off l) w2 in
  let w4 := runActions acts2 w3 in
  eval (subscribeWhatsAppEvents l) w = Normal (emitter_off l)
  /\ emitter w1 = emitter w ++ [l]
  /\ (exists new,
        emitted (trace w2) = emitted (trace w) ++ new
        /\ deliveredTo l (trace w2) = deliveredTo l (trace w) ++ new)
  /\ count_occ Nat.eq_dec (emitter w3) l = 0
  /\ (forall l', l' <> l ->
        count_occ Nat.eq_dec (emitter w3) l'
        = count_occ Nat.eq_dec (emitter w2) l')
  /\ deliveredTo l (trace w4) = deliveredTo l (trace w2)
  /\ exec (emitter_off l) w3 = w3
  /\ exec (emitter_off l) w4 = w4
  /\ exec (emitter_off l) (exec (subscribeWhatsAppEvents l) w4) = w4
  /\ (forall w0 l',
        count_occ Nat.eq_dec (emitter (exec (emitter_off l) w0)) l'
        = if Nat.eqb l' l then pred (count_occ Nat.eq_dec (emitter w0) l')
          else count_occ Nat.eq_dec (emitter w0) l').
Proof.
  intros Hnew Ha1 Ha2 w1 w2 w3 w4.
  assert (H0 : count_occ Nat.eq_dec (emitter w) l = 0)
    by (apply count_occ_not_In; exact Hnew).
  assert (Hw1 : hears l 1 (emitted (trace w)) (deliveredTo l (trace w)) w1).
  { pose proof (hears_now l w1) as H.
    replace (count_occ Nat.eq_dec (emitter w1) l) with 1 in H; [exact H |].
    subst w1. unfold subscribeWhatsAppEvents, emitter_on, exec.
    rewrite bind_run, bind_gets. simpl. unfold Listener in *.
    rewrite count_occ_app, H0. simpl.
    destruct (Nat.eq_dec l l); [reflexivity | congruence]. }
  assert (Hw2 : hears l 1 (emitted (trace w)) (deliveredTo l (trace w)) w2)
    by (apply runActions_hears; assumption).
  assert (Hw3 : count_occ Nat.eq_dec (emitter w3) l = 0).
  { subst w3. rewrite emitter_off_count, Nat.eqb_refl.
    destruct Hw2 as [-> _]. reflexivity. }
  assert (Htr : trace w3 = trace w2).
  { subst w3. unfold emitter_off, exec. rewrite bind_gets. reflexivity. }
  assert (Hw4 : hears l 0 (emitted (trace w3)) (deliveredTo l (trace w3)) w4).
  { apply runActions_hears; [exact Ha2 |].
    rewrite <- Hw3 at 1. apply hears_now. }
  repeat split.
  - destruct Hw2 as (_ & new & He & Hd). exists new.
    rewrite copies_one in Hd. split; assumption.
  - exact Hw3.
  - intros l' Hl'. subst w3. rewrite emitter_off_count.
    apply Nat.eqb_neq in Hl'. rewrite Hl'. reflexivity.
  - destruct Hw4 as (_ & new & _ & Hd).
    rewrite copies_none, app_nil_r, Htr in Hd. exact Hd.
  - apply emitter_off_absent. exact Hw3.
  - apply emitter_off_absent. destruct Hw4 as [Hk _]. exact Hk.
  - apply emitter_off_undoes_on.
  - intros w0 l'. apply emitter_off_count.
Qed.

Lemma C10_subscribe_unsubscribe_witness :
  let w2 := runActions [ Do (OpStart (resolved tt));
                         Invoke (CallSubscribe 8) ]
              (exec (subscribeWhatsAppEvents 7) createSingleton) in
  let w3 := exec (emitter_off 7) w2 in
  let w4 := runActions [ Do (OpClientEmit 0 (OnQr (js "2@pairing-token"))) ] w3 in
  deliveredTo 7 (trace w4) = deliveredTo 7 (trace w2)
  /\ exec (emitter_off 7) w3 = w3
  /\ exec (emitter_off 7) (exec (subscribeWhatsAppEvents 7) w4) = w4.
Proof.
  assert (Hnew : ~ In 7 (emitter createSingleton)) by (intros []).
  destruct (@C10_subscribe_unsubscribe 7 createSingleton
              [ Do (OpStart (resolved tt)); Invoke (CallSubscribe 8) ]
              [ Do (OpClientEmit 0 (OnQr (js "2@pairing-token"))) ]
              Hnew eq_refl eq_refl)
    as (_ & _ & _ & _ & _ & Hd & Hoff & _ & Hagain & _).
  split; [exact Hd | split; [exact Hoff | exact Hagain]].
Defined.

(** * Further properties *)

(** ** Digit normalisation, in general *)

Lemma filter_allDigits s :
  allDigits s = true -> JsString.stripNonDigits s = s.
Proof.
  unfold allDigits, JsString.stripNonDigits.
  induction s as [|c s IH]; simpl; intro H.
  - reflexivity.
  - apply andb_prop in H. destruct H as [Hc Hs].
    rewrite Hc. f_equal. apply IH. exact Hs.
Qed.

Lemma stripNonDigits_allDigits s : allDigits (JsString.stripNonDigits s) = true.
Proof.
  unfold allDigits, JsString.stripNonDigits.
  induction s as [|c s IH]; simpl.
  - reflexivity.
  - destruct (JsString.isDigit c) eqn:E; simpl; rewrite ?E; exact IH.
Qed.

Lemma allDigits_skipn n s : allDigits s = true -> allDigits (skipn n s) = true.
Proof.
  unfold allDigits. revert s. induction n as [|n IH]; intros s H.
  - exact H.
  - destruct s as [|c s]; [reflexivity |]. simpl in *.
    apply andb_prop in H. apply IH. apply H.
Qed.

Lemma stripDuplicatedPrefix_allDigits s :
  allDigits s = true -> allDigits (stripDuplicatedPrefix s) = true.
Proof.
  intro H. destruct (stripDuplicatedPrefix_suffix s) as [n ->].
  apply allDigits_skipn. exact H.
Qed.

(** A string at which the loop does not start is returned as it is. *)
Lemma stripDuplicatedPrefix_fixed digits :
  JsString.startsWith domesticPrefix digits && (13 <? List.length digits) = false ->
  stripDuplicatedPrefix digits = digits.
Proof.
  intro H. funelim (stripDuplicatedPrefix digits).
  - congruence.
  - reflexivity.
Qed.

Lemma normalizeDigits_allDigits raw : allDigits (normalizeDigits raw) = true.
Proof.
  unfold normalizeDigits. cbv zeta.
  set (d := stripDuplicatedPrefix (JsString.stripNonDigits raw)).
  assert (Hd : allDigits d = true).
  { apply stripDuplicatedPrefix_allDigits. apply stripNonDigits_allDigits. }
  destruct (negb (JsString.startsWith domesticPrefix d)
            && (Nat.eqb (List.length d) 10 || Nat.eqb (List.length d) 11)).
  - unfold allDigits in *. rewrite forallb_app, Hd. reflexivity.
  - exact Hd.
Qed.

Lemma normalizeDigits_prefixed_length raw :
  JsString.startsWith domesticPrefix (normalizeDigits raw) = true ->
  List.length (normalizeDigits raw) <= 13.
Proof.
  unfold normalizeDigits. cbv zeta.
  set (d := stripDuplicatedPrefix (JsString.stripNonDigits raw)).
  pose proof (stripDuplicatedPrefix_stops (JsString.stripNonDigits raw)) as Hstop.
  fold d in Hstop.
  destruct (JsString.startsWith domesticPrefix d) eqn:Hp.
  - cbn [negb andb]. intros _. apply Nat.ltb_ge. exact Hstop.
  - cbn [negb andb].
    destruct (Nat.eqb (List.length d) 10 || Nat.eqb (List.length d) 11) eqn:Hl.
    + intros _. rewrite length_app. apply orb_prop in Hl.
      destruct Hl as [Hl|Hl]; apply Nat.eqb_eq in Hl; rewrite Hl;
        cbn; lia.
    + rewrite Hp. discriminate.
Qed.

(** X1: whatever the input, [normalizeDigits] returns decimal digits
    only, and a result that starts with the domestic prefix has at most
    13 digits. *)
Theorem X1_normalizeDigits_shape (raw : jsstring) :
  allDigits (normalizeDigits raw) = true
  /\ (JsString.startsWith domesticPrefix (normalizeDigits raw) = true ->
      List.length (normalizeDigits raw) <= 13).
Proof.
  split.
  - apply normalizeDigits_allDigits.
  - apply normalizeDigits_prefixed_length.
Qed.

Lemma X1_normalizeDigits_shape_witness :
  List.length (normalizeDigits (js "+55 55 (11) 99999-8888")) <= 13.
Proof.
  apply (X1_normalizeDigits_shape (js "+55 55 (11) 99999-8888")).
  reflexivity.
Defined.

(** X2: [normalizeDigits] is idempotent: normalising a normalised
    number changes nothing. *)
Theorem X2_normalizeDigits_idempotent (raw : jsstring) :
  normalizeDigits (normalizeDigits raw) = normalizeDigits raw.
Proof.
  pose proof (normalizeDigits_allDigits raw) as Hd.
  pose proof (normalizeDigits_prefixed_length raw) as Hlen.
  set (r := normalizeDigits raw) in *.
  unfold normalizeDigits at 1. cbv zeta.
  rewrite (filter_allDigits r Hd).
  assert (Hfix : stripDuplicatedPrefix r = r).
  { apply stripDuplicatedPrefix_fixed.
    destruct (JsString.startsWith domesticPrefix r) eqn:Hp; [| reflexivity].
    simpl. apply Nat.ltb_ge. apply Hlen. reflexivity. }
  rewrite Hfix.
  destruct (JsString.startsWith domesticPrefix r) eqn:Hp; [reflexivity |].
  simpl.
  (* without the prefix, [r] is the loop's result and has neither 10 nor
     11 digits, or it would have been given the prefix *)
  subst r. unfold normalizeDigits in *. cbv zeta in *.
  set (d := stripDuplicatedPrefix (JsString.stripNonDigits raw)) in *.
  destruct (negb (JsString.startsWith domesticPrefix d)
            && (Nat.eqb (List.length d) 10 || Nat.eqb (List.length d) 11)) eqn:Hc.
  - simpl in Hp. discriminate.
  - rewrite Hp in Hc. simpl in Hc. rewrite Hc. reflexivity.
Qed.

(** ** The resolver, in general *)

Lemma includes_truthy p s :
  JsString.truthy p = true -> JsString.includes p s = true ->
  JsString.truthy s = true.
Proof.
  destruct p as [|x p]; [discriminate |]. intros _.
  destruct s as [|y s]; [discriminate | reflexivity].
Qed.

(** The ways [resolveWhatsAppChatId] ends: without touching anything,
    failing or returning an identifier that holds an [@]; or after one
    directory lookup of the normalised digits. *)
Lemma resolve_outcome run c n w :
  let r := resolveWhatsAppChatId run c n w in
  (snd r = w
   /\ (fst r = Throw (JsError msgInvalidNumber)
       \/ fst r = Throw (JsError msgSelfUnavailable)
       \/ exists id, fst r = Normal id
                     /\ JsString.includes (js "@") id = true))
  \/ (JsString.truthy (normalizeDigits (JsString.trim n)) = true
      /\ JsString.includes (js "@") (JsString.trim n) = false
      /\ snd r = exec (deliverAll occur (during (run_getNumberId run)))
                   (exec (record [ClientGetNumberId c
                                    (normalizeDigits (JsString.trim n))]) w)
      /\ (fst r = Throw (JsError msgNotOnNetwork)
          \/ exists id, fst r = Normal id
                        /\ JsString.truthy id = true
                        /\ settles (run_getNumberId run) = Normal (Some id))).
Proof.
  unfold resolveWhatsAppChatId. cbv zeta.
  destruct (JsString.truthy (JsString.trim n)) eqn:Hin; cbn [negb];
    [| left; split; [reflexivity | left; reflexivity]].
  destruct (JsString.eqb (JsString.toLowerCase (JsString.trim n)) (js "me")
            || JsString.eqb (JsString.toLowerCase (JsString.trim n)) (js "self")).
  { left.
    destruct (JsString.includes (js "@") (JsString.trim (run_selfWid run)))
      eqn:Hat.
    - rewrite (includes_truthy (js "@") _ eq_refl Hat). cbn [negb].
      split; [reflexivity |]. right. right. eexists. split; [reflexivity |].
      exact Hat.
    - cbn. split; [reflexivity |]. right. left. reflexivity. }
  destruct (JsString.includes (js "@") (JsString.trim n)) eqn:Hat.
  { left. split; [reflexivity |]. right. right. eexists.
    split; [reflexivity | exact Hat]. }
  destruct (JsString.truthy (normalizeDigits (JsString.trim n))) eqn:Hd;
    cbn [negb]; [| left; split; [reflexivity | left; reflexivity]].
  right. split; [reflexivity |]. split; [reflexivity |].
  rewrite bind_run. unfold tryCatch. rewrite bind_run, await_run.
  destruct (settles (run_getNumberId run)) as [[id|]|e];
    cbv beta iota zeta delta [fst snd].
  - destruct (JsString.truthy id) eqn:Hid;
      cbv beta iota delta [ret throwError throw fst snd].
    + split; [reflexivity |]. right. exists id. repeat split. exact Hid.
    + split; [reflexivity |]. left. reflexivity.
  - change (JsString.truthy JsString.empty) with false.
    cbv beta iota delta [ret throwError throw fst snd].
    split; [reflexivity |]. left. reflexivity.
  - cbv beta iota delta [ret throwError throw fst snd].
    split; [reflexivity |]. left. reflexivity.
Qed.

(** X3: an identifier the resolver returns is never empty; returned for
    [me], [self] or an already qualified input it holds an [@], and
    otherwise it is the one the directory answered. *)
Theorem X3_resolver_returns_identifier
    (run : SendRun) (c : ClientId) (n id : jsstring) (w : World) :
  eval (resolveWhatsAppChatId run c n) w = Normal id ->
  JsString.truthy id = true
  /\ (JsString.includes (js "@") id = true
      \/ settles (run_getNumberId run) = Normal (Some id)).
Proof.
  unfold eval. intro H.
  destruct (resolve_outcome run c n w) as [[_ Hr] | (_ & _ & _ & Hr)];
    cbv zeta in Hr; rewrite H in Hr.
  - destruct Hr as [Hr | [Hr | (id' & Hr & Hat)]]; try discriminate.
    injection Hr as <-. split; [| left; exact Hat].
    apply (includes_truthy (js "@") _ eq_refl Hat).
  - destruct Hr as [Hr | (id' & Hr & Hid & Hs)]; [discriminate |].
    injection Hr as <-. split; [exact Hid | right; exact Hs].
Qed.

Lemma X3_resolver_returns_identifier_witness :
  JsString.truthy (js "5511999998888@c.us") = true.
Proof.
  apply (@X3_resolver_returns_identifier plainRun 0 (js "(11) 99999-8888")
           (js "5511999998888@c.us") readyWorld).
  reflexivity.
Defined.

(** X4: the resolver fails in three ways only, each an [Error] with a
    fixed message: the number is invalid, the connected number cannot
    be resolved, or the number is not on WhatsApp; whatever
    [getNumberId] throws is replaced by the last. *)
Theorem X4_resolver_failures
    (run : SendRun) (c : ClientId) (n : jsstring) (e : Thrown) (w : World) :
  eval (resolveWhatsAppChatId run c n) w = Throw e ->
  e = JsError msgInvalidNumber
  \/ e = JsError msgSelfUnavailable
  \/ e = JsError msgNotOnNetwork.
Proof.
  unfold eval. intro H.
  destruct (resolve_outcome run c n w) as [[_ Hr] | (_ & _ & _ & Hr)];
    cbv zeta in Hr; rewrite H in Hr.
  - destruct Hr as [Hr | [Hr | (id' & Hr & _)]].
    + injection Hr as ->. left. reflexivity.
    + injection Hr as ->. right. left. reflexivity.
    + discriminate.
  - destruct Hr as [Hr | (id' & Hr & _)]; [| discriminate].
    injection Hr as ->. right. right. reflexivity.
Qed.

Lemma X4_resolver_failures_witness :
  JsError msgNotOnNetwork = JsError msgInvalidNumber
  \/ JsError msgNotOnNetwork = JsError msgSelfUnavailable
  \/ JsError msgNotOnNetwork = JsError msgNotOnNetwork.
Proof.
  apply (@X4_resolver_failures
           {| run_initialize := resolved tt;
              run_selfWid := JsString.empty;
              run_getNumberId := rejected (JsError (js "Protocol error"));
              run_pagePresent := false;
              run_evaluate := resolved tt;
              run_sendMessage := resolved tt |}
           0 (js "11999998888") (JsError msgNotOnNetwork) readyWorld).
  reflexivity.
Defined.

(** X5: the resolver touches the client for one thing only, a single
    [getNumberId] of a non-empty string of decimal digits; for an empty
    input, [me], [self], an input with an [@] or one without digits it
    touches nothing. *)
Theorem X5_resolver_lookup
    (run : SendRun) (c : ClientId) (n : jsstring) (w : World) :
  let w' := exec (resolveWhatsAppChatId run c n) w in
  w' = w
  \/ exists digits es,
       JsString.truthy digits = true
       /\ allDigits digits = true
       /\ trace w' = trace w ++ ClientGetNumberId c digits :: es
       /\ calls isLookup w' = S (calls isLookup w).
Proof.
  intro w'. subst w'. unfold exec.
  destruct (resolve_outcome run c n w) as [[Hw _] | (Hd & _ & Hw & _)];
    cbv zeta in Hw; [left; exact Hw |].
  right. pose proof (normalizeDigits_allDigits (JsString.trim n)) as Hall.
  set (d := normalizeDigits (JsString.trim n)) in *. exists d.
  rewrite Hw.
  match goal with
  | |- context [exec (deliverAll occur ?evs) ?W] =>
      destruct (deliverAll_extends evs W) as (_ & _ & es & Ht);
      pose proof (deliverAll_calls isLookup (fun _ => eq_refl)
                    (fun _ _ => eq_refl) (fun _ => eq_refl) evs W) as Hc
  end.
  exists es. split; [exact Hd |]. split; [exact Hall |]. split.
  - rewrite Ht. change (trace (exec (record [ClientGetNumberId c d]) w))
      with (trace w ++ [ClientGetNumberId c d]).
    rewrite <- app_assoc. reflexivity.
  - rewrite Hc, calls_record.
    change (List.length (filter isLookup [ClientGetNumberId c d])) with 1.
    lia.
Qed.

(** ** The dispatch layer, in general *)

Lemma keepsSends_framed sent : Framed (keepsSends sent) (others isSendMessage).
Proof.
  split.
  - intros f w H. exact H.
  - intros ev w H. unfold keepsSends, sendCalls, emit, exec in *.
    rewrite bind_gets. simpl. rewrite filter_app.
    fold (broadcast (emitter w) ev).
    rewrite (filter_broadcast isSendMessage isSendMessage_emit
               isSendMessage_deliver), app_nil_r.
    exact H.
  - intros e He w H. unfold keepsSends, sendCalls in *. simpl.
    rewrite filter_app. simpl. unfold others in He.
    destruct (isSendMessage e); [discriminate |]. rewrite app_nil_r. exact H.
  - intros cs w H. exact H.
  - intros k0 w0 H0. exact H0.
Qed.

Lemma start_keeps_sendCalls initialize w :
  sendCalls (exec (startWhatsApp initialize) w) = sendCalls w.
Proof.
  apply (start_preserves (keepsSends_framed (sendCalls w))); reflexivity.
Qed.

Lemma resolve_keeps_sendCalls run c n w :
  sendCalls (exec (resolveWhatsAppChatId run c n) w) = sendCalls w.
Proof.
  apply (resolve_preserves (keepsSends_framed (sendCalls w))); reflexivity.
Qed.

Lemma deliverAll_keeps_sendCalls evs w :
  sendCalls (exec (deliverAll occur evs) w) = sendCalls w.
Proof.
  apply (deliverAll_preserves (keepsSends_framed (sendCalls w))); reflexivity.
Qed.

Lemma patch_keeps_sendCalls page evaluate w :
  sendCalls (exec (patchInjectedWWebJSIfNeeded occur page evaluate) w)
  = sendCalls w.
Proof.
  apply (patch_preserves (keepsSends_framed (sendCalls w))); try reflexivity.
  intros o. apply (occur_preserves (keepsSends_framed (sendCalls w))).
  reflexivity.
Qed.

Lemma send_catch (fallback : jsstring) (e : Thrown) w :
  (let msg := messageOf e in
   if noLidForUser msg then throwError msgNotOnNetwork else
   if JsString.truthy msg then throwError msg else
   throw (match e with
          | JsError _ => e
          | NotAnError => JsError fallback
          end)) w
  = (@Throw unit (sendFailure fallback e), w).
Proof.
  unfold sendFailure. cbv zeta.
  destruct (noLidForUser (messageOf e)); [reflexivity |].
  destruct (JsString.truthy (messageOf e)); reflexivity.
Qed.

(** The stages of a send after [start()] reported [ready] and the
    argument check passed: resolve, patch, [sendMessage]. *)
Lemma send_stages run c n content options fallback w1 :
  let r :=
    (chatId <- resolveWhatsAppChatId run c n ;;
     patchInjectedWWebJSIfNeeded occur (run_pagePresent run)
       (run_evaluate run) ;;
     tryCatch
       (await occur (ClientSendMessage c chatId content options)
          (run_sendMessage run))
       (fun e =>
          let msg := messageOf e in
          if noLidForUser msg then throwError msgNotOnNetwork else
          if JsString.truthy msg then throwError msg else
          throw (match e with
                 | JsError _ => e
                 | NotAnError => JsError fallback
                 end))) w1 in
  (exists e, fst r = Throw e
             /\ eval (resolveWhatsAppChatId run c n) w1 = Throw e
             /\ sendCalls (snd r) = sendCalls w1)
  \/ (exists chatId,
        eval (resolveWhatsAppChatId run c n) w1 = Normal chatId
        /\ sendCalls (snd r)
           = sendCalls w1 ++ [ClientSendMessage c chatId content options]
        /\ fst r = match settles (run_sendMessage run) with
                   | Normal _ => Normal tt
                   | Throw e => Throw (sendFailure fallback e)
                   end).
Proof.
  cbv zeta. rewrite bind_run.
  pose proof (resolve_keeps_sendCalls run c n w1) as H2.
  unfold eval, exec in *.
  destruct (resolveWhatsAppChatId run c n w1) as [[chatId|e] w2];
    cbn [fst snd] in *.
  2:{ left. exists e. repeat split. exact H2. }
  right. exists chatId. split; [reflexivity |].
  rewrite bind_run.
  pose proof (patch_keeps_sendCalls (run_pagePresent run) (run_evaluate run) w2)
    as H3.
  destruct (total_run (patch_total occur (run_pagePresent run)
                         (run_evaluate run)) w2) as [[] ->].
  unfold tryCatch. rewrite await_run.
  match goal with
  | |- context [exec (deliverAll occur ?evs) ?W] =>
      pose proof (deliverAll_keeps_sendCalls evs W) as H4;
      set (w4 := exec (deliverAll occur evs) W) in *
  end.
  assert (Hsent : sendCalls w4
                  = sendCalls w1 ++ [ClientSendMessage c chatId content options]).
  { rewrite H4. unfold sendCalls at 1. cbn [exec record modify snd trace].
    rewrite filter_app. fold (sendCalls (exec (patchInjectedWWebJSIfNeeded
      occur (run_pagePresent run) (run_evaluate run)) w2)).
    rewrite H3, H2. reflexivity. }
  destruct (settles (run_sendMessage run)) as [[]|e].
  - cbn [fst snd]. split; [exact Hsent | reflexivity].
  - rewrite send_catch. cbn [fst snd]. split; [exact Hsent | reflexivity].
Qed.

Lemma resolve_returns_truthy run c n w id :
  eval (resolveWhatsAppChatId run c n) w = Normal id ->
  JsString.truthy id = true.
Proof.
  unfold eval. intro H.
  destruct (resolve_outcome run c n w) as [[_ Hr] | (_ & _ & _ & Hr)];
    cbv zeta in Hr; rewrite H in Hr.
  - destruct Hr as [Hr | [Hr | (id' & Hr & Hat)]]; try discriminate.
    injection Hr as <-. apply (includes_truthy (js "@") _ eq_refl Hat).
  - destruct Hr as [Hr | (id' & Hr & Hid & _)]; [discriminate |].
    injection Hr as <-. exact Hid.
Qed.

Lemma resolve_throws_error run c n w e :
  eval (resolveWhatsAppChatId run c n) w = Throw e ->
  exists msg, e = JsError msg.
Proof.
  unfold eval. intro H.
  destruct (resolve_outcome run c n w) as [[_ Hr] | (_ & _ & _ & Hr)];
    cbv zeta in Hr; rewrite H in Hr.
  - destruct Hr as [Hr | [Hr | (id' & Hr & _)]]; try discriminate;
      injection Hr as ->; eexists; reflexivity.
  - destruct Hr as [Hr | (id' & Hr & _)]; [| discriminate].
    injection Hr as ->. eexists. reflexivity.
Qed.

Lemma sendFailure_error fallback e : exists msg, sendFailure fallback e = JsError msg.
Proof.
  unfold sendFailure. cbv zeta.
  destruct (noLidForUser (messageOf e)); [eexists; reflexivity |].
  destruct (JsString.truthy (messageOf e)); [eexists; reflexivity |].
  destruct e; eexists; reflexivity.
Qed.

(** How [sendWhatsAppMessage] ends. *)
Lemma sendText_outcome run n m w :
  let w1 := exec (startWhatsApp (run_initialize run)) w in
  let r := sendWhatsAppMessage run n m w in
  (Status.eqb (status (state w1)) Status.ready = false
   /\ r = (Throw (JsError msgNotConnected), w1))
  \/ (Status.eqb (status (state w1)) Status.ready = true
      /\ JsString.truthy (JsString.trim m) = false
      /\ r = (Throw (JsError msgEmptyMessage), w1))
  \/ (Status.eqb (status (state w1)) Status.ready = true
      /\ JsString.truthy (JsString.trim m) = true
      /\ ((exists e, fst r = Throw e
                     /\ eval (resolveWhatsAppChatId run (client w) n) w1 = Throw e
                     /\ sendCalls (snd r) = sendCalls w1)
          \/ (exists chatId,
                eval (resolveWhatsAppChatId run (client w) n) w1 = Normal chatId
                /\ sendCalls (snd r)
                   = sendCalls w1
                     ++ [ClientSendMessage (client w) chatId (Text m) textOptions]
                /\ fst r = match settles (run_sendMessage run) with
                           | Normal _ => Normal tt
                           | Throw e =>
                               Throw (sendFailure (js "Falha ao enviar mensagem.") e)
                           end))).
Proof.
  intros w1 r. subst r. unfold sendWhatsAppMessage.
  rewrite bind_gets, bind_run, start_returns. fold w1.
  change (data_status (statusData w1)) with (status (state w1)).
  destruct (Status.eqb (status (state w1)) Status.ready);
    cbn [negb]; [| left; split; reflexivity].
  right. cbv zeta.
  destruct (JsString.truthy (JsString.trim m));
    cbn [negb]; [| left; repeat split].
  right. split; [reflexivity |]. split; [reflexivity |].
  exact (send_stages run (client w) n (Text m) textOptions
           (js "Falha ao enviar mensagem.") w1).
Qed.

(** How [sendWhatsAppMedia] ends. *)
Lemma sendMedia_outcome run n data captionArg sendAsDocumentArg w :
  let w1 := exec (startWhatsApp (run_initialize run)) w in
  let r := sendWhatsAppMedia run n data captionArg sendAsDocumentArg w in
  let valid := JsString.truthy (JsString.trim (mimeType data))
               && JsString.truthy (JsString.trim (base64 data)) in
  (Status.eqb (status (state w1)) Status.ready = false
   /\ r = (Throw (JsError msgNotConnected), w1))
  \/ (Status.eqb (status (state w1)) Status.ready = true
      /\ valid = false
      /\ r = (Throw (JsError msgInvalidMedia), w1))
  \/ (Status.eqb (status (state w1)) Status.ready = true
      /\ valid = true
      /\ ((exists e, fst r = Throw e
                     /\ eval (resolveWhatsAppChatId run (client w) n) w1 = Throw e
                     /\ sendCalls (snd r) = sendCalls w1)
          \/ (exists chatId,
                eval (resolveWhatsAppChatId run (client w) n) w1 = Normal chatId
                /\ sendCalls (snd r)
                   = sendCalls w1
                     ++ [ClientSendMessage (client w) chatId (mediaContent data)
                           (mediaOptions captionArg sendAsDocumentArg)]
                /\ fst r = match settles (run_sendMessage run) with
                           | Normal _ => Normal tt
                           | Throw e =>
                               Throw (sendFailure (js "Falha ao enviar mídia.") e)
                           end))).
Proof.
  intros w1 r valid. subst r valid. unfold sendWhatsAppMedia.
  rewrite bind_gets, bind_run, start_returns. fold w1.
  change (data_status (statusData w1)) with (status (state w1)).
  destruct (Status.eqb (status (state w1)) Status.ready);
    cbn [negb]; [| left; split; reflexivity].
  right. cbv zeta.
  destruct (JsString.truthy (JsString.trim (mimeType data)));
    cbn [negb orb andb]; [| left; repeat split].
  destruct (JsString.truthy (JsString.trim (base64 data)));
    cbn [negb orb andb]; [| left; repeat split].
  right. split; [reflexivity |]. split; [reflexivity |].
  pose proof (send_stages run (client w) n (mediaContent data)
                (mediaOptions captionArg sendAsDocumentArg)
                (js "Falha ao enviar mídia.") w1) as H.
  unfold mediaContent, mediaOptions in *.
  destruct sendAsDocumentArg as [[|]|]; exact H.
Qed.

Lemma status_eqb_true a b : Status.eqb a b = true -> a = b.
Proof. destruct a, b; simpl; intro H; try reflexivity; discriminate. Qed.

(** ** Classification of a failed send *)

Lemma sendFailure_message fallback m :
  sendFailure fallback (JsError m)
  = JsError (if noLidForUser m then msgNotOnNetwork else m).
Proof.
  unfold sendFailure, messageOf. cbv zeta.
  destruct (noLidForUser m); [reflexivity |].
  destruct (JsString.truthy m); reflexivity.
Qed.

(** C8: when [sendText] or [sendMedia] gets as far as [sendMessage]
    (the status is [ready], the arguments pass the check and the
    destination resolves) the call is made, and when it fails with an
    [Error] whose message has the unroutable-identity signature, the
    caller gets the NotOnNetwork message, which is not the underlying
    message; with any other message the caller gets that message. *)
Theorem C8_send_failure_classified
    (run : SendRun) (dest text : jsstring) (data : MediaData)
    (captionArg : option jsstring) (sendAsDocumentArg : option bool)
    (m chatId : jsstring) (w : World) :
  let w1 := exec (startWhatsApp (run_initialize run)) w in
  let surfaced := JsError (if noLidForUser m then msgNotOnNetwork else m) in
  settles (run_sendMessage run) = Throw (JsError m) ->
  status (state w1) = Status.ready ->
  eval (resolveWhatsAppChatId run (client w) dest) w1 = Normal chatId ->
  (JsString.truthy (JsString.trim text) = true ->
   eval (sendWhatsAppMessage run dest text) w = Throw surfaced
   /\ sendCalls (exec (sendWhatsAppMessage run dest text) w)
      = sendCalls w
        ++ [ClientSendMessage (client w) chatId (Text text) textOptions])
  /\ (JsString.truthy (JsString.trim (mimeType data)) = true ->
      JsString.truthy (JsString.trim (base64 data)) = true ->
      eval (sendWhatsAppMedia run dest data captionArg sendAsDocumentArg) w
      = Throw surfaced
      /\ sendCalls
           (exec (sendWhatsAppMedia run dest data captionArg sendAsDocumentArg)
              w)
         = sendCalls w
           ++ [ClientSendMessage (client w) chatId (mediaContent data)
                 (mediaOptions captionArg sendAsDocumentArg)])
  /\ (noLidForUser m = true -> msgNotOnNetwork <> m).
Proof.
  intros w1 surfaced Hsend Hready Hres.
  pose proof (start_keeps_sendCalls (run_initialize run) w) as H1.
  fold w1 in H1.
  assert (Heqb : Status.eqb (status (state w1)) Status.ready = true)
    by (rewrite Hready; reflexivity).
  split; [| split].
  - intro Htext. unfold eval, exec.
    destruct (sendText_outcome run dest text w)
      as [[Hn _]
         | [(_ & Hb & _)
           | (_ & _ & [(e & _ & Hthrow & _) | (id & Hid & Hs & Hf)])]].
    + fold w1 in Hn. rewrite Heqb in Hn. discriminate.
    + rewrite Htext in Hb. discriminate.
    + fold w1 in Hthrow. rewrite Hres in Hthrow. discriminate.
    + fold w1 in Hid, Hs. rewrite Hres in Hid. injection Hid as <-.
      rewrite Hf, Hs, H1, Hsend, sendFailure_message.
      split; reflexivity.
  - intros Hmime Hdata. unfold eval, exec.
    destruct (sendMedia_outcome run dest data captionArg sendAsDocumentArg w)
      as [[Hn _]
         | [(_ & Hv & _)
           | (_ & _ & [(e & _ & Hthrow & _) | (id & Hid & Hs & Hf)])]].
    + fold w1 in Hn. rewrite Heqb in Hn. discriminate.
    + rewrite Hmime, Hdata in Hv. discriminate.
    + fold w1 in Hthrow. rewrite Hres in Hthrow. discriminate.
    + fold w1 in Hid, Hs. rewrite Hres in Hid. injection Hid as <-.
      rewrite Hf, Hs, H1, Hsend, sendFailure_message.
      split; reflexivity.
  - intros Hm E. subst m. vm_compute in Hm. discriminate.
Qed.

Lemma C8_send_failure_classified_witness :
  eval (sendWhatsAppMessage noLidRun (js "(11) 99999-8888") (js "Oferta!"))
    readyWorld
  = Throw (JsError msgNotOnNetwork)
  /\ eval (sendWhatsAppMedia noLidRun (js "(11) 99999-8888") pdfData
             (Some (js "Oferta!")) (Some true))
       readyWorld
     = Throw (JsError msgNotOnNetwork)
  /\ sendCalls
       (exec (sendWhatsAppMedia noLidRun (js "(11) 99999-8888") pdfData
                (Some (js "Oferta!")) (Some true))
          readyWorld)
     = sendCalls readyWorld
       ++ [ClientSendMessage (client readyWorld) (js "5511999998888@c.us")
             (mediaContent pdfData)
             (mediaOptions (Some (js "Oferta!")) (Some true))].
Proof.
  destruct (@C8_send_failure_classified noLidRun (js "(11) 99999-8888")
              (js "Oferta!") pdfData (Some (js "Oferta!")) (Some true)
              (js "Evaluation failed: Error: No LID for user")
              (js "5511999998888@c.us") readyWorld)
    as (Ht & Hm & _); try (vm_compute; reflexivity).
  destruct Ht as [Ht1 _]; [vm_compute; reflexivity |].
  destruct Hm as [Hm1 Hm2]; try (vm_compute; reflexivity).
  split; [| split].
  - rewrite Ht1. vm_compute. reflexivity.
  - rewrite Hm1. vm_compute. reflexivity.
  - exact Hm2.
Defined.

Ltac one_send Hout :=
  destruct Hout
    as [[_ Hr]
       | [(_ & _ & Hr)
         | (Hready & _ & [(e0 & He & Hres & Hs) | (chatId & Hres & Hs & Hf)])]].

(** X6: [sendText] calls [sendMessage] at most once; when it returns
    normally it has called it exactly once, with the message as it was
    given (not trimmed), [sendSeen: false] and no other option, for a
    non-empty chat identifier, and [start()] had reported [ready]. *)
Theorem X6_sendText_single_send
    (run : SendRun) (n m : jsstring) (w : World) :
  let w' := exec (sendWhatsAppMessage run n m) w in
  let sent chatId :=
    sendCalls w ++ [ClientSendMessage (client w) chatId (Text m) textOptions] in
  (sendCalls w' = sendCalls w
   \/ exists chatId, JsString.truthy chatId = true /\ sendCalls w' = sent chatId)
  /\ (eval (sendWhatsAppMessage run n m) w = Normal tt ->
      exists chatId,
        JsString.truthy chatId = true
        /\ sendCalls w' = sent chatId
        /\ status (state (exec (startWhatsApp (run_initialize run)) w))
           = Status.ready).
Proof.
  intros w' sent. subst w' sent. unfold exec, eval.
  pose proof (sendText_outcome run n m w) as Hout. cbv zeta in Hout.
  pose proof (start_keeps_sendCalls (run_initialize run) w) as H1.
  one_send Hout.
  - rewrite Hr. cbn [fst snd]. split; [left; exact H1 | discriminate].
  - rewrite Hr. cbn [fst snd]. split; [left; exact H1 | discriminate].
  - split; [left; rewrite Hs; exact H1 |]. rewrite He. discriminate.
  - pose proof (resolve_returns_truthy _ _ _ _ Hres) as Hid.
    rewrite Hs, H1. split.
    + right. exists chatId. split; [exact Hid | reflexivity].
    + intros _. exists chatId. repeat split; try assumption.
      apply status_eqb_true. exact Hready.
Qed.

Lemma X6_sendText_single_send_witness :
  exists chatId,
    JsString.truthy chatId = true
    /\ sendCalls (exec (sendWhatsAppMessage plainRun (js "(11) 99999-8888")
                          (js " Oferta! ")) readyWorld)
       = sendCalls readyWorld
         ++ [ClientSendMessage (client readyWorld) chatId (Text (js " Oferta! "))
               textOptions]
    /\ status (state (exec (startWhatsApp (run_initialize plainRun)) readyWorld))
       = Status.ready.
Proof.
  apply (X6_sendText_single_send plainRun (js "(11) 99999-8888")
           (js " Oferta! ") readyWorld).
  reflexivity.
Defined.

(** X7: [sendMedia] calls [sendMessage] at most once; when it returns
    normally it has called it exactly once, with the MIME type, the
    data and the file name trimmed (no file name when it is blank), the
    caption trimmed (none when blank), and the document flag set only
    when [sendAsDocument] is [true]. *)
Theorem X7_sendMedia_single_send
    (run : SendRun) (n : jsstring) (data : MediaData)
    (captionArg : option jsstring) (sendAsDocumentArg : option bool)
    (w : World) :
  let w' := exec (sendWhatsAppMedia run n data captionArg sendAsDocumentArg) w in
  let sent chatId :=
    sendCalls w ++ [ClientSendMessage (client w) chatId (mediaContent data)
                      (mediaOptions captionArg sendAsDocumentArg)] in
  (sendCalls w' = sendCalls w
   \/ exists chatId, JsString.truthy chatId = true /\ sendCalls w' = sent chatId)
  /\ (eval (sendWhatsAppMedia run n data captionArg sendAsDocumentArg) w
      = Normal tt ->
      exists chatId,
        JsString.truthy chatId = true
        /\ sendCalls w' = sent chatId
        /\ status (state (exec (startWhatsApp (run_initialize run)) w))
           = Status.ready).
Proof.
  intros w' sent. subst w' sent. unfold exec, eval.
  pose proof (sendMedia_outcome run n data captionArg sendAsDocumentArg w)
    as Hout.
  cbv zeta in Hout.
  pose proof (start_keeps_sendCalls (run_initialize run) w) as H1.
  one_send Hout.
  - rewrite Hr. cbn [fst snd]. split; [left; exact H1 | discriminate].
  - rewrite Hr. cbn [fst snd]. split; [left; exact H1 | discriminate].
  - split; [left; rewrite Hs; exact H1 |]. rewrite He. discriminate.
  - pose proof (resolve_returns_truthy _ _ _ _ Hres) as Hid.
    rewrite Hs, H1. split.
    + right. exists chatId. split; [exact Hid | reflexivity].
    + intros _. exists chatId. repeat split; try assumption.
      apply status_eqb_true. exact Hready.
Qed.

Lemma X7_sendMedia_single_send_witness :
  exists chatId,
    JsString.truthy chatId = true
    /\ sendCalls (exec (sendWhatsAppMedia plainRun (js "11999998888") pdfData
                          (Some (js " ")) (Some true)) readyWorld)
       = sendCalls readyWorld
         ++ [ClientSendMessage (client readyWorld) chatId
               (Media (js "application/pdf") (js "JVBERi0xLjcK") None)
               {| sendSeen := false; caption := None;
                  sendMediaAsDocument := Some true |}]
    /\ status (state (exec (startWhatsApp (run_initialize plainRun)) readyWorld))
       = Status.ready.
Proof.
  apply (X7_sendMedia_single_send plainRun (js "11999998888") pdfData
           (Some (js " ")) (Some true) readyWorld).
  reflexivity.
Defined.

(** X8: what [sendText] and [sendMedia] throw is always an [Error]: a
    value thrown by [sendMessage] that is not an [Error] is replaced by
    one with a fixed message. *)
Theorem X8_sends_throw_errors
    (run : SendRun) (n m : jsstring) (data : MediaData)
    (captionArg : option jsstring) (sendAsDocumentArg : option bool)
    (e : Thrown) (w : World) :
  (eval (sendWhatsAppMessage run n m) w = Throw e -> exists msg, e = JsError msg)
  /\ (eval (sendWhatsAppMedia run n data captionArg sendAsDocumentArg) w = Throw e ->
      exists msg, e = JsError msg).
Proof.
  unfold eval. split; intro H.
  - pose proof (sendText_outcome run n m w) as Hout. cbv zeta in Hout.
    one_send Hout.
    + rewrite Hr in H. injection H as <-. eexists. reflexivity.
    + rewrite Hr in H. injection H as <-. eexists. reflexivity.
    + rewrite He in H. injection H as <-.
      apply (resolve_throws_error _ _ _ _ Hres).
    + rewrite Hf in H. destruct (settles (run_sendMessage run)) as [[]|e'];
        [discriminate |].
      injection H as <-. apply sendFailure_error.
  - pose proof (sendMedia_outcome run n data captionArg sendAsDocumentArg w)
      as Hout.
    cbv zeta in Hout. one_send Hout.
    + rewrite Hr in H. injection H as <-. eexists. reflexivity.
    + rewrite Hr in H. injection H as <-. eexists. reflexivity.
    + rewrite He in H. injection H as <-.
      apply (resolve_throws_error _ _ _ _ Hres).
    + rewrite Hf in H. destruct (settles (run_sendMessage run)) as [[]|e'];
        [discriminate |].
      injection H as <-. apply sendFailure_error.
Qed.

Lemma X8_sends_throw_errors_witness :
  exists msg, JsError (js "Falha ao enviar mensagem.") = JsError msg.
Proof.
  destruct (X8_sends_throw_errors oddRejectionRun (js "11999998888")
              (js "Oferta!") pdfData None None
              (JsError (js "Falha ao enviar mensagem.")) readyWorld)
    as [H _].
  apply H. vm_compute. reflexivity.
Defined.

(** X9: with the status [ready], a message that is empty or only white
    space makes [sendText] throw the EmptyMessage error, and a MIME
    type or data that is empty or only white space makes [sendMedia]
    throw the InvalidMedia error, in both cases before the destination
    is looked at: nothing is resolved and nothing is sent. *)
Theorem X9_send_rejects_blank
    (run : SendRun) (n m : jsstring) (data : MediaData)
    (captionArg : option jsstring) (sendAsDocumentArg : option bool)
    (w : World) :
  status (state w) = Status.ready ->
  (JsString.truthy (JsString.trim m) = false ->
   sendWhatsAppMessage run n m w
   = (Throw (JsError msgEmptyMessage), exec attachListenersIfNeeded w))
  /\ (JsString.truthy (JsString.trim (mimeType data))
      && JsString.truthy (JsString.trim (base64 data)) = false ->
      sendWhatsAppMedia run n data captionArg sendAsDocumentArg w
      = (Throw (JsError msgInvalidMedia), exec attachListenersIfNeeded w)).
Proof.
  intro Hs.
  assert (Hst : started w) by (left; exact Hs).
  assert (Hw1 : exec (startWhatsApp (run_initialize run)) w
                = exec attachListenersIfNeeded w).
  { unfold exec at 1. rewrite (start_when_started (run_initialize run) Hst).
    reflexivity. }
  assert (Hr1 : Status.eqb
                  (status (state (exec (startWhatsApp (run_initialize run)) w)))
                  Status.ready = true).
  { rewrite Hw1.
    pose proof (attach_statusData w) as Ha.
    apply (f_equal data_status) in Ha. cbn [data_status statusData] in Ha.
    rewrite Ha, Hs. reflexivity. }
  split; intro Hblank.
  - pose proof (sendText_outcome run n m w) as Hout. cbv zeta in Hout.
    destruct Hout as [[Hn _] | [(_ & _ & Hr) | (_ & Ht & _)]].
    + rewrite Hr1 in Hn. discriminate.
    + rewrite Hr, Hw1. reflexivity.
    + rewrite Hblank in Ht. discriminate.
  - pose proof (sendMedia_outcome run n data captionArg sendAsDocumentArg w)
      as Hout.
    cbv zeta in Hout.
    destruct Hout as [[Hn _] | [(_ & _ & Hr) | (_ & Ht & _)]].
    + rewrite Hr1 in Hn. discriminate.
    + rewrite Hr, Hw1. reflexivity.
    + rewrite Hblank in Ht. discriminate.
Qed.

Lemma X9_send_rejects_blank_witness :
  sendWhatsAppMessage plainRun (js "11999998888") (js "  ") readyWorld
  = (Throw (JsError msgEmptyMessage), exec attachListenersIfNeeded readyWorld).
Proof.
  apply (@X9_send_rejects_blank plainRun (js "11999998888") (js "  ") pdfData
           None None readyWorld eq_refl).
  reflexivity.
Defined.

(** ** What every call keeps

    A property kept by the handlers, by [start()] and by [reset()], and
    indifferent to the trace, to the subscribers, to the
    [injectedPatched] flag and to the pending [page.evaluate] calls,
    holds in every state of the session. *)

Section EveryCall.
Variable P : World -> Prop.
Hypothesis P_record : forall es, preserves P (record es).
Hypothesis P_patched : forall v, preserves P (set_injectedPatched v).
Hypothesis P_pending : forall n, preserves P (set_pendingPatches n).
Hypothesis P_emitter : forall ls, preserves P (set_emitter ls).
Hypothesis P_handle : forall ev, preserves P (handle ev).
Hypothesis P_start : forall initialize, preserves P (startWhatsApp initialize).
Hypothesis P_reset : forall run, preserves P (resetWhatsApp run).

Lemma clientEmit_keeps c ev : preserves P (clientEmit c ev).
Proof.
  unfold clientEmit.
  apply preserves_bind; [apply preserves_gets | intro n].
  apply preserves_times. apply P_handle.
Qed.

Lemma patchSettled_keeps outcome : preserves P (patchSettled outcome).
Proof.
  unfold patchSettled.
  apply preserves_bind; [apply preserves_gets | intros [|n]].
  - apply preserves_ret.
  - apply preserves_bind; [apply P_pending | intros _].
    destruct outcome; [apply P_patched | apply preserves_ret].
Qed.

Lemma occur_keeps o : preserves P (occur o).
Proof.
  destruct o; simpl; [apply clientEmit_keeps | apply patchSettled_keeps].
Qed.

Lemma await_keeps {A} call (a : Await A) :
  preserves P (await occur call a).
Proof.
  unfold await.
  apply preserves_bind; [apply P_record | intros _].
  apply preserves_bind;
    [apply preserves_deliverAll; apply occur_keeps | intros _].
  apply preserves_settle.
Qed.

Ltac keep_prim :=
  idtac;
  match goal with
  | |- preserves _ (await _ _ _) => apply await_keeps
  | |- preserves _ (set_injectedPatched _) => apply P_patched
  | |- preserves _ (set_emitter _) => apply P_emitter
  | |- preserves _ (startWhatsApp _) => apply P_start
  end.

Ltac keep_with known := repeat first [ known | keep_prim | frame_step ].

Lemma patch_keeps page evaluate :
  preserves P (patchInjectedWWebJSIfNeeded occur page evaluate).
Proof. unfold patchInjectedWWebJSIfNeeded. keep_with fail. Qed.

Lemma resolve_keeps run c n : preserves P (resolveWhatsAppChatId run c n).
Proof. unfold resolveWhatsAppChatId, throwError. keep_with fail. Qed.

Ltac keep_stage :=
  idtac;
  match goal with
  | |- preserves _ (patchInjectedWWebJSIfNeeded _ _ _) => apply patch_keeps
  | |- preserves _ (resolveWhatsAppChatId _ _ _) => apply resolve_keeps
  end.

Lemma sendText_keeps run n m : preserves P (sendWhatsAppMessage run n m).
Proof. unfold sendWhatsAppMessage, throwError. keep_with keep_stage. Qed.

Lemma sendMedia_keeps run n d c o :
  preserves P (sendWhatsAppMedia run n d c o).
Proof. unfold sendWhatsAppMedia, throwError. keep_with keep_stage. Qed.

Lemma runAction_keeps a w : P w -> P (runAction a w).
Proof.
  intro H.
  destruct a as [[i | run | c ev | out] | k]; cbn [runAction runOp runCall].
  - apply P_start. exact H.
  - apply P_reset. exact H.
  - apply clientEmit_keeps. exact H.
  - apply patchSettled_keeps. exact H.
  - destruct k; cbn [runCall].
    + apply P_start. exact H.
    + exact H.
    + apply sendText_keeps. exact H.
    + apply sendMedia_keeps. exact H.
    + revert H. unfold subscribeWhatsAppEvents, emitter_on.
      generalize w. change (preserves P
        ((ls <- gets emitter ;; set_emitter (ls ++ [listener])) ;;
         ret (emitter_off listener))).
      keep_with fail.
    + revert H. unfold emitter_off. generalize w.
      change (preserves P
        (ls <- gets emitter ;;
         set_emitter (rev (removeFirst listener (rev ls))))).
      keep_with fail.
Qed.

Lemma inSession_keeps : P createSingleton -> forall w, inSession w -> P w.
Proof.
  intros H0 w [acts ->]. unfold runActions.
  induction acts as [|a acts IH] using rev_ind.
  - exact H0.
  - rewrite fold_left_app. simpl. apply runAction_keeps. exact IH.
Qed.
End EveryCall.

(** ** Invariants of the session *)

Lemma handle_statusConsistent ev : preserves statusConsistent (handle ev).
Proof.
  intros [c [st q le ini la ip] em cl pd tr] H.
  unfold statusConsistent in *.
  destruct ev as [q'|page|m|r|f b i];
    [ | destruct ip, page | | | ];
    unfold handle, startPatch; js_run;
    try exact H; try reflexivity; try exact I.
  - split; [discriminate | reflexivity].
  - unfold orElse. destruct (JsString.truthy m); discriminate.
Qed.

Lemma deliverAll_statusConsistent evs :
  preserves statusConsistent (deliverAll occur evs).
Proof.
  apply preserves_deliverAll. intros [c ev | outcome]; simpl.
  - unfold clientEmit.
    apply preserves_bind; [apply preserves_gets | intro n].
    apply preserves_times. apply handle_statusConsistent.
  - intros [c [st q le ini la ip] em cl pd tr] H.
    destruct pd, outcome; exact H.
Qed.

Lemma start_statusConsistent initialize :
  preserves statusConsistent (startWhatsApp initialize).
Proof.
  intros [c [st q le ini la ip] em cl pd tr] H.
  unfold startWhatsApp.
  destruct st, la, ini; js_run;
    try exact H; try reflexivity.
  all: match goal with
       | |- context [deliverAll occur ?evs ?W] =>
           assert (HW : statusConsistent W) by reflexivity;
           pose proof (deliverAll_statusConsistent evs W HW) as H3;
           rewrite (deliverAll_run evs W);
           destruct (exec (deliverAll occur evs) W)
             as [c1 [st1 q1 le1 ini1 la1 ip1] em1 cl1 pd1 tr1]
       end.
  all: destruct (settles initialize); cbn; [exact H3 |].
  all: unfold statusConsistent; cbn; discriminate.
Qed.

(** X10: in every state the session reaches, by calls of the exported
    functions and client events in any order, status [qr] comes with a
    pairing token and status [error] with a diagnostic in [lastError],
    and [lastError] is null whenever the status is [idle],
    [initializing], [qr] or [ready]. *)
Theorem X10_status_consistent (w : World) :
  inSession w ->
  (status (state w) = Status.qr -> qr (state w) <> None)
  /\ (status (state w) = Status.error -> lastError (state w) <> None)
  /\ (lastError (state w) <> None ->
      status (state w) = Status.error
      \/ status (state w) = Status.disconnected).
Proof.
  intro Hr.
  assert (H : statusConsistent w).
  { revert w Hr. apply inSession_keeps; try reflexivity.
    - intros es [c [st q le ini la ip] em cl pd tr] H. exact H.
    - intros v [c [st q le ini la ip] em cl pd tr] H. exact H.
    - intros n [c [st q le ini la ip] em cl pd tr] H. exact H.
    - intros ls [c [st q le ini la ip] em cl pd tr] H. exact H.
    - apply handle_statusConsistent.
    - apply start_statusConsistent.
    - intros run w _. unfold statusConsistent.
      rewrite reset_state. reflexivity. }
  unfold statusConsistent in H.
  destruct (status (state w)); repeat split; intros; try discriminate;
    try tauto; try (exfalso; tauto).
Qed.

Lemma X10_status_consistent_witness :
  status (state (runOps staleQrOps createSingleton)) = Status.error
  \/ status (state (runOps staleQrOps createSingleton)) = Status.disconnected.
Proof.
  apply X10_status_consistent.
  - exists (map Do staleQrOps). vm_compute. reflexivity.
  - vm_compute. discriminate.
Defined.

Lemma sameSubscribers_framed w : Framed (sameSubscribers w) (fun _ => true).
Proof.
  split.
  - intros f w' H. exact H.
  - intros ev w' H. exact H.
  - intros e _ w' H. exact H.
  - intros cs w' H. exact H.
  - intros k0 w0 H0. exact H0.
Qed.

Lemma runAction_sameSubscribers w0 a w :
  isSubscription a = false ->
  sameSubscribers w0 w -> sameSubscribers w0 (runAction a w).
Proof.
  intros Ha H. pose proof (sameSubscribers_framed w0) as F.
  destruct a as [o | call]; cbn [runAction].
  - apply (runOp_preserves F); try reflexivity.
    + intros c w' H'. exact H'.
    + exact H.
  - destruct call; cbn [runCall]; try discriminate.
    + apply (start_preserves F); try reflexivity. exact H.
    + exact H.
    + apply (sendText_preserves F); try reflexivity. exact H.
    + apply (sendMedia_preserves F); try reflexivity. exact H.
Qed.

(** X11: no call of [start()], [reset()], [getStatus()], [sendText] or
    [sendMedia] and no client event adds or drops a subscriber: the
    listeners of the broadcaster change through [subscribe] and the
    functions it returns only, and they outlive every reset. *)
Theorem X11_subscribers_kept (acts : list Action) (w : World) :
  forallb (fun a => negb (isSubscription a)) acts = true ->
  emitter (runActions acts w) = emitter w.
Proof.
  unfold runActions.
  assert (H : forall w', sameSubscribers w w' ->
            forallb (fun a => negb (isSubscription a)) acts = true ->
            sameSubscribers w
              (fold_left (fun w a => runAction a w) acts w')).
  { induction acts as [|a acts IH]; intros w' Hw' Ha; cbn in *.
    - exact Hw'.
    - apply andb_prop in Ha. destruct Ha as [Ha Hacts].
      apply IH; [| exact Hacts].
      apply runAction_sameSubscribers; [| exact Hw'].
      destruct (isSubscription a); [discriminate | reflexivity]. }
  intro Ha. apply H; [reflexivity | exact Ha].
Qed.

Lemma X11_subscribers_kept_witness :
  emitter (runActions [ Do (OpClientEmit 0 (OnReady false));
                        Invoke (CallSendText plainRun (js "11999998888")
                                  (js "Oferta!"));
                        Do (OpReset failingTeardown);
                        Do (OpStart (rejected NotAnError)) ]
             watchedWorld)
  = [7].
Proof.
  rewrite X11_subscribers_kept; reflexivity.
Defined.

(** ** Registrations on clients *)

Lemma start_clientListeners initialize w :
  clientListeners (exec (startWhatsApp initialize) w)
  = clientListeners (exec attachListenersIfNeeded w).
Proof.
  destruct w as [c [st q le ini la ip] em cl pd tr].
  unfold startWhatsApp, attachListenersIfNeeded, client_on.
  destruct st, la, ini; js_run; try reflexivity.
  all: match goal with
       | |- context [deliverAll occur ?evs ?W] =>
           destruct (deliverAll_sameRegistry evs W) as (_ & Hl & _);
           rewrite (deliverAll_run evs W);
           destruct (exec (deliverAll occur evs) W)
             as [c1 [st1 q1 le1 ini1 la1 ip1] em1 cl1 pd1 tr1]
       end.
  all: cbn in Hl; subst cl1; destruct (settles initialize); reflexivity.
Qed.

(** The registrations [reset()] leaves: those it found, without the ones
    on the old client when the detachment succeeded, and one on the new
    client. *)
Lemma reset_clientListeners run w :
  clientListeners (exec (resetWhatsApp run) w)
  = match removeAll run with
    | Normal _ =>
        filter (fun x => negb (Nat.eqb x (client w))) (clientListeners w)
    | Throw _ => clientListeners w
    end ++ [S (client w)].
Proof.
  destruct w as [c [st q le ini la ip] em cl pd tr].
  unfold resetWhatsApp, client_removeAllListeners.
  destruct run as [[[]|e] d]; js_run.
  all: match goal with
       | |- context [deliverAll occur ?evs ?W] =>
           destruct (deliverAll_sameRegistry evs W) as (Hc & Hl & _);
           rewrite (deliverAll_run evs W);
           destruct (exec (deliverAll occur evs) W)
             as [c1 [st1 q1 le1 ini1 la1 ip1] em1 cl1 pd1 tr1]
       end.
  all: cbn in Hc, Hl; subst c1 cl1; destruct (settles d); reflexivity.
Qed.

Lemma attach_clientListeners w :
  clientListeners (exec attachListenersIfNeeded w)
  = if listenersAttached (state w) then clientListeners w
    else clientListeners w ++ [client w].
Proof.
  destruct w as [c [st q le ini la ip] em cl pd tr]. destruct la; reflexivity.
Qed.

Lemma clientEmit_sameRegistry c ev w :
  sameRegistry w (exec (clientEmit c ev) w).
Proof.
  assert (H : preserves (sameRegistry w) (clientEmit c ev)).
  { unfold clientEmit.
    apply preserves_bind; [apply preserves_gets | intro n].
    apply preserves_times. apply handle_sameRegistry. }
  apply H. repeat split.
Qed.

Lemma runOp_noDup o w :
  attachedOnce w ->
  NoDup (clientListeners w) -> NoDup (clientListeners (runOp o w)).
Proof.
  intros [Hle Hcount] Hnd. unfold ClientId in *. destruct o; cbn [runOp].
  - rewrite start_clientListeners, attach_clientListeners.
    destruct (listenersAttached (state w)); [exact Hnd |].
    apply NoDup_app; [exact Hnd | repeat constructor; intros [] |].
    intros x Hx [<- | []].
    apply (count_occ_In Nat.eq_dec) in Hx. lia.
  - rewrite reset_clientListeners.
    assert (Hsub : forall x,
              In x match removeAll run with
                   | Normal _ =>
                       filter (fun x => negb (Nat.eqb x (client w)))
                         (clientListeners w)
                   | Throw _ => clientListeners w
                   end -> In x (clientListeners w)).
    { intros x Hx. destruct (removeAll run); [| exact Hx].
      apply filter_In in Hx. apply Hx. }
    apply NoDup_app.
    + destruct (removeAll run); [apply NoDup_filter |]; exact Hnd.
    + repeat constructor. intros [].
    + intros x Hx [<- | []]. specialize (Hle _ (Hsub _ Hx)). lia.
  - destruct (clientEmit_sameRegistry c ev w) as (_ & Hl & _).
    rewrite Hl. exact Hnd.
  - destruct (@patchSettled_sameRegistry w outcome w) as (_ & Hl & _);
      [repeat split |].
    rewrite Hl. exact Hnd.
Qed.

Lemma registered_session w :
  inSession w -> attachedOnce w /\ NoDup (clientListeners w).
Proof.
  assert (Hreg : forall w0 w',
            sameRegistry w0 w' ->
            attachedOnce w0 /\ NoDup (clientListeners w0) ->
            attachedOnce w' /\ NoDup (clientListeners w')).
  { intros w0 w' Hs [Ha Hnd]. split.
    - exact (attachedOnce_registry Hs Ha).
    - destruct Hs as (_ & Hl & _). rewrite Hl. exact Hnd. }
  revert w. apply inSession_keeps.
  - intros es [c [st q le ini la ip] em cl pd tr] H. exact H.
  - intros v [c [st q le ini la ip] em cl pd tr] H. exact H.
  - intros n [c [st q le ini la ip] em cl pd tr] H. exact H.
  - intros ls [c [st q le ini la ip] em cl pd tr] H. exact H.
  - intros ev w H. apply (Hreg w); [| exact H].
    apply handle_sameRegistry. repeat split.
  - intros i w [Ha Hnd]. split.
    + apply start_attachedOnce. exact Ha.
    + apply (runOp_noDup (OpStart i)); assumption.
  - intros run w [Ha Hnd]. split.
    + apply reset_attachedOnce. exact Ha.
    + apply (runOp_noDup (OpReset run)); assumption.
  - split; [split; [intros c [] | reflexivity] | constructor].
Qed.

(** X12: in every state the session reaches, by calls of the exported
    functions and client events in any order, no client instance, the
    current one or an earlier one, carries the handlers more than once;
    so an event of a client runs the handlers once or not at all,
    however often [start()] and [reset()] were called and whatever
    failed in the teardown. *)
Theorem X12_handlers_registered_once
    (w : World) (c : ClientId) (ev : ClientEvent) :
  inSession w ->
  count_occ Nat.eq_dec (clientListeners w) c <= 1
  /\ (exec (clientEmit c ev) w = w
      \/ exec (clientEmit c ev) w = exec (handle ev) w).
Proof.
  intro Hr. destruct (registered_session Hr) as [_ Hnd].
  assert (Hc : count_occ Nat.eq_dec (clientListeners w) c <= 1).
  { apply (proj1 (NoDup_count_occ Nat.eq_dec _) Hnd). }
  split; [exact Hc |].
  destruct (count_occ Nat.eq_dec (clientListeners w) c) as [|[|k]] eqn:E.
  - left. unfold clientEmit, exec. rewrite bind_gets, E. reflexivity.
  - right. apply clientEmit_once. exact E.
  - lia.
Qed.

Lemma X12_handlers_registered_once_witness :
  count_occ Nat.eq_dec
    (clientListeners
       (runActions
          [ Do (OpStart (resolved tt)); Do (OpReset failingTeardown);
            Invoke (CallSendText plainRun (js "11999998888") (js "Oferta!"));
            Do (OpStart (resolved tt)) ]
          createSingleton)) 0
  <= 1.
Proof.
  refine (proj1 (@X12_handlers_registered_once _ 0
                   (OnQr (js "2@pairing-token")) _)).
  eexists. reflexivity.
Defined.

(** X13: after a [reset()] whose [removeAllListeners()] succeeded, the
    old client carries no handlers: whatever it still emits changes
    nothing and is broadcast to no one. *)
Theorem X13_old_client_ignored
    (run : Teardown) (ev : ClientEvent) (w : World) :
  removeAll run = Normal tt ->
  let w' := exec (resetWhatsApp run) w in
  count_occ Nat.eq_dec (clientListeners w') (client w) = 0
  /\ exec (clientEmit (client w) ev) w' = w'.
Proof.
  intros Hrm w'.
  assert (Hc : count_occ Nat.eq_dec (clientListeners w') (client w) = 0).
  { subst w'. rewrite reset_clientListeners, Hrm.
    unfold ClientId in *. rewrite count_occ_app.
    rewrite count_occ_cons_neq by lia. cbn [count_occ].
    rewrite Nat.add_0_r. apply count_occ_not_In. intro Hin.
    apply filter_In in Hin. destruct Hin as [_ Hin].
    rewrite Nat.eqb_refl in Hin. discriminate. }
  split; [exact Hc |].
  unfold clientEmit, exec. rewrite bind_gets, Hc. reflexivity.
Qed.

Lemma X13_old_client_ignored_witness :
  let w' := exec (resetWhatsApp {| removeAll := Normal tt;
                                   destroy := rejected NotAnError |})
              readyWorld in
  exec (clientEmit 0 (OnDisconnected (js "LOGOUT"))) w' = w'.
Proof.
  apply (@X13_old_client_ignored
           {| removeAll := Normal tt; destroy := rejected NotAnError |}
           (OnDisconnected (js "LOGOUT")) readyWorld eq_refl).
Defined.

(** ** The page patch *)

Section Patched.
Variable n : nat.

Lemma patched_modify f :
  (forall w, injectedPatched (state (f w)) = injectedPatched (state w)) ->
  (forall w, trace (f w) = trace w) ->
  preserves (patchedWith n) (modify f).
Proof.
  intros Hs Ht. apply preserves_modify. intros w [H1 H2].
  unfold patchedWith, calls. rewrite Hs, Ht. split; assumption.
Qed.

Lemma patched_record es :
  filter isEvaluate es = [] -> preserves (patchedWith n) (record es).
Proof.
  intros He w [H1 H2]. split; [exact H1 |].
  rewrite calls_record, He. simpl. rewrite Nat.add_0_r. exact H2.
Qed.

Lemma patched_emit ev : preserves (patchedWith n) (emit ev).
Proof.
  unfold emit. apply preserves_bind; [apply preserves_gets | intro ls].
  apply patched_record. fold (broadcast ls ev).
  apply filter_broadcast; reflexivity.
Qed.

Lemma patched_patch emitOne page evaluate :
  preserves (patchedWith n)
    (patchInjectedWWebJSIfNeeded emitOne page evaluate).
Proof.
  intros w [H1 H2]. unfold patchInjectedWWebJSIfNeeded, exec.
  rewrite !bind_gets, H1. split; assumption.
Qed.

Lemma patched_startPatch page : preserves (patchedWith n) (startPatch page).
Proof.
  intros w [H1 H2]. unfold startPatch, exec.
  rewrite !bind_gets, H1. split; assumption.
Qed.

Lemma patched_settled outcome :
  preserves (patchedWith n) (patchSettled outcome).
Proof.
  intros [c [st q le ini la ip] em cl pd tr] [H1 H2].
  destruct pd, outcome; split; solve [exact H1 | exact H2 | reflexivity].
Qed.

Ltac patched_prim :=
  idtac;
  match goal with
  | |- preserves _ (emit _) => apply patched_emit
  | |- preserves _ (patchInjectedWWebJSIfNeeded _ _ _) => apply patched_patch
  | |- preserves _ (startPatch _) => apply patched_startPatch
  | |- preserves _ (record [_]) => apply patched_record; reflexivity
  | |- preserves _ (modify _) =>
      apply patched_modify; intros [c [st q le ini la ip] em cl pd tr]; reflexivity
  end.

Ltac patched_with known := repeat first [ known | patched_prim | frame_step ].

Lemma patched_handle ev : preserves (patchedWith n) (handle ev).
Proof.
  destruct ev;
    unfold handle, emitState, getWhatsAppStatus, set_status, set_qr,
      set_lastError;
    patched_with fail.
Qed.

Lemma patched_clientEmit c ev : preserves (patchedWith n) (clientEmit c ev).
Proof.
  unfold clientEmit.
  patched_with ltac:(apply preserves_times; apply patched_handle).
Qed.

Lemma patched_occur o : preserves (patchedWith n) (occur o).
Proof.
  destruct o; simpl; [apply patched_clientEmit | apply patched_settled].
Qed.

Lemma patched_await {A} call (a : Await A) :
  isEvaluate call = false ->
  preserves (patchedWith n) (await occur call a).
Proof.
  intro Hc. unfold await.
  apply preserves_bind;
    [apply patched_record; simpl; rewrite Hc; reflexivity | intros _].
  apply preserves_bind;
    [apply preserves_deliverAll; apply patched_occur | intros _].
  apply preserves_settle.
Qed.

Ltac patched_calls :=
  idtac;
  match goal with
  | |- preserves _ (await _ _ _) => apply patched_await; reflexivity
  end.

Lemma patched_attach : preserves (patchedWith n) attachListenersIfNeeded.
Proof.
  unfold attachListenersIfNeeded, client_on, set_listenersAttached,
    set_clientListeners.
  patched_with fail.
Qed.

Lemma patched_start initialize :
  preserves (patchedWith n) (startWhatsApp initialize).
Proof.
  unfold startWhatsApp, emitState, getWhatsAppStatus, set_status,
    set_lastError, set_initialized.
  patched_with ltac:(first [ patched_calls | apply patched_attach ]).
Qed.

Lemma patched_resolve run c num :
  preserves (patchedWith n) (resolveWhatsAppChatId run c num).
Proof.
  unfold resolveWhatsAppChatId, throwError. patched_with patched_calls.
Qed.

Ltac patched_exported :=
  first
    [ patched_calls
    | match goal with
      | |- preserves _ (startWhatsApp _) => apply patched_start
      | |- preserves _ (resolveWhatsAppChatId _ _ _) => apply patched_resolve
      end ].

Lemma patched_sendText run num m :
  preserves (patchedWith n) (sendWhatsAppMessage run num m).
Proof.
  unfold sendWhatsAppMessage, throwError. patched_with patched_exported.
Qed.

Lemma patched_sendMedia run num d c o :
  preserves (patchedWith n) (sendWhatsAppMedia run num d c o).
Proof.
  unfold sendWhatsAppMedia, throwError. patched_with patched_exported.
Qed.

Lemma patched_runAction a w :
  isReset a = false -> patchedWith n w -> patchedWith n (runAction a w).
Proof.
  intros Ha H. destruct a as [[i | run | c ev | out] | k]; try discriminate;
    cbn [runAction runOp].
  - apply patched_start. exact H.
  - apply patched_clientEmit. exact H.
  - apply patched_settled. exact H.
  - destruct k; cbn [runCall].
    + apply patched_start. exact H.
    + exact H.
    + apply patched_sendText. exact H.
    + apply patched_sendMedia. exact H.
    + exact H.
    + exact H.
Qed.
End Patched.

(** The [ready] handler does not wait for its [page.evaluate]: until
    that call resolves the flag is not set, and a send in between
    evaluates the page of the same client a second time. *)
Example evaluated_twice_before_settled :
  let w := runActions
             [ Do (OpStart (resolved tt));
               Do (OpClientEmit 0 (OnReady true));
               Invoke (CallSendText plainRun (js "11999998888")
                         (js "Oferta!")) ]
             createSingleton in
  filter isEvaluate (trace w) = [PageEvaluate 0; PageEvaluate 0]
  /\ pendingPatches w = 1.
Proof. vm_compute. split; reflexivity. Qed.

(** A [page.evaluate] left pending survives a [reset()]: when it
    resolves it sets the flag that [reset()] cleared, although the page
    of the new client was never evaluated. *)
Example settled_after_reset :
  let w := runOps [ OpStart (resolved tt);
                    OpClientEmit 0 (OnReady true);
                    OpReset failingTeardown;
                    OpEvaluateSettles (Normal tt) ]
             createSingleton in
  client w = 1
  /\ injectedPatched (state w) = true
  /\ filter isEvaluate (trace w) = [PageEvaluate 0].
Proof. vm_compute. repeat split; reflexivity. Qed.

(** X14: once the [injectedPatched] flag is set, no call of the module,
    no client event and no settling of a pending [page.evaluate]
    evaluates the page again, and the flag stays set, until [reset()]
    clears it. *)
Theorem X14_page_patched_once (acts : list Action) (w : World) :
  injectedPatched (state w) = true ->
  forallb (fun a => negb (isReset a)) acts = true ->
  injectedPatched (state (runActions acts w)) = true
  /\ calls isEvaluate (runActions acts w) = calls isEvaluate w.
Proof.
  intros Hp Hacts.
  assert (H : patchedWith (calls isEvaluate w) (runActions acts w)).
  { assert (H0 : patchedWith (calls isEvaluate w) w) by (split; trivial).
    revert H0. generalize (calls isEvaluate w) as n. clear Hp.
    revert w. unfold runActions.
    induction acts as [|a acts IH]; intros w n H0; simpl in *.
    - exact H0.
    - apply andb_prop in Hacts. destruct Hacts as [Ha Hacts].
      apply IH; [exact Hacts |].
      apply patched_runAction; [| exact H0].
      destruct (isReset a); [discriminate | reflexivity]. }
  exact H.
Qed.

Lemma X14_page_patched_once_witness :
  calls isEvaluate
    (runActions
       [ Invoke (CallSendText plainRun (js "11999998888") (js "Oferta!"));
         Do (OpClientEmit 0 (OnReady true));
         Do (OpEvaluateSettles (Throw NotAnError));
         Invoke (CallSendMedia plainRun (js "me") pdfData None (Some true)) ]
       patchedWorld)
  = calls isEvaluate patchedWorld.
Proof.
  refine (proj2 (@X14_page_patched_once _ patchedWorld _ _));
    vm_compute; reflexivity.
Defined.

(** ** Inbound messages *)

(** X15: an inbound message of the current client is relayed to the
    subscribers as one [message] event, once per registration of a
    subscriber, with no [state] event after it; the session state stays
    as it was. *)
Theorem X15_inbound_message_relayed
    (w : World) (from body id : jsstring) :
  inSession w ->
  listenersAttached (state w) = true ->
  let w' := exec (clientEmit (client w) (OnMessage from body id)) w in
  state w' = state w
  /\ client w' = client w
  /\ emitter w' = emitter w
  /\ trace w'
     = trace w ++ broadcast (emitter w) (Event.message from body id)
  /\ forall l,
       deliveredTo l (trace w')
       = deliveredTo l (trace w)
         ++ repeat (Event.message from body id)
              (count_occ Nat.eq_dec (emitter w) l).
Proof.
  intros Hr Hla w'.
  destruct (registered_session Hr) as [[_ Hc] _]. rewrite Hla in Hc.
  subst w'. rewrite (@clientEmit_once _ (OnMessage from body id) _ Hc).
  destruct w as [c [st q le ini la ip] em cl pd tr].
  repeat split.
  intro l. cbn. rewrite deliveredTo_app.
  fold (broadcast em (Event.message from body id)).
  rewrite deliveredTo_broadcast. reflexivity.
Qed.

Lemma X15_inbound_message_relayed_witness :
  deliveredTo 7
    (trace (exec (clientEmit 0 (OnMessage (js "5511999998888@c.us")
                                  (js "Oi") (js "3EB0"))) watchedWorld))
  = deliveredTo 7 (trace watchedWorld)
    ++ [Event.message (js "5511999998888@c.us") (js "Oi") (js "3EB0")].
Proof.
  refine (proj2 (proj2 (proj2 (proj2
            (@X15_inbound_message_relayed watchedWorld
               (js "5511999998888@c.us") (js "Oi") (js "3EB0") _ _)))) 7).
  - exists [Invoke (CallSubscribe 7); Do (OpStart (resolved tt))].
    vm_compute. reflexivity.
  - reflexivity.
Defined.

(** ** Strings of the routes *)

Lemma trimStart_clean s : startsClean (JsString.trimStart s) = true.
Proof.
  induction s as [|c s IH]; simpl; [reflexivity |].
  destruct (JsString.isWhiteSpace c) eqn:E; [exact IH |].
  simpl. rewrite E. reflexivity.
Qed.

Lemma clean_trimStart s : startsClean s = true -> JsString.trimStart s = s.
Proof.
  destruct s as [|c s]; simpl; [reflexivity |].
  destruct (JsString.isWhiteSpace c); [discriminate | reflexivity].
Qed.

Lemma trimStart_suffix s : exists ws, s = ws ++ JsString.trimStart s.
Proof.
  induction s as [|c s [ws IH]]; simpl.
  - exists []. reflexivity.
  - destruct (JsString.isWhiteSpace c).
    + exists (c :: ws). simpl. rewrite <- IH. reflexivity.
    + exists []. reflexivity.
Qed.

Lemma trimEnd_prefix s : exists ws, s = JsString.trimEnd s ++ ws.
Proof.
  unfold JsString.trimEnd.
  destruct (trimStart_suffix (rev s)) as [ws H].
  exists (rev ws). rewrite <- rev_app_distr, <- H, rev_involutive. reflexivity.
Qed.

Lemma trim_clean s :
  startsClean s = true -> startsClean (rev s) = true -> JsString.trim s = s.
Proof.
  intros H1 H2. unfold JsString.trim, JsString.trimEnd.
  rewrite (clean_trimStart _ H1), (clean_trimStart _ H2).
  apply rev_involutive.
Qed.

Lemma trim_ends s :
  startsClean (JsString.trim s) = true
  /\ startsClean (rev (JsString.trim s)) = true.
Proof.
  unfold JsString.trim, JsString.trimEnd. split.
  - pose proof (trimStart_clean s) as Hc.
    destruct (trimEnd_prefix (JsString.trimStart s)) as [ws Hp].
    unfold JsString.trimEnd in Hp.
    destruct (rev (JsString.trimStart (rev (JsString.trimStart s)))) as [|c r] eqn:E;
      [reflexivity |].
    rewrite Hp in Hc. exact Hc.
  - rewrite rev_involutive. apply trimStart_clean.
Qed.

(** [trim] is idempotent. *)
Lemma trim_trim s : JsString.trim (JsString.trim s) = JsString.trim s.
Proof. destruct (trim_ends s) as [H1 H2]. apply trim_clean; assumption. Qed.

Lemma noWhiteSpace_clean s t :
  noWhiteSpace s = true -> s <> [] -> startsClean (s ++ t) = true.
Proof.
  destruct s as [|c s]; [congruence |]. simpl. intros H _.
  apply andb_prop in H. apply H.
Qed.

Lemma noWhiteSpace_rev s : noWhiteSpace s = true -> noWhiteSpace (rev s) = true.
Proof.
  unfold noWhiteSpace. rewrite !forallb_forall. intros H x Hx.
  apply H. apply in_rev. exact Hx.
Qed.

Lemma noWhiteSpace_trim s :
  noWhiteSpace s = true -> JsString.trim s = s.
Proof.
  intro H. destruct s as [|c s]; [reflexivity |].
  apply trim_clean.
  - rewrite <- (app_nil_r (c :: s)).
    apply noWhiteSpace_clean; [exact H | discriminate].
  - rewrite <- (app_nil_r (rev (c :: s))).
    apply noWhiteSpace_clean; [apply noWhiteSpace_rev; exact H |].
    simpl. intro E. apply app_eq_nil in E. destruct E; discriminate.
Qed.

Lemma indexOf_first c p q :
  without c p = true -> indexOf c (p ++ c :: q) = Some (List.length p).
Proof.
  induction p as [|x p IH]; simpl; intro H.
  - rewrite N.eqb_refl. reflexivity.
  - apply andb_prop in H. destruct H as [Hx Hp].
    destruct (N.eqb x c); [discriminate |].
    rewrite (IH Hp). reflexivity.
Qed.

Lemma split_first c p q :
  without c p = true -> split c (p ++ c :: q) = p :: split c q.
Proof.
  induction p as [|x p IH]; simpl; intro H.
  - rewrite N.eqb_refl. reflexivity.
  - apply andb_prop in H. destruct H as [Hx Hp].
    destruct (N.eqb x c); [discriminate |].
    rewrite (IH Hp). reflexivity.
Qed.

Lemma without_app c p q :
  without c (p ++ q) = without c p && without c q.
Proof. apply forallb_app. Qed.

(** ** [parseDataUrl] *)

Lemma parseDataUrl_trimmed input parsedUrl :
  SendRoute.parseDataUrl input = Some parsedUrl ->
  exists m b,
    parsedUrl = {| SendRoute.dataUrl_mimeType := JsString.trim m;
                   SendRoute.dataUrl_base64 := JsString.trim b |}
    /\ JsString.truthy (JsString.trim m) = true
    /\ JsString.truthy (JsString.trim b) = true.
Proof.
  unfold SendRoute.parseDataUrl. cbv zeta.
  destruct (negb (JsString.startsWith (js "data:") (JsString.trim input)));
    [discriminate |].
  destruct (indexOf comma (JsString.trim input)) as [k|]; [| discriminate].
  match goal with
  | |- context [existsb ?f ?l] => destruct (existsb f l)
  end; [| discriminate]. cbn [negb].
  match goal with
  | |- (if negb (JsString.truthy (JsString.trim ?m))
           || negb (JsString.truthy (JsString.trim ?b)) then _ else _)
       = _ -> _ =>
      destruct (JsString.truthy (JsString.trim m)) eqn:Em;
      destruct (JsString.truthy (JsString.trim b)) eqn:Eb;
      cbn [negb orb]; try discriminate;
      intro H; injection H as <-; exists m, b
  end.
  repeat split; assumption.
Qed.

(** X17: what [parseDataUrl] returns is ready to send: the media type
    and the payload are not empty and carry no white space at their
    ends, so [sendWhatsAppMedia] takes them as they are and never
    answers that the media is invalid. *)
Theorem X17_parseDataUrl_wellformed
    (input : jsstring) (parsedUrl : SendRoute.DataUrl) :
  SendRoute.parseDataUrl input = Some parsedUrl ->
  let mime := SendRoute.dataUrl_mimeType parsedUrl in
  let b64 := SendRoute.dataUrl_base64 parsedUrl in
  JsString.truthy mime = true
  /\ JsString.truthy b64 = true
  /\ JsString.trim mime = mime
  /\ JsString.trim b64 = b64
  /\ forall fname,
       mediaContent {| mimeType := mime; base64 := b64; filename := fname |}
       = Media mime b64 (orUndefined (JsString.trim (orEmpty fname))).
Proof.
  intros H mime b64.
  destruct (parseDataUrl_trimmed _ H) as (m & b & -> & Em & Eb).
  subst mime b64. cbn [SendRoute.dataUrl_mimeType SendRoute.dataUrl_base64].
  split; [exact Em |]. split; [exact Eb |].
  split; [apply trim_trim |]. split; [apply trim_trim |].
  intro fname. unfold mediaContent. cbn [mimeType base64 filename].
  rewrite !trim_trim. reflexivity.
Qed.

Lemma X17_parseDataUrl_wellformed_witness :
  JsString.trim (js "application/pdf") = js "application/pdf".
Proof.
  refine (proj1 (proj2 (proj2
            (@X17_parseDataUrl_wellformed
               (js "  data: application/pdf ; BASE64 , JVBERi0xLjcK ")
               {| SendRoute.dataUrl_mimeType := js "application/pdf";
                  SendRoute.dataUrl_base64 := js "JVBERi0xLjcK" |} _)))).
  vm_compute. reflexivity.
Defined.

Lemma data_prefix s : JsString.startsWith (js "data:") (js "data:" ++ s) = true.
Proof. reflexivity. Qed.

(** X18: a base64 data URL is read back as it was built: for a media
    type and a payload that are not empty and hold no white space, the
    media type holding neither [;] nor [,], [parseDataUrl] returns
    exactly the two. *)
Theorem X18_parseDataUrl_roundtrip (mime b64 : jsstring) :
  mime <> [] -> b64 <> [] ->
  noWhiteSpace mime = true -> noWhiteSpace b64 = true ->
  without semicolon mime = true -> without comma mime = true ->
  SendRoute.parseDataUrl (base64DataUrl mime b64)
  = Some {| SendRoute.dataUrl_mimeType := mime;
            SendRoute.dataUrl_base64 := b64 |}.
Proof.
  intros Hm Hb Hwm Hwb Hsm Hcm.
  assert (Hin : noWhiteSpace (base64DataUrl mime b64) = true).
  { unfold base64DataUrl, noWhiteSpace in *.
    rewrite !forallb_app, Hwm, Hwb. reflexivity. }
  unfold SendRoute.parseDataUrl. cbv zeta.
  rewrite (noWhiteSpace_trim _ Hin).
  unfold base64DataUrl at 1. rewrite data_prefix. cbn [negb].
  assert (Hshape : base64DataUrl mime b64
                   = (js "data:" ++ mime ++ js ";base64") ++ comma :: b64).
  { unfold base64DataUrl. rewrite <- !app_assoc. reflexivity. }
  assert (Hidx : indexOf comma (base64DataUrl mime b64)
                 = Some (5 + (List.length mime + 7))).
  { rewrite Hshape, indexOf_first.
    - rewrite !length_app. reflexivity.
    - rewrite !without_app, Hcm. reflexivity. }
  rewrite Hidx.
  assert (Hmeta : sliceBetween (List.length (js "data:"))
                    (5 + (List.length mime + 7)) (base64DataUrl mime b64)
                  = mime ++ js ";base64").
  { unfold sliceBetween.
    change (List.length (js "data:")) with 5.
    replace (5 + (List.length mime + 7) - 5) with (List.length mime + 7) by lia.
    unfold base64DataUrl.
    change (skipn 5 (js "data:" ++ mime ++ js ";base64," ++ b64))
      with (mime ++ js ";base64," ++ b64).
    change (js ";base64," ++ b64) with (js ";base64" ++ comma :: b64).
    rewrite app_assoc.
    rewrite firstn_app.
    replace (List.length mime + 7 - List.length (mime ++ js ";base64"))
      with 0 by (rewrite length_app; simpl; lia).
    rewrite firstn_all2 by (rewrite length_app; simpl; lia).
    simpl. apply app_nil_r. }
  rewrite Hmeta.
  assert (Hb64 : JsString.slice (5 + (List.length mime + 7) + 1)
                   (base64DataUrl mime b64) = b64).
  { unfold JsString.slice. rewrite Hshape.
    replace (5 + (List.length mime + 7) + 1)
      with (List.length (js "data:" ++ mime ++ js ";base64") + 1)
      by (rewrite !length_app; simpl; lia).
    rewrite skipn_app.
    rewrite skipn_all2 by lia.
    replace (List.length (js "data:" ++ mime ++ js ";base64") + 1
             - List.length (js "data:" ++ mime ++ js ";base64")) with 1 by lia.
    reflexivity. }
  rewrite Hb64, (noWhiteSpace_trim _ Hwb).
  assert (Hwmeta : noWhiteSpace (mime ++ js ";base64") = true).
  { unfold noWhiteSpace in *. rewrite forallb_app, Hwm. reflexivity. }
  rewrite (noWhiteSpace_trim _ Hwmeta).
  change (js ";base64") with (semicolon :: js "base64").
  rewrite (@split_first semicolon mime (js "base64") Hsm).
  change (split semicolon (js "base64")) with [js "base64"].
  cbn [map filter]. rewrite (noWhiteSpace_trim _ Hwm).
  change (JsString.trim (js "base64")) with (js "base64").
  assert (Etm : JsString.truthy mime = true)
    by (destruct mime; [contradiction | reflexivity]).
  assert (Etb : JsString.truthy b64 = true)
    by (destruct b64; [contradiction | reflexivity]).
  rewrite Etm.
  change (JsString.truthy (js "base64")) with true.
  cbn [hd existsb]. rewrite (noWhiteSpace_trim _ Hwm), Etm, Etb.
  change (JsString.eqb (JsString.toLowerCase (js "base64")) (js "base64"))
    with true.
  rewrite orb_true_r. reflexivity.
Qed.

Lemma X18_parseDataUrl_roundtrip_witness :
  SendRoute.parseDataUrl (js "data:image/png;base64,iVBORw0KGgo=")
  = Some {| SendRoute.dataUrl_mimeType := js "image/png";
            SendRoute.dataUrl_base64 := js "iVBORw0KGgo=" |}.
Proof.
  apply (@X18_parseDataUrl_roundtrip (js "image/png") (js "iVBORw0KGgo="));
    try discriminate; vm_compute; reflexivity.
Defined.

(** ** The start route *)

Lemma keepsInits_framed made : Framed (keepsInits made) (others isInitialize).
Proof.
  split.
  - intros f w H. exact H.
  - intros ev w H. unfold keepsInits, initializeCalls, emit, exec in *.
    rewrite bind_gets. simpl. rewrite filter_app.
    fold (broadcast (emitter w) ev).
    rewrite (filter_broadcast isInitialize isInitialize_emit
               isInitialize_deliver), app_nil_r.
    exact H.
  - intros e He w H. unfold keepsInits, initializeCalls in *. simpl.
    rewrite filter_app. simpl. unfold others in He.
    destruct (isInitialize e); [discriminate |]. rewrite app_nil_r. exact H.
  - intros cs w H. exact H.
  - intros k0 w0 H0. exact H0.
Qed.

Lemma deliverAll_keeps_inits evs w :
  initializeCalls (exec (deliverAll occur evs) w) = initializeCalls w.
Proof.
  apply (deliverAll_preserves (keepsInits_framed (initializeCalls w)));
    reflexivity.
Qed.

Lemma reset_keeps_inits run w :
  initializeCalls (exec (resetWhatsApp run) w) = initializeCalls w.
Proof.
  apply (reset_preserves (keepsInits_framed (initializeCalls w)));
    try reflexivity.
  intros c w' H. exact H.
Qed.

Lemma reset_fresh_client run w :
  client (exec (resetWhatsApp run) w) = S (client w).
Proof.
  unfold resetWhatsApp, exec. rewrite bind_gets, bind_run.
  match goal with
  | |- context [tryCatch ?m ?h w] =>
      assert (Hs : sameHandle w (exec (tryCatch m h) w));
      [ | destruct (@total_tryCatch _ m h (fun _ => total_ret tt) w) as [[] Hp];
          unfold eval, exec in Hp, Hs;
          destruct (tryCatch m h w) as [r [c1 [st q le ini la ip] em cl pd tr]] ]
  end.
  - apply (teardown_preserves (sameHandle_framed w)); try reflexivity.
    split; reflexivity.
  - simpl in Hp. subst r. destruct Hs as [Hc _]. simpl in Hc. subst c1.
    destruct la; reflexivity.
Qed.

(** When [start()] gets as far as [initialize()], it calls it once, on
    the current client. *)
Lemma start_initializes_current initialize w :
  ~ started w ->
  initialized (state w) = false ->
  initializeCalls (exec (startWhatsApp initialize) w)
  = initializeCalls w ++ [ClientInitialize (client w)].
Proof.
  destruct w as [c [st q le ini la ip] em cl pd tr].
  unfold started. simpl. intros Hs ->.
  unfold startWhatsApp.
  destruct st; try (exfalso; apply Hs; auto; fail);
    destruct la; js_run.
  all: match goal with
       | |- context [deliverAll occur ?evs ?W] =>
           pose proof (deliverAll_keeps_inits evs W) as Hk;
           rewrite (deliverAll_run evs W);
           destruct (exec (deliverAll occur evs) W)
             as [c1 [st1 q1 le1 ini1 la1 ip1] em1 cl1 pd1 tr1]
       end.
  all: unfold initializeCalls in *; cbn in Hk |- *.
  all: destruct (settles initialize); cbn.
  all: repeat (rewrite ?filter_app in *; cbn in * ).
  all: rewrite ?filter_deliveries in * by (intro; reflexivity).
  all: cbn in *; rewrite ?app_nil_r in *; exact Hk.
Qed.

(** X16: a forced start, [?force=1] on either method of the start
    route, always makes a new client and calls [initialize()] on it,
    once, whatever state the session was in and whatever fails in the
    teardown of the old client; it answers 200 with the status data
    the session then has. *)
Theorem X16_forced_start
    (request : StartRoute.Request) (teardown : Teardown)
    (initialize : Await unit) (w : World) :
  StartRoute.shouldForce request = true ->
  let r := StartRoute.GET request teardown initialize w in
  let w' := snd r in
  fst r = Normal (json (StatusBody (statusData w')) 200)
  /\ client w' = S (client w)
  /\ initializeCalls w'
     = initializeCalls w ++ [ClientInitialize (S (client w))]
  /\ StartRoute.POST request teardown initialize w = r.
Proof.
  intros Hf r w'. subst w' r. unfold StartRoute.GET, StartRoute.POST.
  rewrite Hf. rewrite !bind_run, reset_returns. cbn [ret].
  set (w1 := exec (resetWhatsApp teardown) w).
  rewrite !bind_run, start_returns. cbn [fst snd ret].
  assert (Hs : state w1 = stateAfterReset) by apply reset_state.
  assert (Hc : client w1 = S (client w)) by apply reset_fresh_client.
  assert (Hn : ~ started w1).
  { unfold started. rewrite Hs. cbn. intros [H|[H|H]]; discriminate. }
  assert (Hi : initialized (state w1) = false) by (rewrite Hs; reflexivity).
  pose proof (start_initializes_current initialize Hn Hi) as Hk.
  rewrite Hc in Hk. unfold w1 in Hk at 2. rewrite reset_keeps_inits in Hk.
  split; [reflexivity |]. split; [| split; [exact Hk | reflexivity]].
  assert (Hx : extends w1 (exec (startWhatsApp initialize) w1)).
  { apply (start_preserves (extends_framed w1)); try reflexivity.
    apply extends_refl. }
  destruct Hx as [Hx _]. rewrite Hx. exact Hc.
Qed.

Lemma X16_forced_start_witness :
  client (snd (StartRoute.GET forcedRequest failingTeardown (resolved tt)
                 readyWorld))
  = 1.
Proof.
  refine (proj1 (proj2
            (@X16_forced_start forcedRequest failingTeardown (resolved tt)
               readyWorld _))).
  reflexivity.
Defined.

(** ** The send route *)

Lemma read_body (request : SendRoute.Request) w :
  tryCatch (b <- awaitPlatform (SendRoute.body request) ;; ret (Some b))
    (fun _ => ret None) w
  = (Normal (match settles (SendRoute.body request) with
             | Normal b => Some b
             | Throw _ => None
             end),
     afterBody request w).
Proof.
  unfold tryCatch, awaitPlatform, afterBody.
  rewrite !bind_run, deliverAll_run.
  destruct (settles (SendRoute.body request)); reflexivity.
Qed.

Lemma finish_send (m : Js unit) w :
  match (m ;; ret (json OkBody 200)) w with
  | (Normal a, w') => (Normal a, w')
  | (Throw e, w') =>
      ret (json (ErrorBody (match e with
                            | JsError message => message
                            | NotAnError => js "Erro inesperado."
                            end)) 500) w'
  end
  = (Normal (answered (fst (m w))), snd (m w)).
Proof. rewrite bind_run. destruct (m w) as [[[]|e] w']; reflexivity. Qed.

(** The ways the send route ends. *)
Lemma POST_cases request initialize run w :
  let r := SendRoute.POST request initialize run w in
  let wb := afterBody request w in
  let w0 := exec (startWhatsApp initialize) wb in
  match SendRoute.isAdminRequest request with
  | false => r = (Normal (json (ErrorBody (js "Unauthorized")) 401), w)
  | true =>
  match validated request with
  | None => exists msg, r = (Normal (json (ErrorBody msg) 400), wb)
  | Some parsed =>
      if negb (Status.eqb (status (state w0)) Status.ready)
      then r = (Normal (json (ErrorBody (js "WhatsApp não está conectado."))
                          409), w0)
      else
        if JsString.truthy
             (JsString.trim (orEmpty (SendRoute.parsed_mediaDataUrl parsed)))
        then
          match SendRoute.parseDataUrl
                  (JsString.trim
                     (orEmpty (SendRoute.parsed_mediaDataUrl parsed))) with
          | None =>
              r = (Normal (json (ErrorBody (js "mediaDataUrl inválido.")) 400),
                   w0)
          | Some u =>
              let s := sendWhatsAppMedia run (SendRoute.parsed_number parsed)
                         (routeMedia parsed u)
                         (Some (SendRoute.parsed_message parsed))
                         (Some (isPdf u)) w0 in
              r = (Normal (answered (fst s)), snd s)
          end
        else
          let s := sendWhatsAppMessage run (SendRoute.parsed_number parsed)
                     (SendRoute.parsed_message parsed) w0 in
          r = (Normal (answered (fst s)), snd s)
  end
  end.
Proof.
  intros r wb w0. subst r. unfold SendRoute.POST, validated.
  destruct (SendRoute.isAdminRequest request); cbn [negb]; [| reflexivity].
  rewrite bind_run, read_body. fold wb.
  destruct (settles (SendRoute.body request)) as [b|e];
    [| eexists; reflexivity].
  destruct (SendRoute.requestSchema b) as [parsed|]; [| eexists; reflexivity].
  unfold tryCatch. rewrite bind_run, start_returns. fold w0.
  change (data_status (statusData w0)) with (status (state w0)).
  destruct (Status.eqb (status (state w0)) Status.ready); cbn [negb];
    [| reflexivity].
  cbv zeta.
  destruct (JsString.truthy
              (JsString.trim (orEmpty (SendRoute.parsed_mediaDataUrl parsed)))).
  - destruct (SendRoute.parseDataUrl
                (JsString.trim
                   (orEmpty (SendRoute.parsed_mediaDataUrl parsed))))
      as [u|]; [| reflexivity].
    exact (finish_send
             (sendWhatsAppMedia run (SendRoute.parsed_number parsed)
                (routeMedia parsed u)
                (Some (SendRoute.parsed_message parsed)) (Some (isPdf u)))
             w0).
  - exact (finish_send
             (sendWhatsAppMessage run (SendRoute.parsed_number parsed)
                (SendRoute.parsed_message parsed))
             w0).
Qed.

Lemma requestSchema_some b parsed :
  SendRoute.requestSchema b = Some parsed ->
  JsString.truthy (SendRoute.parsed_number parsed) = true
  /\ (JsString.truthy
        (JsString.trim (orEmpty (SendRoute.parsed_mediaDataUrl parsed))) = false ->
      JsString.truthy (JsString.trim (SendRoute.parsed_message parsed)) = true).
Proof.
  unfold SendRoute.requestSchema.
  destruct b as [|[number message media fname]]; [discriminate |].
  cbn [SendRoute.field_number SendRoute.field_message
       SendRoute.field_mediaDataUrl SendRoute.field_filename].
  destruct number as [|number|]; try discriminate.
  destruct (SendRoute.optionalString message) as [m|]; [| discriminate].
  destruct (SendRoute.optionalString media) as [d|]; [| discriminate].
  destruct (SendRoute.optionalString fname) as [f|]; [| discriminate].
  destruct number as [|x number]; [discriminate |].
  cbv zeta. cbn [List.length Nat.leb negb SendRoute.parsed_mediaDataUrl
                 SendRoute.parsed_message].
  destruct (JsString.truthy (JsString.trim (orEmpty d))) eqn:Ed;
    destruct (JsString.truthy (JsString.trim (orEmpty m))) eqn:Em;
    cbn [negb andb]; try discriminate;
    intro H; injection H as <-;
    cbn [SendRoute.parsed_number SendRoute.parsed_mediaDataUrl
         SendRoute.parsed_message];
    (split; [reflexivity |]); intro H'; congruence.
Qed.

Lemma start_again_ready initialize w :
  Status.eqb (status (state w)) Status.ready = true ->
  Status.eqb (status (state (exec (startWhatsApp initialize) w))) Status.ready
  = true.
Proof.
  intro H. pose proof (status_eqb_true _ _ H) as Hr.
  assert (Hs : started w) by (left; exact Hr).
  pose proof (start_when_started initialize Hs) as Hw.
  unfold exec at 1. rewrite Hw. cbn [snd].
  pose proof (f_equal data_status (attach_statusData w)) as Ha.
  cbn [statusData data_status] in Ha. rewrite Ha. exact H.
Qed.

Lemma resolve_throws_known run c n w e :
  eval (resolveWhatsAppChatId run c n) w = Throw e ->
  e = JsError msgInvalidNumber
  \/ e = JsError msgSelfUnavailable
  \/ e = JsError msgNotOnNetwork.
Proof.
  unfold eval. intro H.
  destruct (resolve_outcome run c n w) as [[_ Hr] | (_ & _ & _ & Hr)];
    cbv zeta in Hr; rewrite H in Hr.
  - destruct Hr as [Hr | [Hr | (id' & Hr & _)]].
    + injection Hr as ->. left. reflexivity.
    + injection Hr as ->. right. left. reflexivity.
    + discriminate.
  - destruct Hr as [Hr | (id' & Hr & _)]; [| discriminate].
    injection Hr as ->. right. right. reflexivity.
Qed.

Lemma route_text_ends run n m w0 :
  Status.eqb (status (state w0)) Status.ready = true ->
  JsString.truthy (JsString.trim m) = true ->
  sendEnds run w0 (Text m) textOptions (sendWhatsAppMessage run n m w0).
Proof.
  intros Hready Hm.
  pose proof (start_again_ready (run_initialize run) _ Hready) as H1.
  pose proof (start_keeps_sendCalls (run_initialize run) w0) as Hk.
  destruct (sendText_outcome run n m w0)
    as [[Hn _]
       | [(_ & Hb & _)
         | (_ & _ & [(e & He & Hres & Hs) | (chatId & Hres & Hs & Hf)])]].
  - rewrite H1 in Hn. discriminate.
  - rewrite Hm in Hb. discriminate.
  - left. exists e. split; [exact He |]. split.
    + exact (resolve_throws_known _ _ _ _ Hres).
    + rewrite Hs. exact Hk.
  - right. exists chatId.
    split; [exact (resolve_returns_truthy _ _ _ _ Hres) |].
    split; [rewrite Hs, Hk; reflexivity | exact Hf].
Qed.

Lemma route_media_ends run n data captionArg asDocument w0 :
  Status.eqb (status (state w0)) Status.ready = true ->
  JsString.truthy (JsString.trim (mimeType data)) = true ->
  JsString.truthy (JsString.trim (base64 data)) = true ->
  sendEnds run w0 (mediaContent data) (mediaOptions captionArg asDocument)
    (sendWhatsAppMedia run n data captionArg asDocument w0).
Proof.
  intros Hready Hm Hb.
  pose proof (start_again_ready (run_initialize run) _ Hready) as H1.
  pose proof (start_keeps_sendCalls (run_initialize run) w0) as Hk.
  destruct (sendMedia_outcome run n data captionArg asDocument w0)
    as [[Hn _]
       | [(_ & Hv & _)
         | (_ & _ & [(e & He & Hres & Hs) | (chatId & Hres & Hs & Hf)])]].
  - rewrite H1 in Hn. discriminate.
  - rewrite Hm, Hb in Hv. discriminate.
  - left. exists e. split; [exact He |]. split.
    + exact (resolve_throws_known _ _ _ _ Hres).
    + rewrite Hs. exact Hk.
  - right. exists chatId.
    split; [exact (resolve_returns_truthy _ _ _ _ Hres) |].
    split; [rewrite Hs, Hk; reflexivity | exact Hf].
Qed.

Lemma route_world request initialize w :
  let w0 := exec (startWhatsApp initialize) (afterBody request w) in
  client w0 = client w
  /\ sendCalls w0 = sendCalls w
  /\ sendCalls (afterBody request w) = sendCalls w
  /\ initializeCalls (afterBody request w) = initializeCalls w.
Proof.
  intro w0. subst w0. unfold afterBody.
  set (evs := during (SendRoute.body request)).
  destruct (deliverAll_extends evs w) as (Hc & _ & _).
  assert (Hx : extends (exec (deliverAll occur evs) w)
                 (exec (startWhatsApp initialize)
                    (exec (deliverAll occur evs) w))).
  { apply (start_preserves (extends_framed _)); try reflexivity.
    apply extends_refl. }
  destruct Hx as [Hx _].
  split; [rewrite Hx; exact Hc |].
  split; [rewrite start_keeps_sendCalls; apply deliverAll_keeps_sendCalls |].
  split; [apply deliverAll_keeps_sendCalls | apply deliverAll_keeps_inits].
Qed.

Lemma parsed_media_valid input u :
  SendRoute.parseDataUrl input = Some u ->
  JsString.truthy (JsString.trim (SendRoute.dataUrl_mimeType u)) = true
  /\ JsString.truthy (JsString.trim (SendRoute.dataUrl_base64 u)) = true
  /\ JsString.trim (SendRoute.dataUrl_mimeType u) = SendRoute.dataUrl_mimeType u
  /\ JsString.trim (SendRoute.dataUrl_base64 u) = SendRoute.dataUrl_base64 u.
Proof.
  intro H. destruct (parseDataUrl_trimmed _ H) as (m & b & -> & Em & Eb).
  cbn [SendRoute.dataUrl_mimeType SendRoute.dataUrl_base64].
  rewrite !trim_trim. repeat split; assumption.
Qed.

(** The route trims the file name and [sendWhatsAppMedia] trims it
    again; the second time changes nothing. *)
Lemma orUndefined_trim_again x :
  orUndefined (JsString.trim (orEmpty (orUndefined (JsString.trim x))))
  = orUndefined (JsString.trim x).
Proof.
  unfold orUndefined at 2 3.
  destruct (JsString.truthy (JsString.trim x)) eqn:E; cbn [orEmpty].
  - rewrite trim_trim. unfold orUndefined. rewrite E. reflexivity.
  - reflexivity.
Qed.

Lemma routeMedia_content parsed u :
  JsString.trim (SendRoute.dataUrl_mimeType u) = SendRoute.dataUrl_mimeType u ->
  JsString.trim (SendRoute.dataUrl_base64 u) = SendRoute.dataUrl_base64 u ->
  mediaContent (routeMedia parsed u)
  = Media (SendRoute.dataUrl_mimeType u) (SendRoute.dataUrl_base64 u)
      (orUndefined
         (JsString.trim (orEmpty (SendRoute.parsed_filename parsed)))).
Proof.
  intros Tm Tb. unfold mediaContent, routeMedia.
  cbn [mimeType base64 filename]. rewrite Tm, Tb, orUndefined_trim_again.
  reflexivity.
Qed.

(** The send route once the request is admitted and valid. *)
Lemma route_outcome request initialize run w parsed :
  SendRoute.isAdminRequest request = true ->
  validated request = Some parsed ->
  let r := SendRoute.POST request initialize run w in
  let w0 := exec (startWhatsApp initialize) (afterBody request w) in
  (Status.eqb (status (state w0)) Status.ready = false
   /\ r = (Normal (json (ErrorBody (js "WhatsApp não está conectado.")) 409),
           w0))
  \/ (Status.eqb (status (state w0)) Status.ready = true
      /\ match routePayload parsed with
         | None =>
             r = (Normal (json (ErrorBody (js "mediaDataUrl inválido.")) 400),
                  w0)
         | Some (content, options) =>
             exists s, r = (Normal (answered (fst s)), snd s)
                       /\ sendEnds run w0 content options s
         end).
Proof.
  intros Hadmin Hvalid r w0.
  pose proof (POST_cases request initialize run w) as H.
  cbv zeta in H. rewrite Hadmin, Hvalid in H. fold w0 in H. fold r in H.
  destruct (Status.eqb (status (state w0)) Status.ready) eqn:Hready;
    cbn [negb] in H; [right | left; split; [reflexivity | exact H]].
  split; [reflexivity |].
  assert (Hmsg :
    JsString.truthy
      (JsString.trim (orEmpty (SendRoute.parsed_mediaDataUrl parsed))) = false ->
    JsString.truthy (JsString.trim (SendRoute.parsed_message parsed)) = true).
  { unfold validated in Hvalid.
    destruct (settles (SendRoute.body request)) as [b|]; [| discriminate].
    apply (requestSchema_some _ Hvalid). }
  unfold routePayload. cbv zeta.
  destruct (JsString.truthy
              (JsString.trim (orEmpty (SendRoute.parsed_mediaDataUrl parsed))))
    eqn:Hmedia.
  - destruct (SendRoute.parseDataUrl
                (JsString.trim
                   (orEmpty (SendRoute.parsed_mediaDataUrl parsed))))
      as [u|] eqn:Hu; [| exact H].
    eexists. split; [exact H |].
    destruct (parsed_media_valid _ Hu) as (Em & Eb & Tm & Tb).
    pose proof (@route_media_ends run (SendRoute.parsed_number parsed)
                  (routeMedia parsed u)
                  (Some (SendRoute.parsed_message parsed)) (Some (isPdf u))
                  w0 Hready Em Eb) as Hends.
    rewrite (routeMedia_content parsed u Tm Tb) in Hends.
    unfold mediaOptions in Hends. cbn [orEmpty] in Hends.
    destruct (isPdf u); exact Hends.
  - eexists. split; [exact H |].
    apply route_text_ends; [exact Hready | apply Hmsg; reflexivity].
Qed.

Lemma truthy_toLowerCase s :
  JsString.truthy (JsString.toLowerCase s) = JsString.truthy s.
Proof. destruct s; reflexivity. Qed.

(** X19: the admin hint alone authorises nothing.  A request with no
    [Origin] header (or a blank one) and no [Referer] header (or an
    empty one) is answered 401, whatever [x-admin-request] says, and
    nothing else happens: the body is not read and the session is not
    touched. *)
Theorem X19_send_route_needs_origin_or_referer
    (request : SendRoute.Request) (initialize : Await unit) (run : SendRun)
    (w : World) :
  JsString.truthy
    (JsString.trim (orEmpty (SendRoute.header_origin request))) = false ->
  JsString.truthy (orEmpty (SendRoute.header_referer request)) = false ->
  SendRoute.POST request initialize run w
  = (Normal (json (ErrorBody (js "Unauthorized")) 401), w).
Proof.
  intros Ho Hr.
  assert (Ha : SendRoute.isAdminRequest request = false).
  { unfold SendRoute.isAdminRequest, SendRoute.isSameOrigin. cbv zeta.
    rewrite Ho. cbn [negb]. rewrite andb_false_r.
    rewrite truthy_toLowerCase, Hr. reflexivity. }
  pose proof (POST_cases request initialize run w) as H.
  cbv zeta in H. rewrite Ha in H. exact H.
Qed.

Lemma X19_send_route_needs_origin_or_referer_witness :
  SendRoute.POST bareRequest (resolved tt) plainRun readyWorld
  = (Normal (json (ErrorBody (js "Unauthorized")) 401), readyWorld).
Proof.
  apply X19_send_route_needs_origin_or_referer; reflexivity.
Defined.

(** X20: the route checks before it acts.  A request that is not
    admitted, whose body cannot be read or whose parameters do not pass
    the schema is answered 401 or 400 without the session being
    started: the world is left as the client events that arrived while
    the body was read made it (untouched for a 401), with no
    [initialize()] and no [sendMessage] call added. *)
Theorem X20_send_route_checks_first
    (request : SendRoute.Request) (initialize : Await unit) (run : SendRun)
    (w : World) :
  SendRoute.isAdminRequest request = false \/ validated request = None ->
  let r := SendRoute.POST request initialize run w in
  exists resp,
    fst r = Normal resp
    /\ (httpStatus resp = 401 \/ httpStatus resp = 400)
    /\ snd r = (if SendRoute.isAdminRequest request
                then afterBody request w else w)
    /\ initializeCalls (snd r) = initializeCalls w
    /\ sendCalls (snd r) = sendCalls w.
Proof.
  intros Hcase r.
  pose proof (POST_cases request initialize run w) as H.
  cbv zeta in H. fold r in H.
  destruct (route_world request initialize w) as (_ & _ & Hs & Hi).
  destruct (SendRoute.isAdminRequest request).
  - destruct Hcase as [Hcase | Hcase]; [discriminate |].
    rewrite Hcase in H. destruct H as [msg ->].
    eexists. split; [reflexivity |]. split; [right; reflexivity |].
    split; [reflexivity |]. split; [exact Hi | exact Hs].
  - rewrite H. eexists. split; [reflexivity |].
    split; [left; reflexivity |]. repeat split.
Qed.

Lemma X20_send_route_checks_first_witness :
  exists resp,
    fst (SendRoute.POST incompleteRequest (resolved tt) plainRun readyWorld)
    = Normal resp
    /\ (httpStatus resp = 401 \/ httpStatus resp = 400)
    /\ snd (SendRoute.POST incompleteRequest (resolved tt) plainRun readyWorld)
       = (if SendRoute.isAdminRequest incompleteRequest
          then afterBody incompleteRequest readyWorld else readyWorld)
    /\ initializeCalls
         (snd (SendRoute.POST incompleteRequest (resolved tt) plainRun
                 readyWorld))
       = initializeCalls readyWorld
    /\ sendCalls
         (snd (SendRoute.POST incompleteRequest (resolved tt) plainRun
                 readyWorld))
       = sendCalls readyWorld.
Proof.
  apply (@X20_send_route_checks_first incompleteRequest (resolved tt) plainRun
           readyWorld).
  right. reflexivity.
Defined.

Lemma sendEnds_calls run w0 content options s :
  sendEnds run w0 content options s ->
  exists tail, sendCalls (snd s) = sendCalls w0 ++ tail
               /\ List.length tail <= 1
               /\ (fst s = Normal tt -> List.length tail = 1).
Proof.
  intros [(e & He & _ & Hs) | (chatId & _ & Hs & Hf)].
  - exists []. rewrite app_nil_r. split; [exact Hs |]. split; [simpl; lia |].
    intro Hn. rewrite He in Hn. discriminate.
  - eexists. split; [exact Hs |]. split; [simpl; lia | reflexivity].
Qed.

(** X21: the send route never throws.  It answers 200, 400, 401, 409
    or 500; 200 exactly when the body is [{ ok: true }]; it calls
    [sendMessage] at most once, exactly once when it answers 200, and
    not at all when it answers 400, 401 or 409. *)
Theorem X21_send_route_answers
    (request : SendRoute.Request) (initialize : Await unit) (run : SendRun)
    (w : World) :
  let r := SendRoute.POST request initialize run w in
  exists resp tail,
    fst r = Normal resp
    /\ In (httpStatus resp) [200; 400; 401; 409; 500]
    /\ (httpStatus resp = 200 <-> payload resp = OkBody)
    /\ sendCalls (snd r) = sendCalls w ++ tail
    /\ List.length tail <= 1
    /\ (httpStatus resp = 200 -> List.length tail = 1)
    /\ (httpStatus resp <> 200 -> httpStatus resp <> 500 -> tail = []).
Proof.
  intro r.
  destruct (route_world request initialize w) as (_ & Hs0 & Hsb & _).
  destruct (SendRoute.isAdminRequest request) eqn:Hadmin.
  2: { pose proof (POST_cases request initialize run w) as H.
       cbv zeta in H. fold r in H. rewrite Hadmin in H. rewrite H.
       exists (json (ErrorBody (js "Unauthorized")) 401), [].
       cbn [fst snd httpStatus payload json]. rewrite app_nil_r.
       split; [reflexivity |]. split; [simpl; tauto |].
       split; [split; discriminate |].
       split; [reflexivity |]. split; [simpl; lia |].
       split; [discriminate | reflexivity]. }
  destruct (validated request) as [parsed|] eqn:Hvalid.
  2: { pose proof (POST_cases request initialize run w) as H.
       cbv zeta in H. fold r in H. rewrite Hadmin, Hvalid in H.
       destruct H as [msg ->].
       exists (json (ErrorBody msg) 400), [].
       cbn [fst snd httpStatus payload json]. rewrite app_nil_r.
       split; [reflexivity |]. split; [simpl; tauto |].
       split; [split; discriminate |].
       split; [exact Hsb |]. split; [simpl; lia |].
       split; [discriminate | reflexivity]. }
  destruct (route_outcome request initialize run w Hadmin Hvalid)
    as [[_ H] | [_ H]]; cbv zeta in H; fold r in H.
  - rewrite H. eexists. exists [].
    cbn [fst snd httpStatus payload json]. rewrite app_nil_r.
    split; [reflexivity |]. split; [simpl; tauto |].
    split; [split; discriminate |].
    split; [exact Hs0 |]. split; [simpl; lia |].
    split; [discriminate | reflexivity].
  - destruct (routePayload parsed) as [[content options]|].
    + destruct H as (s & Hr & Hends).
      destruct (sendEnds_calls Hends) as (tail & Ht & Hlen & Hone).
      rewrite Hr. exists (answered (fst s)), tail. cbn [fst snd].
      split; [reflexivity |].
      rewrite Ht, Hs0.
      destruct (fst s) as [[]|e]; cbn [answered httpStatus payload json].
      * split; [simpl; tauto |]. split; [split; reflexivity |].
        split; [reflexivity |]. split; [exact Hlen |].
        split; [intros _; apply Hone; reflexivity |].
        intros Hne. exfalso. apply Hne. reflexivity.
      * split; [simpl; tauto |]. split; [split; discriminate |].
        split; [reflexivity |]. split; [exact Hlen |].
        split; [discriminate |].
        intros _ Hne. exfalso. apply Hne. reflexivity.
    + rewrite H. eexists. exists [].
      cbn [fst snd httpStatus payload json]. rewrite app_nil_r.
      split; [reflexivity |]. split; [simpl; tauto |].
      split; [split; discriminate |].
      split; [exact Hs0 |]. split; [simpl; lia |].
      split; [discriminate | reflexivity].
Qed.

(** X22: when the route answers 200, the request was admitted and
    valid, the session was [ready], and exactly one [sendMessage] was
    made and resolved: to a non-empty chat identifier, with the media
    of the data URL, the trimmed file name and the trimmed message as
    caption, as a document exactly when the media type is
    [application/pdf] in any letter case; or, without media, with the
    message as text. *)
Theorem X22_send_route_ok_sent
    (request : SendRoute.Request) (initialize : Await unit) (run : SendRun)
    (w : World) (resp : Response) :
  let r := SendRoute.POST request initialize run w in
  fst r = Normal resp ->
  httpStatus resp = 200 ->
  SendRoute.isAdminRequest request = true
  /\ exists parsed content options chatId,
       validated request = Some parsed
       /\ routePayload parsed = Some (content, options)
       /\ JsString.truthy chatId = true
       /\ sendCalls (snd r)
          = sendCalls w
            ++ [ClientSendMessage (client w) chatId content options]
       /\ settles (run_sendMessage run) = Normal tt
       /\ status (state (exec (startWhatsApp initialize)
                           (afterBody request w)))
          = Status.ready.
Proof.
  intros r Hresp Hok.
  destruct (route_world request initialize w) as (Hc & Hs0 & _ & _).
  destruct (SendRoute.isAdminRequest request) eqn:Hadmin.
  2: { pose proof (POST_cases request initialize run w) as H.
       cbv zeta in H. fold r in H. rewrite Hadmin in H.
       rewrite H in Hresp. injection Hresp as <-. discriminate. }
  split; [reflexivity |].
  destruct (validated request) as [parsed|] eqn:Hvalid.
  2: { pose proof (POST_cases request initialize run w) as H.
       cbv zeta in H. fold r in H. rewrite Hadmin, Hvalid in H.
       destruct H as [msg H].
       rewrite H in Hresp. injection Hresp as <-. discriminate. }
  destruct (route_outcome request initialize run w Hadmin Hvalid)
    as [[_ H] | [Hready H]]; cbv zeta in H; fold r in H.
  { rewrite H in Hresp. injection Hresp as <-. discriminate. }
  destruct (routePayload parsed) as [[content options]|] eqn:Hp.
  2: { rewrite H in Hresp. injection Hresp as <-. discriminate. }
  destruct H as (s & Hr & Hends).
  rewrite Hr in Hresp |- *. cbn [fst snd] in Hresp |- *.
  injection Hresp as <-.
  destruct Hends as [(e & He & _ & _) | (chatId & Hid & Hs & Hf)].
  { rewrite He in Hok. discriminate. }
  exists parsed, content, options, chatId.
  split; [reflexivity |]. split; [exact Hp |]. split; [exact Hid |].
  split; [rewrite Hs, Hs0, Hc; reflexivity |].
  split; [| apply status_eqb_true; exact Hready].
  rewrite Hf in Hok.
  destruct (settles (run_sendMessage run)) as [[]|e]; [reflexivity |].
  discriminate.
Qed.

Lemma X22_send_route_ok_sent_witness :
  SendRoute.isAdminRequest pdfRequest = true
  /\ exists parsed content options chatId,
       validated pdfRequest = Some parsed
       /\ routePayload parsed = Some (content, options)
       /\ JsString.truthy chatId = true
       /\ sendCalls
            (snd (SendRoute.POST pdfRequest (resolved tt) plainRun readyWorld))
          = sendCalls readyWorld
            ++ [ClientSendMessage (client readyWorld) chatId content options]
       /\ settles (run_sendMessage plainRun) = Normal tt
       /\ status (state (exec (startWhatsApp (resolved tt))
                           (afterBody pdfRequest readyWorld)))
          = Status.ready.
Proof.
  apply (@X22_send_route_ok_sent pdfRequest (resolved tt) plainRun readyWorld
           (json OkBody 200)).
  - vm_compute. reflexivity.
  - reflexivity.
Defined.

Lemma sendFailure_cases content e msg :
  sendFailure (fallbackFor content) e = JsError msg ->
  msg = msgNotOnNetwork
  \/ msg = js "Falha ao enviar mensagem."
  \/ msg = js "Falha ao enviar mídia."
  \/ e = JsError msg.
Proof.
  unfold sendFailure. cbv zeta.
  destruct (noLidForUser (messageOf e));
    [intro H; injection H as <-; left; reflexivity |].
  destruct e as [m|]; cbn [messageOf].
  - destruct (JsString.truthy m); intro H; injection H as <-;
      right; right; right; reflexivity.
  - change (JsString.truthy JsString.empty) with false. cbv iota.
    destruct content; cbn [fallbackFor]; intro H; injection H as <-.
    + right. left. reflexivity.
    + right. right. left. reflexivity.
Qed.

(** X23: when the route answers 500, the error it reports is the
    message of an [Error] the library threw.  Either the resolver
    failed, with one of its three messages, and nothing was sent; or
    the one [sendMessage] call of the request was rejected and the
    message is what the send function classified it as.  So the
    message is a resolver message, or one of the two fixed messages
    for a rejection that is not an [Error], or the message of the
    [Error] that [sendMessage] rejected with: the library's own checks
    (not connected, empty message, invalid media) never fire behind the
    route, and its last-resort message is used for no thrown value. *)
Theorem X23_send_route_failures
    (request : SendRoute.Request) (initialize : Await unit) (run : SendRun)
    (w : World) (resp : Response) :
  let r := SendRoute.POST request initialize run w in
  fst r = Normal resp ->
  httpStatus resp = 500 ->
  exists msg,
    payload resp = ErrorBody msg
    /\ (((msg = msgInvalidNumber
          \/ msg = msgSelfUnavailable
          \/ msg = msgNotOnNetwork)
         /\ sendCalls (snd r) = sendCalls w)
        \/ exists parsed content options chatId e,
             validated request = Some parsed
             /\ routePayload parsed = Some (content, options)
             /\ sendCalls (snd r)
                = sendCalls w
                  ++ [ClientSendMessage (client w) chatId content options]
             /\ settles (run_sendMessage run) = Throw e
             /\ sendFailure (fallbackFor content) e = JsError msg)
    /\ (msg = msgInvalidNumber
        \/ msg = msgSelfUnavailable
        \/ msg = msgNotOnNetwork
        \/ msg = js "Falha ao enviar mensagem."
        \/ msg = js "Falha ao enviar mídia."
        \/ settles (run_sendMessage run) = Throw (JsError msg)).
Proof.
  intros r Hresp Hcode.
  destruct (route_world request initialize w) as (Hc & Hs0 & _ & _).
  destruct (SendRoute.isAdminRequest request) eqn:Hadmin.
  2: { pose proof (POST_cases request initialize run w) as H.
       cbv zeta in H. fold r in H. rewrite Hadmin in H.
       rewrite H in Hresp. injection Hresp as <-. discriminate. }
  destruct (validated request) as [parsed|] eqn:Hvalid.
  2: { pose proof (POST_cases request initialize run w) as H.
       cbv zeta in H. fold r in H. rewrite Hadmin, Hvalid in H.
       destruct H as [msg H].
       rewrite H in Hresp. injection Hresp as <-. discriminate. }
  destruct (route_outcome request initialize run w Hadmin Hvalid)
    as [[_ H] | [Hready H]]; cbv zeta in H; fold r in H.
  { rewrite H in Hresp. injection Hresp as <-. discriminate. }
  destruct (routePayload parsed) as [[content options]|] eqn:Hp.
  2: { rewrite H in Hresp. injection Hresp as <-. discriminate. }
  destruct H as (s & Hr & Hends).
  rewrite Hr in Hresp |- *. cbn [fst snd] in Hresp |- *.
  injection Hresp as <-.
  destruct Hends as [(e & He & Hknown & Hs) | (chatId & _ & Hs & Hf)].
  - rewrite He. cbn [answered payload json]. rewrite Hs, Hs0.
    destruct Hknown as [-> | [-> | ->]]; eexists;
      (split; [reflexivity |]); (split; [left; split; [| reflexivity] |]).
    + left. reflexivity.
    + left. reflexivity.
    + right. left. reflexivity.
    + right. left. reflexivity.
    + right. right. reflexivity.
    + right. right. left. reflexivity.
  - rewrite Hf in Hcode |- *.
    destruct (settles (run_sendMessage run)) as [[]|e] eqn:Hsend;
      [discriminate |].
    destruct (sendFailure_error (fallbackFor content) e) as [msg Hm].
    rewrite Hm. cbn [answered payload json].
    exists msg. split; [reflexivity |]. split.
    + right. exists parsed, content, options, chatId, e.
      split; [reflexivity |]. split; [exact Hp |].
      split; [rewrite Hs, Hs0, Hc; reflexivity |].
      split; [reflexivity | exact Hm].
    + destruct (@sendFailure_cases content e msg Hm) as [-> | [-> | [-> | ->]]].
      * right. right. left. reflexivity.
      * right. right. right. left. reflexivity.
      * right. right. right. right. left. reflexivity.
      * right. right. right. right. right. reflexivity.
Qed.

Lemma X23_send_route_failures_witness :
  exists msg,
    payload (json (ErrorBody msgNotOnNetwork) 500) = ErrorBody msg
    /\ (((msg = msgInvalidNumber
          \/ msg = msgSelfUnavailable
          \/ msg = msgNotOnNetwork)
         /\ sendCalls
              (snd (SendRoute.POST (textRequest (js "(11) 99999-8888"))
                      (resolved tt) noLidRun readyWorld))
            = sendCalls readyWorld)
        \/ exists parsed content options chatId e,
             validated (textRequest (js "(11) 99999-8888")) = Some parsed
             /\ routePayload parsed = Some (content, options)
             /\ sendCalls
                  (snd (SendRoute.POST (textRequest (js "(11) 99999-8888"))
                          (resolved tt) noLidRun readyWorld))
                = sendCalls readyWorld
                  ++ [ClientSendMessage (client readyWorld) chatId content
                        options]
             /\ settles (run_sendMessage noLidRun) = Throw e
             /\ sendFailure (fallbackFor content) e = JsError msg)
    /\ (msg = msgInvalidNumber
        \/ msg = msgSelfUnavailable
        \/ msg = msgNotOnNetwork
        \/ msg = js "Falha ao enviar mensagem."
        \/ msg = js "Falha ao enviar mídia."
        \/ settles (run_sendMessage noLidRun) = Throw (JsError msg)).
Proof.
  apply (@X23_send_route_failures (textRequest (js "(11) 99999-8888"))
           (resolved tt) noLidRun readyWorld
           (json (ErrorBody msgNotOnNetwork) 500)).
  - vm_compute. reflexivity.
  - reflexivity.
Defined.

(** ** Retrying a failed start *)

(** X24: a [start()] whose [initialize()] failed can be retried: the
    next [start()] calls [initialize()] again, on the same client
    instance, since only [reset()] makes a new one. *)
Theorem X24_failed_start_retried
    (first second : Await unit) (e : Thrown) (w : World) :
  ~ started w ->
  initialized (state w) = false ->
  settles first = Throw e ->
  let w1 := exec (startWhatsApp first) w in
  let w2 := exec (startWhatsApp second) w1 in
  status (state w1) = Status.error
  /\ client w2 = client w
  /\ initializeCalls w2
     = initializeCalls w
       ++ [ClientInitialize (client w); ClientInitialize (client w)].
Proof.
  intros Hs Hi He w1 w2.
  destruct (@start_failure first e w Hs Hi He) as (Hst & _ & Hin & _).
  fold w1 in Hst, Hin.
  assert (Hx : forall i w0, client (exec (startWhatsApp i) w0) = client w0).
  { intros i w0.
    assert (Hx : extends w0 (exec (startWhatsApp i) w0)).
    { apply (start_preserves (extends_framed w0)); try reflexivity.
      apply extends_refl. }
    apply Hx. }
  assert (Hn : ~ started w1).
  { unfold started. rewrite Hst. intros [H|[H|H]]; discriminate. }
  split; [exact Hst |].
  split; [unfold w2, w1; rewrite !Hx; reflexivity |].
  unfold w2. rewrite (start_initializes_current second Hn Hin).
  unfold w1 at 1. rewrite (start_initializes_current first Hs Hi).
  unfold w1. rewrite Hx, <- app_assoc. reflexivity.
Qed.

Lemma X24_failed_start_retried_witness :
  initializeCalls
    (exec (startWhatsApp (resolved tt))
       (exec (startWhatsApp (rejected (JsError (js "Timeout"))))
          createSingleton))
  = initializeCalls createSingleton
    ++ [ClientInitialize (client createSingleton);
        ClientInitialize (client createSingleton)].
Proof.
  refine (proj2 (proj2
            (@X24_failed_start_retried (rejected (JsError (js "Timeout")))
               (resolved tt) (JsError (js "Timeout")) createSingleton
               _ _ _))).
  - vm_compute. intros [H|[H|H]]; discriminate.
  - reflexivity.
  - reflexivity.
Defined.
